(** * alt-sendme web-app: the sender and receiver session hooks

    A shallow embedding of [web-app/src/hooks/useSender.ts], of the receiver
    hook [useReceiver], of [lib/analytics.ts] ([trackDataTransfer]) and of
    what two components draw from the hooks' values: [ReceivingActiveCard]
    and [Dropzone].

    Conventions of the embedding.
    - A JavaScript [number] is an IEEE 754 binary64 value: Rocq's primitive
      [float].  [parseInt], [Math.round], [||] and [?:] follow ECMAScript.
    - A JavaScript string is a [string]: the bytes of its UTF-8 encoding,
      as in a string literal of this file.  The hooks cut strings at [':']
      and ['/'] and strip white space, which is decided on these bytes as on
      the code points.  Event payloads are the strings the hooks cast them
      to ([event.payload as string]).
    - What [JSON.parse] returns is a JSON value.  A TypeScript cast checks
      nothing when the program runs, so the file names the receiver retains
      are whatever value the payload denotes, and the statements that read
      them are given their JavaScript meaning on every such value.
      [JSON.parse] itself and the conversions of an object to a number or a
      string are parameters of the receiver ([runtime]).
    - A hook is a record of its [useState] cells (and [useRef] cells).  Every
      listener, every exported callback and every continuation after an
      [await] is a function from the state to the next state and the list of
      effects it performs on the outside world ([invoke], [setTimeout],
      [console.warn]/[console.error], the analytics call).  What the outside
      world answers (a resolved or rejected promise, [Date.now()], a timer
      firing) is an input.
    - [console.log] tracing is not an effect of the model.
    - An input is handled after React has committed the updates of the
      previous one: the ref-mirroring effects have run and the listeners have
      been re-installed when their dependency array changed. *)

From Stdlib Require Import ZArith List String Ascii Bool Lia.
From Stdlib Require Import Floats DecimalString DecimalNat.
Import ListNotations.
Local Open Scope string_scope.
Local Open Scope Z_scope.

(* ===================================================================== *)
(** * JavaScript primitives used by the hooks *)
(* ===================================================================== *)

Module JS.

(** A JavaScript number. *)
Definition number := float.

(** The number nearest to the integer [z] (ties to even); [neg]
    gives the sign of a zero result. *)
Definition of_Z (neg : bool) (z : Z) : number :=
  SF2Prim (binary_normalize prec emax z 0 neg).

(** [ToBoolean] on a number: [0], [-0] and [NaN] are falsy. *)
Definition truthy (x : number) : bool :=
  negb (PrimFloat.is_nan x || PrimFloat.is_zero x).

(** [x || y] on numbers. *)
Definition or_num (x y : number) : number := if truthy x then x else y.

(** [ToBoolean] on a string: only the empty string is falsy. *)
Definition truthy_str (s : string) : bool :=
  match s with EmptyString => false | String _ _ => true end.

(** [a || b] on strings. *)
Definition or_str (a b : string) : string := if truthy_str a then a else b.

(** [s.split(sep)] for a one-character separator: never empty. *)
Fixpoint split (sep : ascii) (s : string) : list string :=
  match s with
  | EmptyString => [EmptyString]
  | String c rest =>
      if Ascii.eqb c sep then EmptyString :: split sep rest
      else match split sep rest with
           | hd :: tl => String c hd :: tl
           | [] => [String c EmptyString]
           end
  end.

(** [a.pop()] read as a value: the last element, [undefined] when empty. *)
Definition pop (l : list string) : option string :=
  match rev l with [] => None | x :: _ => Some x end.

(** [a.pop() || dflt]: [undefined] and the empty string are falsy. *)
Definition pop_or (l : list string) (dflt : string) : string :=
  match pop l with Some x => or_str x dflt | None => dflt end.

(** [a[0]]. *)
Definition first (l : list string) : option string := hd_error l.

(** White space.  [parseInt] and [trim] skip the code points of the
    ECMAScript productions WhiteSpace and LineTerminator: U+0009 to U+000D,
    U+0020, U+00A0, U+1680, U+2000 to U+200A, U+2028, U+2029, U+202F,
    U+205F, U+3000 and U+FEFF.  In UTF-8 the first six are one byte,
    U+00A0 is the two bytes C2 A0, and the others are three bytes. *)
Definition is_space1 (c : ascii) : bool :=
  let n := nat_of_ascii c in
  (Nat.eqb n 32 || (Nat.leb 9 n && Nat.leb n 13))%bool.

Definition is_space2 (c1 c2 : ascii) : bool :=
  (Nat.eqb (nat_of_ascii c1) 194 && Nat.eqb (nat_of_ascii c2) 160)%bool.

Definition is_space3 (c1 c2 c3 : ascii) : bool :=
  let a := nat_of_ascii c1 in
  let b := nat_of_ascii c2 in
  let c := nat_of_ascii c3 in
  ((Nat.eqb a 225 && Nat.eqb b 154 && Nat.eqb c 128)              (* U+1680 *)
   || (Nat.eqb a 226 && Nat.eqb b 128
       && ((Nat.leb 128 c && Nat.leb c 138)                       (* U+2000..U+200A *)
           || Nat.eqb c 168 || Nat.eqb c 169                      (* U+2028, U+2029 *)
           || Nat.eqb c 175))                                     (* U+202F *)
   || (Nat.eqb a 226 && Nat.eqb b 129 && Nat.eqb c 159)           (* U+205F *)
   || (Nat.eqb a 227 && Nat.eqb b 128 && Nat.eqb c 128)           (* U+3000 *)
   || (Nat.eqb a 239 && Nat.eqb b 187 && Nat.eqb c 191))%bool     (* U+FEFF *).

(** The string after its first code point, when that is white space. *)
Definition skip_space (s : string) : option string :=
  match s with
  | String c1 r1 =>
      if is_space1 c1 then Some r1
      else match r1 with
           | String c2 r2 =>
               if is_space2 c1 c2 then Some r2
               else match r2 with
                    | String c3 r3 =>
                        if is_space3 c1 c2 c3 then Some r3 else None
                    | EmptyString => None
                    end
           | EmptyString => None
           end
  | EmptyString => None
  end.

Definition is_digit (c : ascii) : bool :=
  let n := nat_of_ascii c in (Nat.leb 48 n && Nat.leb n 57)%bool.

Definition digit_val (c : ascii) : Z := Z.of_nat (nat_of_ascii c) - 48.

(** Drops leading white space. *)
Fixpoint trimStart (s : string) : string :=
  match s with
  | String c1 r1 =>
      if is_space1 c1 then trimStart r1
      else match r1 with
           | String c2 r2 =>
               if is_space2 c1 c2 then trimStart r2
               else match r2 with
                    | String c3 r3 =>
                        if is_space3 c1 c2 c3 then trimStart r3 else s
                    | EmptyString => s
                    end
           | EmptyString => s
           end
  | EmptyString => EmptyString
  end.

(** Drops trailing white space: what is left from a position on is dropped
    when it is white space only. *)
Fixpoint trimEnd (s : string) : string :=
  match s with
  | EmptyString => EmptyString
  | String c rest =>
      match trimStart s with
      | EmptyString => EmptyString
      | String _ _ => String c (trimEnd rest)
      end
  end.

(** [s.trim()]. *)
Definition trim (s : string) : string := trimEnd (trimStart s).

(** The value of the longest prefix of decimal digits, with its length. *)
Fixpoint digits (s : string) (acc : Z) (n : nat) : Z * nat :=
  match s with
  | String c rest =>
      if is_digit c then digits rest (10 * acc + digit_val c) (S n)
      else (acc, n)
  | EmptyString => (acc, n)
  end.

(** [parseInt(s, 10)]: leading white space, an optional sign, then the
    longest run of decimal digits; [NaN] when there is no digit, and
    otherwise the number nearest to the signed integer ([-0] for ["-0"]).
    ECMAScript lets an implementation approximate the digits after the
    20th; they are read exactly here. *)
Definition parseInt (s : string) : number :=
  let s1 := trimStart s in
  let '(neg, s2) :=
    match s1 with
    | String "-" r => (true, r)
    | String "+" r => (false, r)
    | _ => (false, s1)
    end in
  match digits s2 0 0 with
  | (_, O) => PrimFloat.nan
  | (v, S _) => of_Z neg (if neg then - v else v)
  end.

(** [Math.round(x)]: the nearest integer, ties towards +Infinity. *)
Definition Math_round (x : number) : number :=
  match Prim2SF x with
  | S754_finite s m e =>
      if 0 <=? e then x
      else
        let d := 2 ^ (- e) in
        let sm := if s then Z.neg m else Z.pos m in
        of_Z s ((2 * sm + d) / (2 * d))
  | _ => x
  end.

(** [Math.floor(x)]: the greatest integer not above [x]. *)
Definition Math_floor (x : number) : number :=
  match Prim2SF x with
  | S754_finite s m e =>
      if 0 <=? e then x
      else
        let d := 2 ^ (- e) in
        let sm := if s then Z.neg m else Z.pos m in
        of_Z s (sm / d)
  | _ => x
  end.

(** [x % y]: what is left of [x] after the division by [y] truncated
    towards zero; it has the sign of [x] and is exact. *)
Definition rem (x y : number) : number :=
  match Prim2SF x, Prim2SF y with
  | S754_nan, _ | _, S754_nan => PrimFloat.nan
  | S754_infinity _, _ => PrimFloat.nan
  | _, S754_zero _ => PrimFloat.nan
  | S754_zero _, _ => x
  | _, S754_infinity _ => x
  | S754_finite sx mx ex, S754_finite _ my ey =>
      let e := Z.min ex ey in
      let r := (Z.pos mx * 2 ^ (ex - e)) mod (Z.pos my * 2 ^ (ey - e)) in
      SF2Prim (binary_normalize prec emax (if sx then - r else r) e sx)
  end.

(** [s.length]: the number of UTF-16 code units.  A code point takes one
    unit, or two when its UTF-8 encoding has four bytes; the bytes
    [10xxxxxx] continue a code point. *)
Fixpoint utf16_length (s : string) : nat :=
  match s with
  | EmptyString => O
  | String c rest =>
      let b := nat_of_ascii c in
      ((if (b <? 128)%nat then 1
        else if (b <? 192)%nat then 0
        else if (b <? 240)%nat then 1
        else 2) + utf16_length rest)%nat
  end.

(** [`${n}`] for an array length. *)
Definition string_of_nat (n : nat) : string :=
  NilEmpty.string_of_uint (Nat.to_uint n).

End JS.

(* ===================================================================== *)
(** * JSON values and the runtime *)
(* ===================================================================== *)

Module JSON.

(** What [JSON.parse] can return. *)
#[warnings="-register-all"] Inductive value :=
| Null
| Bool (b : bool)
| Number (x : JS.number)
| Str (s : string)
| Array (items : list value)
| Object (members : list (string * value)).

(** [o[key]] for an object made by [JSON.parse]: its own property [key],
    where the last member of that name counts; [None] is [undefined] (the
    prototype of such an object has none of the properties read here). *)
Fixpoint member (key : string) (members : list (string * value)) : option value :=
  match members with
  | [] => None
  | (k, v) :: rest =>
      match member key rest with
      | Some w => Some w
      | None => if String.eqb k key then Some v else None
      end
  end.

End JSON.

(** What the hooks use of the JavaScript runtime and is not embedded here:
    [JSON.parse], the number a string, an array or an object is converted to
    (in [v > 0]) and the text a number, an array or an object is converted
    to (in a template literal).  [None] stands for an exception: a
    SyntaxError of [JSON.parse], a TypeError of the conversion of an array
    or object to a primitive value. *)
Record runtime := mkRuntime {
  JSON_parse : string -> option JSON.value;
  ToNumber : JSON.value -> option JS.number;
  ToString : JSON.value -> option string
}.

(** [ToNumber(v)]: [null] is 0, [true] is 1, [false] is 0. *)
Definition to_number (rt : runtime) (v : JSON.value) : option JS.number :=
  match v with
  | JSON.Null => Some 0%float
  | JSON.Bool b => Some (if b then 1%float else 0%float)
  | JSON.Number x => Some x
  | _ => ToNumber rt v
  end.

(** [ToString(v)]. *)
Definition to_string (rt : runtime) (v : JSON.value) : option string :=
  match v with
  | JSON.Null => Some "null"
  | JSON.Bool b => Some (if b then "true" else "false")
  | JSON.Str s => Some s
  | _ => ToString rt v
  end.

(* ===================================================================== *)
(** * Types shared by the two hooks ([types/sender]) and their effects *)
(* ===================================================================== *)

(** Modelled from the spec: the declarations of [types/sender]
    ([AlertType], [AlertDialogState], [TransferProgress], [TransferMetadata])
    are not among the sources.  The fields are those of the data model
    (AlertState: isOpen, title, description, severity; TransferProgress;
    TransferMetadata) under the names of the object literals the hooks
    build.  [AlertType] is a union of string literals, of which the hooks
    use ['info'] and ['error']. *)
Definition AlertType := string.

(** Modelled from the spec: AlertState (isOpen, title, description,
    severity), as the hooks initialise it. *)
Record AlertDialogState := mkAlert {
  isOpen : bool;
  title : string;
  description : string;
  type : AlertType
}.

(** Modelled from the spec: TransferProgress (bytesTransferred, totalBytes,
    speedBps, percentage), as the progress listeners build it. *)
Record TransferProgress := mkProgress {
  bytesTransferred : JS.number;
  totalBytes : JS.number;
  speedBps : JS.number;
  percentage : JS.number
}.

(** Modelled from the spec: TransferMetadata (fileName, fileSize, duration,
    startTime, endTime, downloadPath), as the completion listeners build
    it. *)
Record TransferMetadata := mkMetadata {
  fileName : string;
  fileSize : JS.number;
  duration : JS.number;
  startTime : JS.number;
  endTime : JS.number;
  downloadPath : option string   (* absent on the sender *)
}.

(** The callbacks handed to [setTimeout]. *)
Inductive timer :=
| ClearCopySuccess    (* () => setCopySuccess(false) *)
| ClearResumedFrom.   (* () => setResumedFrom(null) *)

(** What the sender's completion listener still holds across its
    [await invoke('get_file_size')]: the closure's [selectedPath] and
    [transferStartTime], and [endTime]. *)
Record completion := mkCompletion {
  c_path : string;
  c_startTime : option JS.number;
  c_endTime : JS.number
}.

(** What a handler does to the outside world. *)
Inductive effect :=
| Invoke_start_sharing (path : string)
| Invoke_stop_sharing
| Invoke_get_file_size (k : completion)
| Invoke_receive_file (ticket outputPath : string)
| Call_downloadDir
| Call_open_dialog                         (* open({multiple:false, directory:true}) *)
| Clipboard_writeText (text : string)
| SetTimeout (cb : timer) (ms : Z)
| Goatcounter_count (event : string) (size_bytes size_mb : JS.number)
| ConsoleWarn (msg : string) (error : option string)
| ConsoleError (msg : string) (error : option string)
| Uncaught_in_promise (error : string).     (* an async listener threw *)

(** The effects that reach the transfer engine. *)
Definition is_engine_command (e : effect) : bool :=
  match e with
  | Invoke_start_sharing _ | Invoke_stop_sharing
  | Invoke_get_file_size _ | Invoke_receive_file _ _ => true
  | _ => false
  end.

Definition is_analytics (e : effect) : bool :=
  match e with Goatcounter_count _ _ _ => true | _ => false end.

(** [x |> f]: apply the state update [f] to [x]. *)
Notation "x |> f" := (f x) (at level 45, left associativity, only parsing).

(** ** The progress computation of both [*-progress] listeners *)

(** [totalBytes > 0 ? (bytesTransferred / totalBytes) * 100 : 0] *)
Definition percentage_of (bytesTransferred totalBytes : JS.number) : JS.number :=
  if (0 <? totalBytes)%float
  then (bytesTransferred / totalBytes * 100)%float
  else 0%float.

(** The body of [if (parts.length === 3) { ... }] up to the object handed to
    [setTransferProgress]. *)
Definition progress_of_parts (p0 p1 p2 : string) : TransferProgress :=
  let bytesTransferred := JS.parseInt p0 in
  let totalBytes := JS.parseInt p1 in
  let speedInt := JS.parseInt p2 in
  let speedBps := (speedInt / 1000)%float in
  mkProgress bytesTransferred totalBytes speedBps
             (percentage_of bytesTransferred totalBytes).

(** [payload.split(':')] when it has exactly three parts. *)
Definition three_parts (payload : string) : option (string * string * string) :=
  match JS.split ":" payload with
  | [p0; p1; p2] => Some (p0, p1, p2)
  | _ => None
  end.

(** ** [lib/analytics.ts] *)

(** [window.goatcounter]: absent, or a [count] that returns or throws. *)
Inductive goatcounter := GcAbsent | GcCounts | GcThrows (error : string).

(** [Math.round(fileSizeBytes / (1024 * 1024) * 100) / 100] *)
Definition size_mb (fileSizeBytes : JS.number) : JS.number :=
  (JS.Math_round (fileSizeBytes / (1024 * 1024) * 100) / 100)%float.

Definition trackDataTransfer (gc : goatcounter) (fileSizeBytes : JS.number)
  : list effect :=
  match gc with
  | GcAbsent => []
  | GcCounts =>
      [Goatcounter_count "data-transferred" fileSizeBytes (size_mb fileSizeBytes)]
  | GcThrows err => [ConsoleWarn "Failed to track data transfer:" (Some err)]
  end.

(* ===================================================================== *)
(** * The sender hook ([useSender]) *)
(* ===================================================================== *)

Module Sender.

Record ImportProgress := mkImport {
  processed : JS.number;
  total : JS.number;
  ipercentage : JS.number
}.

(** The [useState] cells of [useSender], in declaration order.

    The listener effect depends on [[transferStartTime, selectedPath]], the
    only two cells its listeners read: they are re-installed whenever one of
    them changes, so a listener reads the cells of the current state.  The
    callbacks are re-created by every render and do the same. *)
Record state := mk {
  isSharing : bool;
  isImporting : bool;
  isTransporting : bool;
  isCompleted : bool;
  ticket : option string;
  selectedPath : option string;
  isLoading : bool;
  copySuccess : bool;
  transferMetadata : option TransferMetadata;
  transferProgress : option TransferProgress;
  importProgress : option ImportProgress;
  transferStartTime : option JS.number;
  alertDialog : AlertDialogState
}.

Definition init : state :=
  mk false false false false None None false false None None None None
     (mkAlert false "" "" "info").

(** The state setters. *)
Definition setIsSharing v '(mk _ b c d e f g h i j k l m) := mk v b c d e f g h i j k l m.
Definition setIsImporting v '(mk a _ c d e f g h i j k l m) := mk a v c d e f g h i j k l m.
Definition setIsTransporting v '(mk a b _ d e f g h i j k l m) := mk a b v d e f g h i j k l m.
Definition setIsCompleted v '(mk a b c _ e f g h i j k l m) := mk a b c v e f g h i j k l m.
Definition setTicket v '(mk a b c d _ f g h i j k l m) := mk a b c d v f g h i j k l m.
Definition setSelectedPath v '(mk a b c d e _ g h i j k l m) := mk a b c d e v g h i j k l m.
Definition setIsLoading v '(mk a b c d e f _ h i j k l m) := mk a b c d e f v h i j k l m.
Definition setCopySuccess v '(mk a b c d e f g _ i j k l m) := mk a b c d e f g v i j k l m.
Definition setTransferMetadata v '(mk a b c d e f g h _ j k l m) := mk a b c d e f g h v j k l m.
Definition setTransferProgress v '(mk a b c d e f g h i _ k l m) := mk a b c d e f g h i v k l m.
Definition setImportProgress v '(mk a b c d e f g h i j _ l m) := mk a b c d e f g h i j v l m.
Definition setTransferStartTime v '(mk a b c d e f g h i j k _ m) := mk a b c d e f g h i j k v m.
Definition setAlertDialog v '(mk a b c d e f g h i j k l _) := mk a b c d e f g h i j k l v.

(** What the hook receives: an engine event, a call of one of the returned
    callbacks, the settling of a promise it awaits, or a timer firing. *)
Inductive input :=
| Ev_import_started
| Ev_import_file_count (payload : string)
| Ev_import_progress (payload : string)
| Ev_import_completed
| Ev_transfer_started (now : JS.number)
| Ev_transfer_progress (payload : string)
| Ev_transfer_completed (now : JS.number)
| Get_file_size_resolved (k : completion) (fileSize : JS.number)
| Get_file_size_rejected (k : completion) (error : string)
| Call_handleFileSelect (path : string)
| Call_startSharing
| Start_sharing_resolved (result : string)
| Start_sharing_rejected (error : string)
| Call_stopSharing            (* also [resetForNewTransfer] *)
| Stop_sharing_resolved
| Stop_sharing_rejected (error : string)
| Call_copyTicket
| WriteText_resolved
| WriteText_rejected (error : string)
| Timer_fired (cb : timer)
| Call_showAlert (title description : string) (type : AlertType)
| Call_closeAlert.

Definition showAlert (title description : string) (type : AlertType) (st : state) : state :=
  st |> setAlertDialog (mkAlert true title description type).

Definition closeAlert (st : state) : state :=
  let prev := alertDialog st in
  st |> setAlertDialog (mkAlert false (title prev) (description prev) (type prev)).

(** ** The listeners *)

Definition on_import_started (st : state) : state * list effect :=
  (st |> setIsImporting true |> setImportProgress None, []).

Definition on_import_file_count (payload : string) (st : state) : state * list effect :=
  let total := JS.parseInt payload in
  (st |> setImportProgress (Some (mkImport 0%float total 0%float)), []).

Definition on_import_progress (payload : string) (st : state) : state * list effect :=
  match three_parts payload with
  | Some (p0, p1, p2) =>
      let processed := JS.parseInt p0 in
      let total := JS.parseInt p1 in
      let percentage := JS.parseInt p2 in
      (st |> setImportProgress (Some (mkImport processed total percentage)), [])
  | None => (st, [])
  end.

Definition on_import_completed (st : state) : state * list effect :=
  (st |> setIsImporting false, []).

Definition on_transfer_started (now : JS.number) (st : state) : state * list effect :=
  (st |> setIsTransporting true |> setIsCompleted false
      |> setTransferStartTime (Some now) |> setTransferProgress None, []).

Definition on_transfer_progress (payload : string) (st : state) : state * list effect :=
  match three_parts payload with
  | Some (p0, p1, p2) =>
      (st |> setTransferProgress (Some (progress_of_parts p0 p1 p2)), [])
  | None => (st, [])
  end.

(** [transferStartTime ? endTime - transferStartTime : 0] *)
Definition duration_of (start : option JS.number) (endTime : JS.number) : JS.number :=
  match start with
  | Some t => if JS.truthy t then (endTime - t)%float else 0%float
  | None => 0%float
  end.

(** [transferStartTime || endTime] *)
Definition startTime_of (start : option JS.number) (endTime : JS.number) : JS.number :=
  match start with
  | Some t => JS.or_num t endTime
  | None => endTime
  end.

(** [if (selectedPath)]: [null] and the empty string are falsy. *)
Definition truthy_path (p : option string) : option string :=
  match p with
  | Some s => if JS.truthy_str s then Some s else None
  | None => None
  end.

(** The listener of [transfer-completed] up to its [await]. *)
Definition on_transfer_completed (endTime : JS.number) (st : state) : state * list effect :=
  let st' := st |> setIsTransporting false |> setIsCompleted true
                |> setTransferProgress None in
  match truthy_path (selectedPath st) with
  | Some path =>
      (st', [Invoke_get_file_size (mkCompletion path (transferStartTime st) endTime)])
  | None => (st', [])
  end.

Definition metadata_of (k : completion) (fileSize : JS.number) : TransferMetadata :=
  mkMetadata (JS.pop_or (JS.split "/" (c_path k)) "Unknown")
             fileSize
             (duration_of (c_startTime k) (c_endTime k))
             (startTime_of (c_startTime k) (c_endTime k))
             (c_endTime k)
             None.

(** ... and after it: the [try] branch and the [catch] branch. *)
Definition on_get_file_size_resolved (k : completion) (fileSize : JS.number)
           (st : state) : state * list effect :=
  (st |> setTransferMetadata (Some (metadata_of k fileSize)), []).

Definition on_get_file_size_rejected (k : completion) (error : string)
           (st : state) : state * list effect :=
  (st |> setTransferMetadata (Some (metadata_of k 0%float)),
   [ConsoleError "Failed to get file size:" (Some error)]).

(** ** The callbacks *)

Definition handleFileSelect (path : string) (st : state) : state * list effect :=
  (st |> setSelectedPath (Some path), []).

Definition startSharing (st : state) : state * list effect :=
  match truthy_path (selectedPath st) with
  | None => (st, [ConsoleWarn "No file selected for sharing" None])
  | Some path => (st |> setIsLoading true, [Invoke_start_sharing path])
  end.

Definition startSharing_resolved (result : string) (st : state) : state * list effect :=
  (st |> setTicket (Some result) |> setIsSharing true |> setIsLoading false, []).

Definition startSharing_rejected (error : string) (st : state) : state * list effect :=
  (st |> showAlert "Sharing Failed" ("Failed to start sharing: " ++ error) "error"
      |> setIsLoading false,
   [ConsoleError "Failed to start sharing:" (Some error)]).

Definition stopSharing (st : state) : state * list effect :=
  (st, [Invoke_stop_sharing]).

Definition stopSharing_resolved (st : state) : state * list effect :=
  (st |> setIsSharing false |> setIsImporting false |> setIsTransporting false
      |> setIsCompleted false |> setTicket None |> setSelectedPath None
      |> setTransferMetadata None |> setTransferProgress None
      |> setImportProgress None |> setTransferStartTime None, []).

Definition stopSharing_rejected (error : string) (st : state) : state * list effect :=
  (st |> showAlert "Stop Sharing Failed" ("Failed to stop sharing: " ++ error) "error",
   [ConsoleError "Failed to stop sharing:" (Some error)]).

Definition copyTicket (st : state) : state * list effect :=
  match ticket st with
  | Some t => if JS.truthy_str t then (st, [Clipboard_writeText t])
              else (st, [ConsoleWarn "No ticket available to copy" None])
  | None => (st, [ConsoleWarn "No ticket available to copy" None])
  end.

Definition copyTicket_resolved (st : state) : state * list effect :=
  (st |> setCopySuccess true, [SetTimeout ClearCopySuccess 2000]).

Definition copyTicket_rejected (error : string) (st : state) : state * list effect :=
  (st |> showAlert "Copy Failed" ("Failed to copy ticket: " ++ error) "error",
   [ConsoleError "Failed to copy ticket:" (Some error)]).

Definition on_timer (cb : timer) (st : state) : state * list effect :=
  match cb with
  | ClearCopySuccess => (st |> setCopySuccess false, [])
  | ClearResumedFrom => (st, [])
  end.

(** One input handled by the hook. *)
Definition step (st : state) (i : input) : state * list effect :=
  match i with
  | Ev_import_started => on_import_started st
  | Ev_import_file_count p => on_import_file_count p st
  | Ev_import_progress p => on_import_progress p st
  | Ev_import_completed => on_import_completed st
  | Ev_transfer_started now => on_transfer_started now st
  | Ev_transfer_progress p => on_transfer_progress p st
  | Ev_transfer_completed now => on_transfer_completed now st
  | Get_file_size_resolved k n => on_get_file_size_resolved k n st
  | Get_file_size_rejected k e => on_get_file_size_rejected k e st
  | Call_handleFileSelect p => handleFileSelect p st
  | Call_startSharing => startSharing st
  | Start_sharing_resolved r => startSharing_resolved r st
  | Start_sharing_rejected e => startSharing_rejected e st
  | Call_stopSharing => stopSharing st
  | Stop_sharing_resolved => stopSharing_resolved st
  | Stop_sharing_rejected e => stopSharing_rejected e st
  | Call_copyTicket => copyTicket st
  | WriteText_resolved => copyTicket_resolved st
  | WriteText_rejected e => copyTicket_rejected e st
  | Timer_fired cb => on_timer cb st
  | Call_showAlert t d ty => (showAlert t d ty st, [])
  | Call_closeAlert => (closeAlert st, [])
  end.

(** The state after a sequence of inputs, and everything done on the way. *)
Fixpoint run (st : state) (ins : list input) : state * list effect :=
  match ins with
  | [] => (st, [])
  | i :: rest =>
      let '(st1, e1) := step st i in
      let '(st2, e2) := run st1 rest in
      (st2, (e1 ++ e2)%list)
  end.

Definition reachable (st : state) : Prop :=
  exists ins, fst (run init ins) = st.

End Sender.

(* ===================================================================== *)
(** * The receiver hook ([useReceiver]) *)
(* ===================================================================== *)

Module Receiver.

Record ExportProgress := mkExport {
  current : JS.number;
  total : JS.number;
  epercentage : JS.number
}.

(** The [useState] cells of [useReceiver], its three [useRef] cells, and
    what the installed listeners hold of the render that installed them.

    - [progressId] stands for the identity of the object in
      [transferProgress]: every [setTransferProgress({...})] stores a new
      object, which the dependency array of the listener effect compares
      by identity.
    - [listenerSavePath] is the variable [savePath] in the closure of the
      installed listeners: the listener effect depends on
      [[transferStartTime, transferProgress]] only, so its listeners keep
      the [savePath] of the last render in which one of the two changed. *)
Record state := mk {
  ticket : string;
  isReceiving : bool;
  isTransporting : bool;
  isExporting : bool;
  isCompleted : bool;
  savePath : string;
  transferMetadata : option TransferMetadata;
  transferProgress : option TransferProgress;
  exportProgress : option ExportProgress;
  resumedFrom : option JS.number;
  transferStartTime : option JS.number;
  fileNames : JSON.value;
  fileNamesRef : JSON.value;
  transferProgressRef : option TransferProgress;
  transferStartTimeRef : option JS.number;
  alertDialog : AlertDialogState;
  progressId : nat;
  listenerSavePath : string
}.

(** The state at mount, after the first render's effects: the refs hold
    their cells, the listeners hold [savePath = ''], and
    [initializeSavePath] has called [downloadDir()]. *)
Definition init : state :=
  mk "" false false false false "" None None None None None
     (JSON.Array []) (JSON.Array []) None None
     (mkAlert false "" "" "info") 0 "".

Definition mount_effects : list effect := [Call_downloadDir].

Definition setTicket v '(mk _ b c d e f g h i j k l m n o p q r) := mk v b c d e f g h i j k l m n o p q r.
Definition setIsReceiving v '(mk a _ c d e f g h i j k l m n o p q r) := mk a v c d e f g h i j k l m n o p q r.
Definition setIsTransporting v '(mk a b _ d e f g h i j k l m n o p q r) := mk a b v d e f g h i j k l m n o p q r.
Definition setIsExporting v '(mk a b c _ e f g h i j k l m n o p q r) := mk a b c v e f g h i j k l m n o p q r.
Definition setIsCompleted v '(mk a b c d _ f g h i j k l m n o p q r) := mk a b c d v f g h i j k l m n o p q r.
Definition setSavePath v '(mk a b c d e _ g h i j k l m n o p q r) := mk a b c d e v g h i j k l m n o p q r.
Definition setTransferMetadata v '(mk a b c d e f _ h i j k l m n o p q r) := mk a b c d e f v h i j k l m n o p q r.
Definition setExportProgress v '(mk a b c d e f g h _ j k l m n o p q r) := mk a b c d e f g h v j k l m n o p q r.
Definition setResumedFrom v '(mk a b c d e f g h i _ k l m n o p q r) := mk a b c d e f g h i v k l m n o p q r.
Definition setTransferStartTime v '(mk a b c d e f g h i j _ l m n o p q r) := mk a b c d e f g h i j v l m n o p q r.
Definition setFileNames v '(mk a b c d e f g h i j k _ m n o p q r) := mk a b c d e f g h i j k v m n o p q r.
Definition setFileNamesRef v '(mk a b c d e f g h i j k l _ n o p q r) := mk a b c d e f g h i j k l v n o p q r.
Definition setTransferProgressRef v '(mk a b c d e f g h i j k l m _ o p q r) := mk a b c d e f g h i j k l m v o p q r.
Definition setTransferStartTimeRef v '(mk a b c d e f g h i j k l m n _ p q r) := mk a b c d e f g h i j k l m n v p q r.
Definition setAlertDialog v '(mk a b c d e f g h i j k l m n o _ q r) := mk a b c d e f g h i j k l m n o v q r.
Definition setListenerSavePath v '(mk a b c d e f g h i j k l m n o p q _) := mk a b c d e f g h i j k l m n o p q v.

(** [setTransferProgress(null)] keeps no object; [setTransferProgress({...})]
    stores a fresh one. *)
Definition setTransferProgress (v : option TransferProgress)
           '(mk a b c d e f g _ i j k l m n o p q r) :=
  mk a b c d e f g v i j k l m n o p
     (match v with Some _ => S q | None => q end) r.

Inductive input :=
| DownloadDir_resolved (downloadsPath : string)
| DownloadDir_rejected (error : string)
| Ev_receive_started (now : JS.number)
| Ev_receive_resumed (payload : string)
| Ev_receive_progress (payload : string)
| Ev_receive_file_names (payload : string)
| Ev_export_started (payload : string)
| Ev_export_progress (payload : string)
| Ev_export_completed
| Ev_receive_completed (now : JS.number) (gc : goatcounter)
| Timer_fired (cb : timer)
| Call_handleTicketChange (newTicket : string)
| Call_handleBrowseFolder
| Open_resolved (selected : option string)
| Open_rejected (error : string)
| Call_handleReceive
| Receive_file_resolved
| Receive_file_rejected (error : string)
| Call_resetForNewTransfer
| Call_showAlert (title description : string) (type : AlertType)
| Call_closeAlert.

Definition showAlert (title description : string) (type : AlertType) (st : state) : state :=
  st |> setAlertDialog (mkAlert true title description type).

Definition closeAlert (st : state) : state :=
  let prev := alertDialog st in
  st |> setAlertDialog (mkAlert false (title prev) (description prev) (type prev)).

(** ** The completion display name *)

Definition fallback_label : string := "Downloaded File".

(** The [displayName] computed by the [receive-completed] listener from
    [fileNamesRef.current], when that is the array of strings it is declared
    to be. *)
Definition displayName (currentFileNames : list string) : string :=
  match currentFileNames with
  | [] => fallback_label
  | [fullPath] => JS.pop_or (JS.split "/" fullPath) fullPath
  | firstPath :: _ =>
      let pathParts := JS.split "/" firstPath in
      let n_files := JS.string_of_nat (List.length currentFileNames) ++ " files" in
      if (1 <? List.length pathParts)%nat
      then match JS.first pathParts with
           | Some seg => JS.or_str seg n_files
           | None => n_files
           end
      else n_files
  end.

Section Listeners.

Variable rt : runtime.

(** ** The display name of whatever [fileNamesRef.current] holds

    The [receive-file-names] listener stores what [JSON.parse] returns
    without looking at it, so the statements of the [receive-completed]
    listener run on any JSON value.  [None]: they throw a TypeError. *)

(** An element read as a path.  Of the elements the statements read
    [currentFileNames[0]] only, and call its [split]. *)
Definition path_of (v : JSON.value) : string :=
  match v with JSON.Str s => s | _ => "" end.

(** [`${currentFileNames.length} files`] for an object's [length]. *)
Definition files_label (len : JSON.value) : option string :=
  match to_string rt len with
  | Some text => Some (text ++ " files")
  | None => None
  end.

(** [currentFileNames.length === 1] for an object's [length]. *)
Definition is_one (len : JSON.value) : bool :=
  match len with JSON.Number x => (x =? 1)%float | _ => false end.

(** On an object: [length] and [0] are its members of these names. *)
Definition displayName_object (members : list (string * JSON.value))
  : option string :=
  match JSON.member "length" members with
  | None => Some fallback_label                 (* undefined > 0 is false *)
  | Some len =>
      match to_number rt len with
      | None => None
      | Some n =>
          if (0 <? n)%float then
            match JSON.member "0" members with
            | Some (JSON.Str path) =>
                if is_one len
                then Some (JS.pop_or (JS.split "/" path) path)
                else
                  let pathParts := JS.split "/" path in
                  if (1 <? List.length pathParts)%nat
                  then match JS.first pathParts with
                       | Some seg => if JS.truthy_str seg then Some seg
                                     else files_label len
                       | None => files_label len
                       end
                  else files_label len
            | _ => None                         (* no [split] to call *)
            end
          else Some fallback_label
      end
  end.

Definition displayName_of (currentFileNames : JSON.value) : option string :=
  match currentFileNames with
  | JSON.Null => None                           (* null has no [length] *)
  | JSON.Bool _ | JSON.Number _ =>
      Some fallback_label                       (* [length] is undefined *)
  | JSON.Str s =>
      (* [length] counts UTF-16 units and [s[0]] is the first unit: the
         whole string when there is one unit; of several units the first
         gives one part, or two with an empty first part when it is '/' *)
      let n := JS.utf16_length s in
      Some (if (n =? 0)%nat then fallback_label
            else if (n =? 1)%nat then JS.pop_or (JS.split "/" s) s
            else JS.string_of_nat n ++ " files")
  | JSON.Array items =>
      match items with
      | [] => Some fallback_label
      | JSON.Str _ :: _ => Some (displayName (map path_of items))
      | _ :: _ => None                          (* no [split] to call *)
      end
  | JSON.Object members => displayName_object members
  end.

Definition on_downloadDir_resolved (downloadsPath : string) (st : state)
  : state * list effect :=
  (st |> setSavePath downloadsPath, []).

Definition on_downloadDir_rejected (error : string) (st : state)
  : state * list effect :=
  (st |> setSavePath "",
   [ConsoleError "Failed to get downloads directory:" (Some error)]).

Definition on_receive_started (now : JS.number) (st : state) : state * list effect :=
  (st |> setIsTransporting true |> setIsCompleted false
      |> setTransferStartTime (Some now) |> setTransferProgress None, []).

Definition on_receive_resumed (payload : string) (st : state) : state * list effect :=
  let localSize := JS.parseInt payload in
  (st |> setResumedFrom (Some localSize), [SetTimeout ClearResumedFrom 5000]).

Definition on_receive_progress (payload : string) (st : state) : state * list effect :=
  match three_parts payload with
  | Some (p0, p1, p2) =>
      (st |> setTransferProgress (Some (progress_of_parts p0 p1 p2)), [])
  | None => (st, [])
  end.

(** [JSON.parse(payload) as string[]]: the value is stored as parsed. *)
Definition on_receive_file_names (payload : string) (st : state) : state * list effect :=
  match JSON_parse rt payload with
  | Some names => (st |> setFileNames names |> setFileNamesRef names, [])
  | None => (st, [ConsoleError "Failed to parse file names event:" None])
  end.

Definition on_export_started (payload : string) (st : state) : state * list effect :=
  let total := JS.parseInt payload in
  (st |> setIsExporting true
      |> setExportProgress (Some (mkExport 0%float total 0%float)), []).

Definition on_export_progress (payload : string) (st : state) : state * list effect :=
  match three_parts payload with
  | Some (p0, p1, p2) =>
      let current := JS.parseInt p0 in
      let total := JS.parseInt p1 in
      let percentage := JS.parseInt p2 in
      (st |> setExportProgress (Some (mkExport current total percentage)), [])
  | None => (st, [])
  end.

Definition on_export_completed (st : state) : state * list effect :=
  (st |> setIsExporting false |> setExportProgress None, []).

(** [transferStartTimeRef.current ? endTime - transferStartTimeRef.current : 0] *)
Definition duration_of (start : option JS.number) (endTime : JS.number) : JS.number :=
  match start with
  | Some t => if JS.truthy t then (endTime - t)%float else 0%float
  | None => 0%float
  end.

(** [transferStartTimeRef.current || endTime] *)
Definition startTime_of (start : option JS.number) (endTime : JS.number) : JS.number :=
  match start with
  | Some t => JS.or_num t endTime
  | None => endTime
  end.

(** [transferProgressRef.current?.totalBytes || 0] *)
Definition fileSize_of (snapshot : option TransferProgress) : JS.number :=
  match snapshot with
  | Some p => JS.or_num (totalBytes p) 0%float
  | None => 0%float
  end.

(** The object the [receive-completed] listener builds. *)
Definition metadata_of (displayName : string) (endTime : JS.number) (st : state)
  : TransferMetadata :=
  mkMetadata displayName
             (fileSize_of (transferProgressRef st))
             (duration_of (transferStartTimeRef st) endTime)
             (startTime_of (transferStartTimeRef st) endTime)
             endTime
             (Some (listenerSavePath st)).

(** The listener of [receive-completed].  It is an [async] function: when
    the display name cannot be computed it has set its three flags and
    rejects, before the metadata and the analytics call. *)
Definition on_receive_completed (endTime : JS.number) (gc : goatcounter)
           (st : state) : state * list effect :=
  let st' := st |> setIsTransporting false |> setIsCompleted true
                |> setTransferProgress None in
  match displayName_of (fileNamesRef st) with
  | Some displayName =>
      let metadata := metadata_of displayName endTime st in
      (st' |> setTransferMetadata (Some metadata),
       trackDataTransfer gc (fileSize metadata))
  | None => (st', [Uncaught_in_promise "TypeError"])
  end.

Definition on_timer (cb : timer) (st : state) : state * list effect :=
  match cb with
  | ClearResumedFrom => (st |> setResumedFrom None, [])
  | ClearCopySuccess => (st, [])
  end.

(** ** The callbacks *)

Definition handleTicketChange (newTicket : string) (st : state) : state * list effect :=
  (st |> setTicket newTicket, []).

Definition handleBrowseFolder (st : state) : state * list effect :=
  (st, [Call_open_dialog]).

Definition handleBrowseFolder_resolved (selected : option string) (st : state)
  : state * list effect :=
  match selected with
  | Some dir => if JS.truthy_str dir then (st |> setSavePath dir, []) else (st, [])
  | None => (st, [])
  end.

Definition handleBrowseFolder_rejected (error : string) (st : state)
  : state * list effect :=
  (st |> showAlert "Folder Dialog Failed"
                   ("Failed to open folder dialog: " ++ error) "error",
   [ConsoleError "Failed to open folder dialog:" (Some error)]).

(** [handleReceive] up to its [await]. *)
Definition handleReceive (st : state) : state * list effect :=
  if JS.truthy_str (JS.trim (ticket st)) then
    (st |> setIsReceiving true |> setIsTransporting false
        |> setIsExporting false |> setIsCompleted false
        |> setTransferMetadata None |> setTransferProgress None
        |> setExportProgress None |> setResumedFrom None
        |> setTransferStartTime None,
     [Invoke_receive_file (JS.trim (ticket st)) (savePath st)])
  else (st, [ConsoleWarn "No ticket provided for receive" None]).

Definition handleReceive_resolved (st : state) : state * list effect :=
  (st, []).

(** The [catch] block of [handleReceive]. *)
Definition handleReceive_rejected (error : string) (st : state) : state * list effect :=
  (st |> showAlert "Receive Failed" ("Failed to receive file: " ++ error) "error"
      |> setIsReceiving false |> setIsTransporting false
      |> setIsExporting false |> setIsCompleted false,
   [ConsoleError "Failed to receive file:" (Some error)]).

Definition resetForNewTransfer (st : state) : state * list effect :=
  (st |> setIsReceiving false |> setIsTransporting false
      |> setIsExporting false |> setIsCompleted false
      |> setTicket "" |> setTransferMetadata None |> setTransferProgress None
      |> setExportProgress None |> setResumedFrom None
      |> setTransferStartTime None |> setFileNames (JSON.Array []), []).

(** What a listener or callback does with one input. *)
Definition handle (st : state) (i : input) : state * list effect :=
  match i with
  | DownloadDir_resolved p => on_downloadDir_resolved p st
  | DownloadDir_rejected e => on_downloadDir_rejected e st
  | Ev_receive_started now => on_receive_started now st
  | Ev_receive_resumed p => on_receive_resumed p st
  | Ev_receive_progress p => on_receive_progress p st
  | Ev_receive_file_names p => on_receive_file_names p st
  | Ev_export_started p => on_export_started p st
  | Ev_export_progress p => on_export_progress p st
  | Ev_export_completed => on_export_completed st
  | Ev_receive_completed now gc => on_receive_completed now gc st
  | Timer_fired cb => on_timer cb st
  | Call_handleTicketChange t => handleTicketChange t st
  | Call_handleBrowseFolder => handleBrowseFolder st
  | Open_resolved sel => handleBrowseFolder_resolved sel st
  | Open_rejected e => handleBrowseFolder_rejected e st
  | Call_handleReceive => handleReceive st
  | Receive_file_resolved => handleReceive_resolved st
  | Receive_file_rejected e => handleReceive_rejected e st
  | Call_resetForNewTransfer => resetForNewTransfer st
  | Call_showAlert t d ty => (showAlert t d ty st, [])
  | Call_closeAlert => (closeAlert st, [])
  end.

(** ** The render that follows *)

(** [Object.is] on [number | null]. *)
Definition same_time (a b : option JS.number) : bool :=
  match a, b with
  | None, None => true
  | Some x, Some y => PrimFloat.Leibniz.eqb x y
  | _, _ => false
  end.

(** [Object.is] on the [transferProgress] cell of two renders. *)
Definition same_progress (old new : state) : bool :=
  match transferProgress old, transferProgress new with
  | None, None => true
  | Some _, Some _ => Nat.eqb (progressId old) (progressId new)
  | _, _ => false
  end.

(** Did [[transferStartTime, transferProgress]] change? *)
Definition deps_changed (old new : state) : bool :=
  negb (same_time (transferStartTime old) (transferStartTime new)
        && same_progress old new).

(** The effects of the render: the three ref-mirroring effects, and the
    listener effect, which re-installs the listeners (with this render's
    [savePath]) when its dependencies changed. *)
Definition render (old new : state) : state :=
  let new' := new |> setFileNamesRef (fileNames new)
                  |> setTransferProgressRef (transferProgress new)
                  |> setTransferStartTimeRef (transferStartTime new) in
  if deps_changed old new
  then new' |> setListenerSavePath (savePath new)
  else new'.

(** One input handled by the hook, and the render it causes. *)
Definition step (st : state) (i : input) : state * list effect :=
  let '(st', effects) := handle st i in
  (render st st', effects).

Fixpoint run (st : state) (ins : list input) : state * list effect :=
  match ins with
  | [] => (st, [])
  | i :: rest =>
      let '(st1, e1) := step st i in
      let '(st2, e2) := run st1 rest in
      (st2, (e1 ++ e2)%list)
  end.

Definition reachable (st : state) : Prop :=
  exists ins, fst (run init ins) = st.

(** ** Timers *)

(** The hook with the clock (in ms) and the pending [setTimeout]
    callbacks, each with the time at which it is due, earliest first. *)
Record world := mkWorld {
  hook : state;
  clock : Z;
  timers : list (Z * timer)
}.

Definition boot : world := mkWorld init 0 [].

Fixpoint schedule (due : Z) (cb : timer) (ts : list (Z * timer)) : list (Z * timer) :=
  match ts with
  | [] => [(due, cb)]
  | (d, c) :: rest =>
      if due <? d then (due, cb) :: ts else (d, c) :: schedule due cb rest
  end.

Fixpoint schedule_all (now : Z) (effects : list effect) (ts : list (Z * timer))
  : list (Z * timer) :=
  match effects with
  | [] => ts
  | SetTimeout cb ms :: rest => schedule_all now rest (schedule (now + ms) cb ts)
  | _ :: rest => schedule_all now rest ts
  end.

(** Runs the callbacks due at [now], earliest first. *)
Fixpoint fire_due (now : Z) (ts : list (Z * timer)) (st : state)
  : state * list (Z * timer) :=
  match ts with
  | [] => (st, [])
  | (d, cb) :: rest =>
      if d <=? now
      then fire_due now rest (fst (step st (Timer_fired cb)))
      else (st, ts)
  end.

(** Time passes until [now]. *)
Definition advance (now : Z) (w : world) : world :=
  let '(st, ts) := fire_due now (timers w) (hook w) in
  mkWorld st (Z.max (clock w) now) ts.

(** An input arrives at [now]. *)
Definition deliver (now : Z) (i : input) (w : world) : world :=
  let w1 := advance now w in
  let '(st, effects) := step (hook w1) i in
  mkWorld st (clock w1) (schedule_all (clock w1) effects (timers w1)).

Fixpoint play (w : world) (tl : list (Z * input)) : world :=
  match tl with
  | [] => w
  | (t, i) :: rest => play (deliver t i w) rest
  end.

End Listeners.

End Receiver.

(* ===================================================================== *)
(** * The receiving card ([ReceivingActiveCard]) *)
(* ===================================================================== *)

Module ReceivingActiveCard.

Definition getStatusColor (isCompleted isExporting isTransporting : bool) : string :=
  if isCompleted then "rgb(45, 120, 220)"
  else if isExporting then "rgba(255, 193, 7, 0.8)"
  else if isTransporting then "rgba(37, 211, 101, 0.687)"
  else "#B7B7B7".

Definition getStatusText (isCompleted isExporting isTransporting : bool) : string :=
  if isCompleted then "Download completed"
  else if isExporting then "Saving files..."
  else if isTransporting then "Downloading in progress"
  else "Connecting to sender".

(** What React draws for a child [{a && b && <div>...</div>}]: nothing for
    [null], [undefined] and [false], the text of a number, or the element. *)
Inductive child :=
| Nothing
| NumberText (x : JS.number)
| ResumeNotice (resumedFrom : JS.number).

(** [{resumedFrom && resumedFrom > 0 && (<div>... {formatBytes(resumedFrom)}
    ...</div>)}] *)
Definition resume_child (resumedFrom : option JS.number) : child :=
  match resumedFrom with
  | None => Nothing
  | Some x =>
      if JS.truthy x
      then if (0 <? x)%float then ResumeNotice x else Nothing
      else NumberText x
  end.

(** [isExporting && exportProgress && (...)]: is the export section drawn? *)
Definition export_shown (isExporting : bool)
           (exportProgress : option Receiver.ExportProgress) : bool :=
  isExporting && match exportProgress with Some _ => true | None => false end.

(** The body of the [map] callback of the 30 bars: the height, in percent,
    of the filled portion of bar [index]. *)
Definition fillPercentage (percentage index : JS.number) : JS.number :=
  let filledBars := JS.Math_floor (percentage / 100 * 30)%float in
  let isFilled := (index <? filledBars)%float in
  let isPartiallyFilled :=
    ((index =? filledBars)%float
     && (0 <? JS.rem percentage (100 / 30)%float)%float)%bool in
  if isPartiallyFilled then
    let barProgress := (JS.rem percentage (100 / 30) / (100 / 30))%float in
    (barProgress * 100)%float
  else if negb isFilled then 0%float
  else 100%float.

(** [Array.from({ length: 30 }).map((_, index) => ...)] *)
Definition bars (percentage : JS.number) : list JS.number :=
  map (fun index => fillPercentage percentage (JS.of_Z false (Z.of_nat index)))
      (seq 0 30).

End ReceivingActiveCard.

(* ===================================================================== *)
(** * The drop zone ([Dropzone]) *)
(* ===================================================================== *)

Module Dropzone.

(** The props of the component.  [pathType] is compared with ['directory']
    and ['file'] only. *)
Record props := mkProps {
  isDragActive : bool;
  selectedPath : option string;
  pathType : option string;
  isLoading : bool
}.

(** The two style fields that [getDropzoneStyles] ever overrides. *)
Record styles := mkStyles {
  borderColor : string;
  backgroundColor : string
}.

Definition baseStyles : styles :=
  mkStyles "rgba(255, 255, 255, 0.2)" "var(--app-main-view)".

(** [selectedPath] as a condition: [null] and the empty string are falsy. *)
Definition selected (p : props) : bool :=
  match selectedPath p with Some s => JS.truthy_str s | None => false end.

Definition getDropzoneStyles (p : props) : styles :=
  if isDragActive p
  then mkStyles "var(--app-accent)" "rgba(45, 120, 220, 0.1)"
  else if selected p && negb (isLoading p)
  then mkStyles (borderColor baseStyles) (backgroundColor baseStyles)
  else baseStyles.

Definition getStatusText (p : props) : string :=
  if isLoading p then "Preparing for transport..."
  else if isDragActive p then "Drop files or folders here"
  else if selected p then
    match pathType p with
    | Some "directory" => "Folder selected"
    | Some "file" => "File selected"
    | _ => "Item selected"
    end
  else "Drag & drop".

(** What [getSubText] returns: a sentence, or the element showing the path. *)
Inductive subText := Sentence (text : string) | PathLine (path : string).

Definition getSubText (p : props) : subText :=
  if isLoading p
  then Sentence "Please wait while we process your files for sharing..."
  else match selectedPath p with
       | Some s => if JS.truthy_str s then PathLine s
                   else Sentence "or browse to select files or folders"
       | None => Sentence "or browse to select files or folders"
       end.

(** The icon: the spinner, the check mark, or the upload arrow with its
    colour. *)
Inductive icon := Loader2 | CheckCircle | Upload (color : string).

Definition icon_drawn (p : props) : icon :=
  if isLoading p then Loader2
  else if selected p then CheckCircle
  else Upload (if isDragActive p then "var(--app-accent-light)"
               else "rgba(255, 255, 255, 0.6)").

End Dropzone.

(** ** A runtime for the examples

    [JSON.parse] belongs to the JavaScript runtime and is a parameter of the
    receiver's listeners.  The examples below run them with a reader of the
    literal [null] and of arrays of plain strings (no escape sequences),
    which answers [None] where [JSON.parse] throws on the payloads used
    here. *)

Definition dquote : ascii := ascii_of_nat 34.

(** JSON white space: space, tab, line feed, carriage return. *)
Definition json_space (c : ascii) : bool :=
  let n := nat_of_ascii c in
  (Nat.eqb n 32 || Nat.eqb n 9 || Nat.eqb n 10 || Nat.eqb n 13)%bool.

Inductive json_mode :=
| JBeforeArray | JFirstItem | JInString (acc : string) | JAfterItem
| JNextItem | JAfterArray.

Fixpoint json_array (mode : json_mode) (items : list string) (s : string)
  : option (list string) :=
  match s with
  | EmptyString =>
      match mode with JAfterArray => Some (rev items) | _ => None end
  | String c rest =>
      match mode with
      | JInString acc =>
          if Ascii.eqb c dquote then json_array JAfterItem ((acc : string) :: items) rest
          else if Ascii.eqb c "\" then None
          else if (nat_of_ascii c <? 32)%nat then None
          else json_array (JInString (acc ++ String c "")) items rest
      | _ =>
          if json_space c then json_array mode items rest
          else
            match mode with
            | JBeforeArray =>
                if Ascii.eqb c "[" then json_array JFirstItem items rest else None
            | JFirstItem =>
                if Ascii.eqb c "]" then json_array JAfterArray items rest
                else if Ascii.eqb c dquote then json_array (JInString "") items rest
                else None
            | JNextItem =>
                if Ascii.eqb c dquote then json_array (JInString "") items rest else None
            | JAfterItem =>
                if Ascii.eqb c "," then json_array JNextItem items rest
                else if Ascii.eqb c "]" then json_array JAfterArray items rest
                else None
            | _ => None
            end
      end
  end.

Definition json_string_array (payload : string) : option (list string) :=
  json_array JBeforeArray [] payload.

Definition example_parse (payload : string) : option JSON.value :=
  if String.eqb payload "null" then Some JSON.Null
  else match json_string_array payload with
       | Some names => Some (JSON.Array (map JSON.Str names))
       | None => None
       end.

(** The examples convert no string, array or object to a number, and no
    number, array or object to a string: on the values of the examples the
    two conversions of this runtime are never called. *)
Definition example_runtime : runtime :=
  mkRuntime example_parse (fun _ => None) (fun _ => None).

(* ===================================================================== *)
(** * Notions used to state the properties *)
(* ===================================================================== *)

(** [no_sep sep s]: [sep] does not occur in [s]. *)
Fixpoint no_sep (sep : ascii) (s : string) : bool :=
  match s with
  | EmptyString => true
  | String c rest => negb (Ascii.eqb c sep) && no_sep sep rest
  end.

(** The refs hold what their state cells hold. *)
Definition refs_mirror (st : Receiver.state) : Prop :=
  Receiver.fileNamesRef st = Receiver.fileNames st /\
  Receiver.transferProgressRef st = Receiver.transferProgress st /\
  Receiver.transferStartTimeRef st = Receiver.transferStartTime st.

(** The receiver is in none of its phases. *)
Definition receiver_idle (st : Receiver.state) : Prop :=
  Receiver.isReceiving st = false /\ Receiver.isTransporting st = false /\
  Receiver.isExporting st = false /\ Receiver.isCompleted st = false.

(** Progress, metadata, ticket and file-name fields at their initial values. *)
Definition sender_fields_initial (st : Sender.state) : Prop :=
  Sender.transferProgress st = None /\ Sender.importProgress st = None /\
  Sender.transferMetadata st = None /\ Sender.ticket st = None /\
  Sender.selectedPath st = None.

Definition receiver_fields_initial (st : Receiver.state) : Prop :=
  Receiver.transferProgress st = None /\ Receiver.exportProgress st = None /\
  Receiver.transferMetadata st = None /\ Receiver.ticket st = "" /\
  Receiver.fileNames st = JSON.Array [] /\
  Receiver.fileNamesRef st = JSON.Array [].

(** The states in which a snapshot is already held. *)
Definition sender_mid_transfer : Sender.state :=
  fst (Sender.run Sender.init
         [Sender.Call_handleFileSelect "/tmp/video.mp4";
          Sender.Ev_transfer_started 1000%float;
          Sender.Ev_transfer_progress "1000000:2000000:500000"]).

Definition receiver_mid_transfer : Receiver.state :=
  fst (Receiver.run example_runtime Receiver.init
         [Receiver.Call_handleTicketChange "T1";
          Receiver.Call_handleReceive;
          Receiver.Ev_receive_started 1000%float;
          Receiver.Ev_receive_progress "1500000:2000000:750000"]).

(** ** The display name as the specification words it

    Empty: the fallback label; one path: its last segment; several paths
    that all share a common first segment: that segment; otherwise
    ["{n} files"]. *)
Definition first_segment (path : string) : string :=
  match JS.split "/" path with seg :: _ => seg | [] => "" end.

Definition last_segment (path : string) : string :=
  last (JS.split "/" path) "".

Definition displayName_spec (paths : list string) : string :=
  match paths with
  | [] => Receiver.fallback_label
  | [p] => last_segment p
  | p :: rest =>
      if forallb (fun q => String.eqb (first_segment q) (first_segment p)) rest
      then first_segment p
      else JS.string_of_nat (List.length paths) ++ " files"
  end.

(** ["{n} files"] *)
Definition n_files (paths : list string) : string :=
  JS.string_of_nat (List.length paths) ++ " files".

(** ** Two resume events three seconds apart *)
Definition two_resumes : Receiver.world :=
  Receiver.play example_runtime Receiver.boot
    [(0, Receiver.Ev_receive_resumed "100");
     (3000, Receiver.Ev_receive_resumed "200")].

(** The resume indicator at time [t]. *)
Definition indicator_at (rt : runtime)
           (t : Z) (w : Receiver.world) : option JS.number :=
  Receiver.resumedFrom (Receiver.hook (Receiver.advance rt t w)).

(** ** Engine events, as opposed to callbacks, promises and timers *)
Definition sender_is_event (i : Sender.input) : bool :=
  match i with
  | Sender.Ev_import_started | Sender.Ev_import_file_count _
  | Sender.Ev_import_progress _ | Sender.Ev_import_completed
  | Sender.Ev_transfer_started _ | Sender.Ev_transfer_progress _
  | Sender.Ev_transfer_completed _ => true
  | _ => false
  end.

Definition receiver_is_event (i : Receiver.input) : bool :=
  match i with
  | Receiver.Ev_receive_started _ | Receiver.Ev_receive_resumed _
  | Receiver.Ev_receive_progress _ | Receiver.Ev_receive_file_names _
  | Receiver.Ev_export_started _ | Receiver.Ev_export_progress _
  | Receiver.Ev_export_completed | Receiver.Ev_receive_completed _ _ => true
  | _ => false
  end.


(** ** A whole sender session (scenario A of the specification) *)
Definition sender_session : list Sender.input :=
  [Sender.Call_handleFileSelect "/tmp/video.mp4";
   Sender.Call_startSharing;
   Sender.Start_sharing_resolved "T1";
   Sender.Ev_transfer_started 1000%float;
   Sender.Ev_transfer_progress "1000000:2000000:500000";
   Sender.Ev_transfer_completed 3000%float;
   Sender.Get_file_size_resolved
     (mkCompletion "/tmp/video.mp4" (Some 1000%float) 3000%float) 2000000%float].

(** ** A whole receiver session (scenario B of the specification) *)
Definition receiver_session : list Receiver.input :=
  [Receiver.DownloadDir_resolved "/home/user/Downloads";
   Receiver.Call_handleTicketChange "T1";
   Receiver.Call_handleReceive;
   Receiver.Ev_receive_started 1000%float;
   Receiver.Ev_receive_resumed "500000";
   Receiver.Ev_receive_progress "1500000:2000000:750000";
   Receiver.Ev_receive_completed 4000%float GcCounts].

(** ** The receiver while files are being exported, and a change of folder *)
Definition receiver_exporting : list Receiver.input :=
  [Receiver.DownloadDir_resolved "/home/user/Downloads";
   Receiver.Call_handleTicketChange "T1";
   Receiver.Call_handleReceive;
   Receiver.Ev_receive_started 1000%float;
   Receiver.Ev_receive_progress "2000000:2000000:750000";
   Receiver.Ev_export_started "3"].

Definition receiver_folder_changed : list Receiver.input :=
  (receiver_exporting ++
   [Receiver.Call_handleBrowseFolder;
    Receiver.Open_resolved (Some "/mnt/usb");
    Receiver.Ev_export_completed;
    Receiver.Ev_receive_completed 4000%float GcCounts])%list.


(** ** A receive whose file names arrive as the JSON literal [null] *)
Definition receiver_null_names : list Receiver.input :=
  [Receiver.DownloadDir_resolved "/home/user/Downloads";
   Receiver.Call_handleTicketChange "T1";
   Receiver.Call_handleReceive;
   Receiver.Ev_receive_started 1000%float;
   Receiver.Ev_receive_file_names "null";
   Receiver.Ev_receive_progress "2000000:2000000:750000";
   Receiver.Ev_receive_completed 4000%float GcCounts].

(** ** A ticket typed with blanks around it *)
Definition receiver_with_ticket : Receiver.state :=
  fst (Receiver.run example_runtime Receiver.init
         [Receiver.DownloadDir_resolved "/home/user/Downloads";
          Receiver.Call_handleTicketChange "  T1 "]).

(** ** A sender transfer without a selected path *)
Definition sender_no_path : Sender.state :=
  fst (Sender.run Sender.init
         [Sender.Ev_transfer_started 1000%float;
          Sender.Ev_transfer_progress "1000000:2000000:500000"]).

(** ** A sender whose [stop_sharing] command fails mid-transfer *)
Definition sender_failed_stop : list Sender.input :=
  [Sender.Call_handleFileSelect "/tmp/video.mp4";
   Sender.Call_startSharing;
   Sender.Start_sharing_resolved "T1";
   Sender.Ev_transfer_started 1000%float;
   Sender.Ev_transfer_progress "1000000:2000000:500000";
   Sender.Call_stopSharing;
   Sender.Stop_sharing_rejected "engine unreachable"].

(** ** The inputs that set [savePath] *)
Definition sets_save_path (i : Receiver.input) : bool :=
  match i with
  | Receiver.DownloadDir_resolved _ | Receiver.DownloadDir_rejected _
  | Receiver.Open_resolved _ => true
  | _ => false
  end.

(** ** Pieces put back together: [parts.join(sep)] *)
Fixpoint unsplit (sep : ascii) (parts : list string) : string :=
  match parts with
  | [] => ""
  | [p] => p
  | p :: rest => p ++ String sep (unsplit sep rest)
  end.

(** The payload [a:b:c]. *)
Definition colon3 (a b c : string) : string := a ++ ":" ++ b ++ ":" ++ c.

(** The number nearest to a natural number. *)
Definition number_of_nat (n : nat) : JS.number := JS.of_Z false (Z.of_nat n).

(** The integer a number is, when it is one. *)
Definition integer_value (x : JS.number) : option Z :=
  match Prim2SF x with
  | S754_zero _ => Some 0
  | S754_finite s m e =>
      let v := if s then Z.neg m else Z.pos m in
      if 0 <=? e then Some (v * 2 ^ e)
      else if v mod 2 ^ (- e) =? 0 then Some (v / 2 ^ (- e)) else None
  | _ => None
  end.

(** ** What holds in every state a hook can reach *)
Definition sender_consistent (st : Sender.state) : Prop :=
  (Sender.isSharing st = true <-> Sender.ticket st <> None) /\
  (Sender.isTransporting st && Sender.isCompleted st = false) /\
  (Sender.isTransporting st = true -> Sender.transferStartTime st <> None).

Definition receiver_consistent (st : Receiver.state) : Prop :=
  (Receiver.isTransporting st && Receiver.isCompleted st = false) /\
  (Receiver.isTransporting st = true -> Receiver.transferStartTime st <> None) /\
  (Receiver.isExporting st = true -> Receiver.exportProgress st <> None) /\
  refs_mirror st.

(** ** Classes of inputs *)
Definition sets_file_names (i : Receiver.input) : bool :=
  match i with
  | Receiver.Ev_receive_file_names _ | Receiver.Call_resetForNewTransfer => true
  | _ => false
  end.

Definition sender_is_import_event (i : Sender.input) : bool :=
  match i with
  | Sender.Ev_import_started | Sender.Ev_import_file_count _
  | Sender.Ev_import_progress _ | Sender.Ev_import_completed => true
  | _ => false
  end.

(** The transfer events of the sender and the settling of [get_file_size]. *)
Definition sender_is_transfer_input (i : Sender.input) : bool :=
  match i with
  | Sender.Ev_transfer_started _ | Sender.Ev_transfer_progress _
  | Sender.Ev_transfer_completed _
  | Sender.Get_file_size_resolved _ _ | Sender.Get_file_size_rejected _ _ => true
  | _ => false
  end.

Definition receiver_is_export_event (i : Receiver.input) : bool :=
  match i with
  | Receiver.Ev_export_started _ | Receiver.Ev_export_progress _
  | Receiver.Ev_export_completed => true
  | _ => false
  end.

Definition receiver_is_transport_event (i : Receiver.input) : bool :=
  match i with
  | Receiver.Ev_receive_started _ | Receiver.Ev_receive_resumed _
  | Receiver.Ev_receive_progress _ | Receiver.Ev_receive_completed _ _ => true
  | _ => false
  end.

(** ** The inputs that close the alert *)
Definition sender_is_closeAlert (i : Sender.input) : bool :=
  match i with Sender.Call_closeAlert => true | _ => false end.

Definition receiver_is_closeAlert (i : Receiver.input) : bool :=
  match i with Receiver.Call_closeAlert => true | _ => false end.

(** ** The inputs that can change what the alert shows *)
Definition sender_is_alert_input (i : Sender.input) : bool :=
  match i with
  | Sender.Start_sharing_rejected _ | Sender.Stop_sharing_rejected _
  | Sender.WriteText_rejected _ | Sender.Call_showAlert _ _ _
  | Sender.Call_closeAlert => true
  | _ => false
  end.

Definition receiver_is_alert_input (i : Receiver.input) : bool :=
  match i with
  | Receiver.Open_rejected _ | Receiver.Receive_file_rejected _
  | Receiver.Call_showAlert _ _ _ | Receiver.Call_closeAlert => true
  | _ => false
  end.

(** ** White space at the ends of a string *)

(** The string begins with a white space code point. *)
Definition starts_with_space (s : string) : bool :=
  match JS.skip_space s with Some _ => true | None => false end.

(** The string ends with a white space code point. *)
Fixpoint ends_with_space (s : string) : bool :=
  match s with
  | EmptyString => false
  | String _ rest =>
      match JS.skip_space s with
      | Some EmptyString => true
      | _ => ends_with_space rest
      end
  end.

(** U+00A0, the no-break space, and U+3000, the ideographic space. *)
Definition nbsp : string :=
  String (ascii_of_nat 194) (String (ascii_of_nat 160) "").

Definition ideographic_space : string :=
  String (ascii_of_nat 227) (String (ascii_of_nat 128) (String (ascii_of_nat 128) "")).

(** ** The sender with the clock and its pending timers

    As for the receiver: the clock in ms and the pending [setTimeout]
    callbacks with the time at which each is due, earliest first. *)
Record sender_world := mkSenderWorld {
  s_hook : Sender.state;
  s_clock : Z;
  s_timers : list (Z * timer)
}.

(** Runs the callbacks due at [now], earliest first. *)
Fixpoint sender_fire_due (now : Z) (ts : list (Z * timer)) (st : Sender.state)
  : Sender.state * list (Z * timer) :=
  match ts with
  | [] => (st, [])
  | (d, cb) :: rest =>
      if d <=? now
      then sender_fire_due now rest (fst (Sender.step st (Sender.Timer_fired cb)))
      else (st, ts)
  end.

(** Time passes until [now]. *)
Definition sender_advance (now : Z) (w : sender_world) : sender_world :=
  let '(st, ts) := sender_fire_due now (s_timers w) (s_hook w) in
  mkSenderWorld st (Z.max (s_clock w) now) ts.

(** An input arrives at [now]. *)
Definition sender_deliver (now : Z) (i : Sender.input) (w : sender_world)
  : sender_world :=
  let w1 := sender_advance now w in
  let '(st, effects) := Sender.step (s_hook w1) i in
  mkSenderWorld st (s_clock w1)
    (Receiver.schedule_all (s_clock w1) effects (s_timers w1)).

(** The copy mark at time [t]. *)
Definition copied_at (t : Z) (w : sender_world) : bool :=
  Sender.copySuccess (s_hook (sender_advance t w)).

(** ** Pending timers, each due after [lo] and not before the one before it *)
Fixpoint ascending (lo : Z) (ts : list (Z * timer)) : Prop :=
  match ts with
  | [] => True
  | (d, _) :: rest => lo <= d /\ ascending d rest
  end.

(** The pending timers of the receiver: in order, due after the clock and
    within 5000 ms, all clearing the resume indicator, and at least one
    while the indicator is set. *)
Definition receiver_timers_ok (w : Receiver.world) : Prop :=
  ascending (Receiver.clock w + 1) (Receiver.timers w) /\
  Forall (fun dc => fst dc <= Receiver.clock w + 5000 /\ snd dc = ClearResumedFrom)
         (Receiver.timers w) /\
  (Receiver.timers w = [] -> Receiver.resumedFrom (Receiver.hook w) = None).

(** The sender at mount, and a timeline of inputs. *)
Definition sender_boot : sender_world := mkSenderWorld Sender.init 0 [].

Fixpoint sender_play (w : sender_world) (tl : list (Z * Sender.input)) : sender_world :=
  match tl with
  | [] => w
  | (t, i) :: rest => sender_play (sender_deliver t i w) rest
  end.

(** The pending timers of the sender: in order, due after the clock and
    within 2000 ms, all clearing the copy mark, and at least one while the
    mark is set. *)
Definition sender_timers_ok (w : sender_world) : Prop :=
  ascending (s_clock w + 1) (s_timers w) /\
  Forall (fun dc => fst dc <= s_clock w + 2000 /\ snd dc = ClearCopySuccess)
         (s_timers w) /\
  (s_timers w = [] -> Sender.copySuccess (s_hook w) = false).

(** ** When the receiver's listener effect runs again

    [reinstalls st i]: handling [i] in [st] changes one of the two
    dependencies [[transferStartTime, transferProgress]], so that the next
    render removes the eight listeners and installs them again. *)
Definition reinstalls (rt : runtime)
           (st : Receiver.state) (i : Receiver.input) : bool :=
  Receiver.deps_changed st (fst (Receiver.handle rt st i)).

(** The inputs whose handlers write neither dependency. *)
Definition receiver_keeps_deps (i : Receiver.input) : bool :=
  match i with
  | Receiver.Ev_receive_started _ | Receiver.Ev_receive_progress _
  | Receiver.Ev_receive_completed _ _ | Receiver.Call_handleReceive
  | Receiver.Call_resetForNewTransfer => false
  | _ => true
  end.

(** ** The [DragDrop] component around the drop zone *)
Module DragDrop.

(** The props handed to [Dropzone]: [selectedPath || null] and
    [isLoading || false] from the component's own (optional) props,
    [isDragActive] and [pathType] from [useDragDrop]. *)
Definition dropzone_props (isDragActive : bool) (pathType : option string)
           (selectedPath : option string) (isLoading : option bool)
  : Dropzone.props :=
  Dropzone.mkProps isDragActive
    (match selectedPath with
     | Some s => if JS.truthy_str s then Some s else None
     | None => None
     end)
    pathType
    (match isLoading with Some b => b | None => false end).

(** [{!selectedPath && (<BrowseButtons ... />)}] *)
Definition browse_buttons_shown (selectedPath : option string) : bool :=
  negb (match selectedPath with Some s => JS.truthy_str s | None => false end).

(** The effect on [selectedPath]: the path [checkPathType] is called with. *)
Definition path_checked (selectedPath : option string) : option string :=
  match selectedPath with
  | Some s => if JS.truthy_str s then Some s else None
  | None => None
  end.

End DragDrop.

(* ===================================================================== *)
(** * Facts about the primitives *)
(* ===================================================================== *)

Lemma split_nonempty (sep : ascii) (s : string) : JS.split sep s <> [].
Proof.
  destruct s as [|c rest]; cbn; [discriminate|].
  destruct (Ascii.eqb c sep); [discriminate|].
  destruct (JS.split sep rest); discriminate.
Qed.

(** Splitting at a separator splits the list of parts. *)
Lemma split_app (sep : ascii) (x y : string) :
  JS.split sep (x ++ String sep y) = (JS.split sep x ++ JS.split sep y)%list.
Proof.
  induction x as [|c x IH]; cbn.
  - rewrite Ascii.eqb_refl. reflexivity.
  - destruct (Ascii.eqb c sep).
    + rewrite IH. reflexivity.
    + rewrite IH.
      pose proof (split_nonempty sep x) as Hne.
      destruct (JS.split sep x); [congruence|reflexivity].
Qed.

Lemma split_no_sep (sep : ascii) (s : string) :
  no_sep sep s = true -> JS.split sep s = [s].
Proof.
  induction s as [|c s IH]; cbn; [reflexivity|].
  intros H. apply andb_true_iff in H as [Hc Hs].
  apply negb_true_iff in Hc. rewrite Hc, (IH Hs). reflexivity.
Qed.

Lemma pop_snoc (l : list string) (x : string) : JS.pop (l ++ [x]) = Some x.
Proof. unfold JS.pop. rewrite rev_unit. reflexivity. Qed.

Lemma three_parts_Some (payload : string) :
  List.length (JS.split ":" payload) = 3%nat ->
  exists p0 p1 p2, three_parts payload = Some (p0, p1, p2).
Proof.
  unfold three_parts. intros H.
  destruct (JS.split ":" payload) as [|a [|b [|c [|d l]]]]; try discriminate.
  exists a, b, c. reflexivity.
Qed.

Lemma three_parts_None (payload : string) :
  List.length (JS.split ":" payload) <> 3%nat -> three_parts payload = None.
Proof.
  unfold three_parts. intros H.
  destruct (JS.split ":" payload) as [|a [|b [|c [|d l]]]]; try reflexivity.
  exfalso. apply H. reflexivity.
Qed.

Example parseInt_examples :
  JS.parseInt "2000000" = 2000000%float /\
  JS.parseInt "  -12abc" = (-12)%float /\
  JS.parseInt "+7.9" = 7%float /\
  JS.parseInt "-0" = (-0)%float /\
  JS.parseInt "abc" = PrimFloat.nan /\
  JS.parseInt "" = PrimFloat.nan /\
  JS.parseInt "9007199254740993" = 9007199254740992%float.
Proof. vm_compute. repeat split; reflexivity. Qed.

Example split_examples :
  JS.split ":" "12:34" = ["12"; "34"] /\
  JS.split ":" "1:2:3" = ["1"; "2"; "3"] /\
  JS.split ":" "" = [""] /\
  JS.split ":" "::" = [""; ""; ""] /\
  JS.pop_or (JS.split "/" "/tmp/video.mp4") "Unknown" = "video.mp4" /\
  JS.pop_or (JS.split "/" "/tmp/") "Unknown" = "Unknown".
Proof. repeat split; reflexivity. Qed.

Example Math_round_examples :
  JS.Math_round 2.5%float = 3%float /\
  JS.Math_round (-2.5)%float = (-2)%float /\
  JS.Math_round 190.73486328125%float = 191%float /\
  JS.Math_round (-0.25)%float = (-0)%float /\
  JS.Math_round 0.25%float = 0%float /\
  JS.Math_round PrimFloat.nan = PrimFloat.nan /\
  size_mb 2000000%float = (191 / 100)%float.
Proof. vm_compute. repeat split; reflexivity. Qed.

Example trim_examples :
  JS.trim "  T1 " = "T1" /\ JS.trim "a b" = "a b" /\ JS.trim "   " = "" /\
  JS.trim nbsp = "" /\
  JS.trim (nbsp ++ "T1" ++ ideographic_space ++ " ") = "T1" /\
  JS.trim ("a" ++ nbsp ++ "b") = "a" ++ nbsp ++ "b" /\
  JS.string_of_nat 12 = "12" /\ JS.string_of_nat 0 = "0".
Proof. repeat split; reflexivity. Qed.

Example parseInt_space_examples :
  JS.parseInt (nbsp ++ "42") = 42%float /\
  JS.parseInt (ideographic_space ++ " -7x") = (-7)%float /\
  JS.parseInt ("4" ++ nbsp ++ "2") = 4%float.
Proof. vm_compute. repeat split; reflexivity. Qed.

Example json_string_array_examples :
  json_string_array "[]" = Some [] /\
  json_string_array "[a.txt" = None /\
  json_string_array
    (String "[" (String dquote ("a/b/file.txt" ++ String dquote "]")))
    = Some ["a/b/file.txt"] /\
  json_string_array
    (String "[" (String dquote ("x.txt" ++ String dquote
       (String "," (String dquote ("y.txt" ++ String dquote " ]"))))))
    = Some ["x.txt"; "y.txt"] /\
  example_parse "null" = Some JSON.Null /\
  example_parse "[]" = Some (JSON.Array []).
Proof. repeat split; reflexivity. Qed.

(** [!(x > 0)] for every [x <= 0]. *)
Lemma not_positive (x : JS.number) :
  (x <=? 0)%float = true -> (0 <? x)%float = false.
Proof.
  rewrite leb_spec, ltb_spec.
  change (Prim2SF 0%float) with (S754_zero false).
  destruct (Prim2SF x) as [s|s| |s m e]; cbn; try destruct s; cbn; congruence.
Qed.

Lemma percentage_of_not_positive (bT tB : JS.number) :
  (tB <=? 0)%float = true -> percentage_of bT tB = 0%float.
Proof. intros H. unfold percentage_of. rewrite (not_positive _ H). reflexivity. Qed.

Lemma nan_not_positive (x : JS.number) :
  PrimFloat.is_nan x = true -> (0 <? x)%float = false.
Proof.
  unfold PrimFloat.is_nan. rewrite eqb_spec, ltb_spec.
  change (Prim2SF 0%float) with (S754_zero false).
  destruct (Prim2SF x) as [[|]|[|]| |[|] m e]; cbn; try discriminate;
    try reflexivity;
    unfold SFeqb, SFcompare; cbn;
    rewrite ?Z.compare_refl, ?Pos.compare_cont_refl, ?Pos.compare_refl;
    discriminate.
Qed.

Lemma percentage_of_positive (bT tB : JS.number) :
  (0 <? tB)%float = true -> percentage_of bT tB = (bT / tB * 100)%float.
Proof. intros H. unfold percentage_of. rewrite H. reflexivity. Qed.

(* ===================================================================== *)
(** * Binary64 rounding: a quotient above 1, times 100, is above 100 *)
(* ===================================================================== *)

(** The number of bits of a mantissa. *)
Lemma digits2_pos_bounds (p : positive) :
  2 ^ (Z.pos (digits2_pos p) - 1) <= Z.pos p < 2 ^ Z.pos (digits2_pos p).
Proof.
  induction p as [p IH|p IH|]; cbn [digits2_pos].
  - rewrite Pos2Z.inj_succ. replace (Z.succ (Z.pos (digits2_pos p)) - 1) with (Z.pos (digits2_pos p) - 1 + 1) by lia.
    rewrite Z.pow_succ_r by lia. rewrite Z.pow_add_r by lia.
    change (2 ^ 1) with 2. lia.
  - rewrite Pos2Z.inj_succ. replace (Z.succ (Z.pos (digits2_pos p)) - 1) with (Z.pos (digits2_pos p) - 1 + 1) by lia.
    rewrite Z.pow_succ_r by lia. rewrite Z.pow_add_r by lia.
    change (2 ^ 1) with 2. lia.
  - cbn. lia.
Qed.

Lemma digits2_pos_unique (p : positive) (d : Z) :
  2 ^ (d - 1) <= Z.pos p < 2 ^ d -> Z.pos (digits2_pos p) = d.
Proof.
  intros [Hlo Hhi]. pose proof (digits2_pos_bounds p) as [Blo Bhi].
  assert (0 < d). { destruct (Z_lt_le_dec 0 d); [assumption|]. 
    assert (2 ^ d <= 1). { destruct (Z.eq_dec d 0); [subst; cbn; lia|]. rewrite Z.pow_neg_r by lia. lia. } lia. }
  assert (Z.pos (digits2_pos p) - 1 < d).
  { apply (Z.pow_lt_mono_r_iff 2); try lia. }
  assert (d - 1 < Z.pos (digits2_pos p)).
  { apply (Z.pow_lt_mono_r_iff 2); try lia. }
  lia.
Qed.

Lemma shr_1_m (mrs : shr_record) :
  0 <= shr_m mrs -> shr_m (shr_1 mrs) = shr_m mrs / 2.
Proof.
  destruct mrs as [m r s]. cbn [shr_m]. intros Hm. unfold shr_1.
  destruct m as [|[p|p|]|p]; cbn [shr_m]; try lia.
  - reflexivity.
  - rewrite Pos2Z.inj_xI. apply Z.div_unique with 1; lia.
  - rewrite Pos2Z.inj_xO. apply Z.div_unique with 0; lia.
  - reflexivity.
Qed.

Lemma iter_shr_1_m (p : positive) (mrs : shr_record) :
  0 <= shr_m mrs ->
  shr_m (iter_pos shr_1 p mrs) = shr_m mrs / 2 ^ Z.pos p.
Proof.
  revert mrs. induction p as [p IH|p IH|]; intros mrs Hm; cbn [iter_pos].
  - assert (H1 : 0 <= shr_m (shr_1 mrs))
      by (rewrite shr_1_m by assumption; apply Z.div_pos; lia).
    assert (H2 : 0 <= shr_m (iter_pos shr_1 p (shr_1 mrs)))
      by (rewrite IH by assumption; apply Z.div_pos; lia).
    rewrite IH by assumption. rewrite IH by assumption.
    rewrite shr_1_m by assumption.
    assert (E : 2 ^ Z.pos p~1 = 2 * 2 ^ Z.pos p * 2 ^ Z.pos p).
    { assert (Ep : Z.pos p~1 = 1 + Z.pos p + Z.pos p) by lia.
      rewrite Ep, !Z.pow_add_r by lia. reflexivity. }
    rewrite E. rewrite <- !Z.div_div by lia. reflexivity.
  - assert (H2 : 0 <= shr_m (iter_pos shr_1 p mrs))
      by (rewrite IH by assumption; apply Z.div_pos; lia).
    rewrite IH by assumption. rewrite IH by assumption.
    assert (E : 2 ^ Z.pos p~0 = 2 ^ Z.pos p * 2 ^ Z.pos p).
    { assert (Ep : Z.pos p~0 = Z.pos p + Z.pos p) by lia.
      rewrite Ep, !Z.pow_add_r by lia. reflexivity. }
    rewrite E. rewrite <- !Z.div_div by lia. reflexivity.
  - rewrite shr_1_m by assumption. reflexivity.
Qed.

Lemma round_nearest_even_bounds (m : Z) (l : location) :
  m <= round_nearest_even m l <= m + 1.
Proof.
  unfold round_nearest_even. destruct l as [|[| |]]; try lia.
  destruct (Z.even m); lia.
Qed.

Lemma fexp_normal (e : Z) : -1074 <= e - 53 -> fexp prec emax e = e - 53.
Proof. unfold fexp, emin, prec, emax. lia. Qed.

Lemma shr_m_of_loc (m : Z) (l : location) : shr_m (shr_record_of_loc m l) = m.
Proof. destruct l as [|[| |]]; reflexivity. Qed.

Lemma loc_of_shr_of_loc (m : Z) (l : location) :
  loc_of_shr_record (shr_record_of_loc m l) = l.
Proof. destruct l as [|[| |]]; reflexivity. Qed.

(** The first shift of [binary_round_aux] on a mantissa of at least 53 bits. *)
Lemma shr_fexp_wide (pm : positive) (e : Z) (l : location) :
  53 <= Z.pos (digits2_pos pm) ->
  -1074 <= Z.pos (digits2_pos pm) + e - 53 ->
  let n := Z.pos (digits2_pos pm) - 53 in
  snd (shr_fexp prec emax (Z.pos pm) e l) = e + n /\
  shr_m (fst (shr_fexp prec emax (Z.pos pm) e l)) = Z.pos pm / 2 ^ n /\
  (n = 0 -> fst (shr_fexp prec emax (Z.pos pm) e l) = shr_record_of_loc (Z.pos pm) l) /\
  (n = 1 -> fst (shr_fexp prec emax (Z.pos pm) e l)
            = shr_1 (shr_record_of_loc (Z.pos pm) l)).
Proof.
  intros HD Hmin n. unfold shr_fexp. cbn [Zdigits2].
  rewrite fexp_normal by lia.
  replace (Z.pos (digits2_pos pm) + e - 53 - e) with n by (unfold n; lia).
  destruct n as [|p|p] eqn:Hn; try lia; cbn [shr fst snd].
  - split; [lia|]. split; [rewrite shr_m_of_loc, Z.div_1_r; reflexivity|].
    split; [reflexivity|discriminate].
  - split; [reflexivity|]. split.
    + rewrite iter_shr_1_m; rewrite shr_m_of_loc; [reflexivity|lia].
    + split; [discriminate|]. intros Hp. injection Hp as ->. reflexivity.
Qed.

Lemma shifted_53_bits (pm : positive) :
  53 <= Z.pos (digits2_pos pm) ->
  2 ^ 52 <= Z.pos pm / 2 ^ (Z.pos (digits2_pos pm) - 53) < 2 ^ 53.
Proof.
  intros HD. pose proof (digits2_pos_bounds pm) as [Blo Bhi].
  set (n := Z.pos (digits2_pos pm) - 53) in *.
  assert (Hn : 0 <= n) by (unfold n; lia).
  assert (E1 : 2 ^ (Z.pos (digits2_pos pm) - 1) = 2 ^ 52 * 2 ^ n).
  { replace (Z.pos (digits2_pos pm) - 1) with (52 + n) by (unfold n; lia).
    rewrite Z.pow_add_r by lia. reflexivity. }
  assert (E2 : 2 ^ Z.pos (digits2_pos pm) = 2 ^ 53 * 2 ^ n).
  { replace (Z.pos (digits2_pos pm)) with (53 + n) at 1 by (unfold n; lia).
    rewrite Z.pow_add_r by lia. reflexivity. }
  assert (Hp : 0 < 2 ^ n) by (apply Z.pow_pos_nonneg; lia).
  split.
  - apply Z.div_le_lower_bound; [exact Hp|].
    rewrite E1 in Blo. rewrite Z.mul_comm. exact Blo.
  - apply Z.div_lt_upper_bound; [exact Hp|].
    rewrite E2 in Bhi. rewrite Z.mul_comm. exact Bhi.
Qed.

(** The second shift: a mantissa in [[2^52, 2^53]] is kept, or halved when
    rounding carried to [2^53]. *)
Lemma round_final (m1 e1 : Z) :
  2 ^ 52 <= m1 <= 2 ^ 53 -> -1074 <= e1 ->
  (let '(mrs, e2) := shr_fexp prec emax m1 e1 loc_Exact in
   match shr_m mrs with
   | Z0 => S754_zero false
   | Z.pos m => if e2 <=? emax - prec then S754_finite false m e2
                else S754_infinity false
   | Z.neg _ => S754_nan
   end) = S754_infinity false \/
  exists m2 e2,
    (let '(mrs, e2) := shr_fexp prec emax m1 e1 loc_Exact in
     match shr_m mrs with
     | Z0 => S754_zero false
     | Z.pos m => if e2 <=? emax - prec then S754_finite false m e2
                  else S754_infinity false
     | Z.neg _ => S754_nan
     end) = S754_finite false m2 e2 /\
    e1 <= e2 /\ (e2 = e1 -> Z.pos m2 = m1) /\ 2 ^ 52 <= Z.pos m2 < 2 ^ 53.
Proof.
  intros Hm He.
  destruct m1 as [|pm|pm]; try (exfalso; cbn in Hm; lia).
  destruct (Z.eq_dec (Z.pos pm) (2 ^ 53)) as [Heq|Hne].
  - assert (Hd : Z.pos (digits2_pos pm) = 54).
    { apply digits2_pos_unique. rewrite Heq. cbn. lia. }
    unfold shr_fexp. cbn [Zdigits2]. rewrite Hd.
    rewrite fexp_normal by lia.
    replace (54 + e1 - 53 - e1) with 1 by lia.
    injection Heq as ->. cbn.
    destruct (e1 + 1 <=? 971) eqn:Hle; [right|left; reflexivity].
    eexists; eexists. split; [reflexivity|]. split; [lia|]. split; [lia|].
    cbn. lia.
  - assert (Hd : Z.pos (digits2_pos pm) = 53).
    { apply digits2_pos_unique. change (53 - 1) with 52. lia. }
    unfold shr_fexp. cbn [Zdigits2]. rewrite Hd.
    rewrite fexp_normal by lia.
    replace (53 + e1 - 53 - e1) with 0 by lia. cbn.
    destruct (e1 <=? 971) eqn:Hle; [right|left; reflexivity].
    eexists; eexists. split; [reflexivity|]. split; [lia|].
    split; [reflexivity|lia].
Qed.

(** [binary_round_aux] on a mantissa of at least 53 bits: the result is an
    infinity or a normalised number, whose exponent is at least the shifted
    one and whose mantissa, when the exponent is the shifted one, is the
    rounded shifted mantissa. *)
Lemma binary_round_aux_wide (pm : positive) (e : Z) (l : location) :
  53 <= Z.pos (digits2_pos pm) ->
  -1074 <= Z.pos (digits2_pos pm) + e - 53 ->
  let n := Z.pos (digits2_pos pm) - 53 in
  let mrs := fst (shr_fexp prec emax (Z.pos pm) e l) in
  let m1 := round_nearest_even (shr_m mrs) (loc_of_shr_record mrs) in
  binary_round_aux prec emax false (Z.pos pm) e l = S754_infinity false \/
  exists m2 e2,
    binary_round_aux prec emax false (Z.pos pm) e l = S754_finite false m2 e2 /\
    e + n <= e2 /\ (e2 = e + n -> Z.pos m2 = m1) /\
    2 ^ 52 <= Z.pos m2 < 2 ^ 53.
Proof.
  intros HD Hmin n mrs m1.
  destruct (shr_fexp_wide pm e l HD Hmin) as (He & Hm & _).
  fold n in He, Hm. fold mrs in Hm.
  pose proof (shifted_53_bits pm HD) as Hq. fold n in Hq.
  pose proof (round_nearest_even_bounds (shr_m mrs) (loc_of_shr_record mrs)) as Hr.
  fold m1 in Hr. rewrite Hm in Hr.
  assert (H1 : 2 ^ 52 <= m1 <= 2 ^ 53) by lia.
  assert (H2 : -1074 <= e + n) by (unfold n; lia).
  unfold binary_round_aux.
  destruct (shr_fexp prec emax (Z.pos pm) e l) as [mrs' e'] eqn:Hs.
  cbn [fst snd] in *. subst e'. subst mrs.
  exact (round_final m1 (e + n) H1 H2).
Qed.

(** Comparison with a positive constant. *)
Lemma SFltb_const (mc : positive) (ec : Z) (r : spec_float) :
  r = S754_infinity false \/
  (exists m2 e2, r = S754_finite false m2 e2 /\
                 (ec < e2 \/ (e2 = ec /\ Z.pos mc < Z.pos m2))) ->
  SFltb (S754_finite false mc ec) r = true.
Proof.
  intros [->|(m2 & e2 & -> & H)]; [reflexivity|].
  unfold SFltb, SFcompare.
  destruct H as [H|[-> H]].
  - apply Z.compare_lt_iff in H. rewrite H. reflexivity.
  - rewrite Z.compare_refl.
    assert (Hc : (mc ?= m2)%positive = Lt) by (apply Pos.compare_lt_iff; lia).
    unfold Pos.compare in Hc. rewrite Hc. reflexivity.
Qed.

Lemma digits_between (pm : positive) (lo hi : Z) :
  0 <= lo -> 2 ^ lo <= Z.pos pm < 2 ^ hi -> lo < Z.pos (digits2_pos pm) <= hi.
Proof.
  intros Hlo [H1 H2]. pose proof (digits2_pos_bounds pm) as [Blo Bhi].
  assert (Hhi : 0 <= hi).
  { destruct (Z_lt_le_dec hi 0); [|assumption].
    rewrite Z.pow_neg_r in H2 by assumption. lia. }
  split.
  - apply (Z.pow_lt_mono_r_iff 2); lia.
  - assert (Z.pos (digits2_pos pm) - 1 < hi); [|lia].
    apply (Z.pow_lt_mono_r_iff 2); lia.
Qed.

(** 100 as a binary64 number. *)
Lemma Prim2SF_100 :
  Prim2SF 100%float = S754_finite false 7036874417766400 (-46).
Proof. reflexivity. Qed.

(** Any number above 1, once multiplied by 100, is above 100. *)
Lemma SFmul_100_above (m : positive) (e : Z) :
  2 ^ 52 <= Z.pos m < 2 ^ 53 ->
  -52 < e \/ (e = -52 /\ 2 ^ 52 < Z.pos m) ->
  SFltb (S754_finite false 7036874417766400 (-46))
        (SFmul prec emax (S754_finite false m e)
               (S754_finite false 7036874417766400 (-46))) = true.
Proof.
  intros Hm Habove. apply SFltb_const. cbn [SFmul xorb].
  set (pm := (m * 7036874417766400)%positive).
  assert (Epm : Z.pos pm = Z.pos m * 7036874417766400) by (unfold pm; lia).
  assert (P52 : 2 ^ 52 = 4503599627370496) by reflexivity.
  assert (P53 : 2 ^ 53 = 9007199254740992) by reflexivity.
  rewrite P52, P53 in Hm. rewrite P52 in Habove.
  assert (Hd : 104 < Z.pos (digits2_pos pm) <= 106).
  { apply digits_between; [lia|]. rewrite Epm.
    change (2 ^ 104) with 20282409603651670423947251286016.
    change (2 ^ 106) with 81129638414606681695789005144064. lia. }
  assert (HD : 53 <= Z.pos (digits2_pos pm)) by lia.
  assert (Hmin : -1074 <= Z.pos (digits2_pos pm) + (e + -46) - 53) by lia.
  destruct (binary_round_aux_wide pm (e + -46) loc_Exact HD Hmin)
    as [Hinf|(m2 & e2 & Hfin & He2 & Hm2 & _)]; [left; exact Hinf|].
  right. exists m2, e2. split; [exact Hfin|].
  destruct (Z_lt_le_dec (-46) e2) as [Hgt|Hle]; [left; lia|].
  right.
  assert (He : e = -52) by lia.
  assert (HDv : Z.pos (digits2_pos pm) = 105) by lia.
  assert (He2v : e2 = e + -46 + (Z.pos (digits2_pos pm) - 53)) by lia.
  split; [lia|].
  rewrite (Hm2 He2v).
  destruct (shr_fexp_wide pm (e + -46) loc_Exact HD Hmin) as (_ & Hshift & _).
  pose proof (round_nearest_even_bounds
                (shr_m (fst (shr_fexp prec emax (Z.pos pm) (e + -46) loc_Exact)))
                (loc_of_shr_record
                   (fst (shr_fexp prec emax (Z.pos pm) (e + -46) loc_Exact))))
    as [Hr _].
  rewrite Hshift in Hr at 1. rewrite HDv in Hr.
  change (2 ^ (105 - 53)) with 4503599627370496 in Hr.
  assert (Hq : 7036874417766400 + 1 <= Z.pos pm / 4503599627370496).
  { apply Z.div_le_lower_bound; [lia|]. rewrite Epm. lia. }
  lia.
Qed.

Lemma new_location_gt (my r : Z) :
  0 < r -> my < 2 * r -> new_location my r = loc_Inexact Gt.
Proof.
  intros Hr H. unfold new_location.
  assert (E : (r =? 0) = false) by (apply Z.eqb_neq; lia).
  destruct (Z.even my).
  - unfold new_location_even. rewrite E.
    assert (C : (2 * r ?= my) = Gt) by (apply Z.compare_gt_iff; lia).
    rewrite C. reflexivity.
  - unfold new_location_odd. rewrite E.
    assert (C : (2 * r + 1 ?= my) = Gt) by (apply Z.compare_gt_iff; lia).
    rewrite C. reflexivity.
Qed.

Lemma new_location_inexact (my r : Z) :
  r <> 0 -> exists c, new_location my r = loc_Inexact c.
Proof.
  intros Hr. unfold new_location.
  assert (E : (r =? 0) = false) by (apply Z.eqb_neq; lia).
  destruct (Z.even my).
  - unfold new_location_even. rewrite E. eexists; reflexivity.
  - unfold new_location_odd. rewrite E. eexists; reflexivity.
Qed.

(** What validity says of a mantissa and its exponent. *)
Lemma bounded_facts (m : positive) (e : Z) :
  bounded prec emax m e = true ->
  Z.pos (digits2_pos m) <= 53 /\ -1074 <= e /\
  (-1074 < e -> Z.pos (digits2_pos m) = 53).
Proof.
  unfold bounded, canonical_mantissa, fexp, emin, prec, emax.
  intros H. apply andb_true_iff in H as [H _]. apply Z.eqb_eq in H. lia.
Qed.

(** The quotient and location computed by the division. *)
Lemma SFdiv_core_binary_eq (mx my : positive) (ex ey : Z) :
  let d1 := Z.pos (digits2_pos mx) in
  let d2 := Z.pos (digits2_pos my) in
  let k := d1 + ex - (d2 + ey) in
  let s := 53 - d1 + d2 in
  d1 <= 53 -> 0 <= k ->
  SFdiv_core_binary prec emax (Z.pos mx) ex (Z.pos my) ey
  = ((Z.pos mx * 2 ^ s) / Z.pos my, k - 53,
     new_location (Z.pos my) ((Z.pos mx * 2 ^ s) mod Z.pos my)).
Proof.
  intros d1 d2 k s Hd1 Hk. unfold SFdiv_core_binary. cbn [Zdigits2].
  fold d1 d2. replace (d1 + ex - (d2 + ey)) with k by reflexivity.
  rewrite fexp_normal by lia.
  assert (Hd2 : 0 < d2) by (unfold d2; lia).
  rewrite Z.min_l by (unfold k; lia).
  replace (ex - ey - (k - 53)) with s by (unfold k, s; lia).
  assert (Hs : 0 < s) by (unfold s; lia).
  destruct s as [|ps|ps] eqn:Es; try lia.
  rewrite Z.shiftl_mul_pow2 by lia.
  unfold Z.div, Z.modulo.
  destruct (Z.div_eucl (Z.pos mx * 2 ^ Z.pos ps) (Z.pos my)) as [q r].
  reflexivity.
Qed.

(** The quotient of two valid positive numbers, the first above the second,
    is above 1. *)
Lemma SFdiv_above_one (mx my : positive) (ex ey : Z) :
  bounded prec emax mx ex = true -> bounded prec emax my ey = true ->
  ey < ex \/ (ex = ey /\ Z.pos my < Z.pos mx) ->
  SFdiv prec emax (S754_finite false mx ex) (S754_finite false my ey)
    = S754_infinity false \/
  exists m e,
    SFdiv prec emax (S754_finite false mx ex) (S754_finite false my ey)
      = S754_finite false m e /\
    2 ^ 52 <= Z.pos m < 2 ^ 53 /\
    (-52 < e \/ (e = -52 /\ 2 ^ 52 < Z.pos m)).
Proof.
  intros Hx Hy Hgt.
  destruct (bounded_facts mx ex Hx) as (Hd1 & Hex & Hn1).
  destruct (bounded_facts my ey Hy) as (Hd2 & Hey & Hn2).
  pose proof (digits2_pos_bounds mx) as [Bx1 Bx2].
  pose proof (digits2_pos_bounds my) as [By1 By2].
  set (d1 := Z.pos (digits2_pos mx)) in *.
  set (d2 := Z.pos (digits2_pos my)) in *.
  assert (Hd1p : 0 < d1) by (unfold d1; lia).
  assert (Hd2p : 0 < d2) by (unfold d2; lia).
  assert (P52 : 2 ^ 52 = 4503599627370496) by reflexivity.
  assert (P53 : 2 ^ 53 = 9007199254740992) by reflexivity.
  assert (P54 : 2 ^ 54 = 18014398509481984) by reflexivity.
  assert (Hmy53 : Z.pos my < 2 ^ 53).
  { apply Z.lt_le_trans with (2 ^ d2); [exact By2|].
    apply Z.pow_le_mono_r; lia. }
  assert (Hk : 0 <= d1 + ex - (d2 + ey)).
  { destruct Hgt as [H|[H1 H2]].
    - rewrite Hn1 by lia. lia.
    - subst ey. assert (d2 - 1 < d1) by (apply (Z.pow_lt_mono_r_iff 2); lia). lia. }
  assert (Hexey : 0 <= ex - ey) by lia.
  assert (HX : Z.pos my + 1 <= Z.pos mx * 2 ^ (ex - ey)).
  { destruct Hgt as [H|[H1 H2]].
    - assert (E53 : d1 = 53) by (apply Hn1; lia).
      rewrite E53 in Bx1. change (53 - 1) with 52 in Bx1.
      assert (H2 : 2 <= 2 ^ (ex - ey)).
      { replace (ex - ey) with (1 + (ex - ey - 1)) by lia.
        rewrite Z.pow_add_r by lia. change (2 ^ 1) with 2.
        assert (0 < 2 ^ (ex - ey - 1)) by (apply Z.pow_pos_nonneg; lia). lia. }
      assert (2 ^ 52 * 2 <= Z.pos mx * 2 ^ (ex - ey))
        by (apply Z.mul_le_mono_nonneg; lia).
      lia.
    - subst ey. rewrite Z.sub_diag. change (2 ^ 0) with 1. lia. }
  unfold SFdiv. rewrite SFdiv_core_binary_eq by assumption. cbn [xorb].
  fold d1 d2.
  set (k := d1 + ex - (d2 + ey)) in *.
  set (s := 53 - d1 + d2).
  assert (Hs : 0 <= s) by (unfold s; lia).
  set (m' := Z.pos mx * 2 ^ s).
  assert (Hlo : 2 ^ 52 * 2 ^ d2 <= m').
  { unfold m'. rewrite <- Z.pow_add_r by lia.
    replace (52 + d2) with (d1 - 1 + s) by (unfold s; lia).
    rewrite Z.pow_add_r by lia.
    apply Z.mul_le_mono_nonneg_r; [apply Z.pow_nonneg; lia|exact Bx1]. }
  assert (Hhi : m' < 2 ^ 54 * 2 ^ (d2 - 1)).
  { unfold m'. rewrite <- Z.pow_add_r by lia.
    replace (54 + (d2 - 1)) with (d1 + s) by (unfold s; lia).
    rewrite Z.pow_add_r by lia.
    apply Z.mul_lt_mono_pos_r; [apply Z.pow_pos_nonneg; lia|exact Bx2]. }
  assert (Hq : 2 ^ 52 <= m' / Z.pos my < 2 ^ 54).
  { split.
    - apply Z.div_le_lower_bound; [lia|].
      apply Z.le_trans with (2 ^ 52 * 2 ^ d2); [|exact Hlo].
      rewrite Z.mul_comm. apply Z.mul_le_mono_nonneg_l; lia.
    - apply Z.div_lt_upper_bound; [lia|].
      apply Z.lt_le_trans with (2 ^ 54 * 2 ^ (d2 - 1)); [exact Hhi|].
      rewrite Z.mul_comm. apply Z.mul_le_mono_nonneg_r; lia. }
  pose proof (Z.div_mod m' (Z.pos my) ltac:(lia)) as Hdm.
  pose proof (Z.mod_pos_bound m' (Z.pos my) ltac:(lia)) as Hr.
  set (q := m' / Z.pos my) in *.
  set (r := m' mod Z.pos my) in *.
  destruct q as [|pq|pq] eqn:Eq; try lia.
  assert (HDq : 52 < Z.pos (digits2_pos pq) <= 54)
    by (apply digits_between; lia).
  assert (HD : 53 <= Z.pos (digits2_pos pq)) by lia.
  assert (Hmin : -1074 <= Z.pos (digits2_pos pq) + (k - 53) - 53) by lia.
  destruct (binary_round_aux_wide pq (k - 53)
              (new_location (Z.pos my) r) HD Hmin)
    as [Hinf|(m2 & e2 & Hfin & He2 & Hm2 & Hnorm)]; [left; exact Hinf|].
  right. exists m2, e2. split; [exact Hfin|]. split; [exact Hnorm|].
  destruct (Z_lt_le_dec (-52) e2) as [Hbig|Hsmall]; [left; exact Hbig|].
  right.
  destruct (shr_fexp_wide pq (k - 53) (new_location (Z.pos my) r) HD Hmin)
    as (_ & Hshift & Hn0 & Hn1').
  pose proof (round_nearest_even_bounds
    (shr_m (fst (shr_fexp prec emax (Z.pos pq) (k - 53) (new_location (Z.pos my) r))))
    (loc_of_shr_record
       (fst (shr_fexp prec emax (Z.pos pq) (k - 53) (new_location (Z.pos my) r)))))
    as [Hround _].
  assert (Hk01 : k = 0 \/ k = 1) by lia.
  destruct Hk01 as [Hk0|Hk1].
  - (* same binade: the quotient has 54 bits *)
    assert (Em' : m' = Z.pos mx * 2 ^ (ex - ey) * 2 ^ 53).
    { unfold m'. rewrite <- Z.mul_assoc, <- Z.pow_add_r by lia.
      f_equal. f_equal. unfold s. lia. }
    assert (Hm'lo : (Z.pos my + 1) * 2 ^ 53 <= m').
    { rewrite Em'. apply Z.mul_le_mono_nonneg_r; lia. }
    assert (Hq53 : 2 ^ 53 + 1 <= Z.pos pq).
    { rewrite <- Eq. apply Z.div_le_lower_bound; lia. }
    assert (HDv : Z.pos (digits2_pos pq) = 54).
    { assert (53 < Z.pos (digits2_pos pq)); [|lia].
      pose proof (digits2_pos_bounds pq) as [_ Bq].
      apply (Z.pow_lt_mono_r_iff 2); lia. }
    assert (Ee2 : e2 = k - 53 + (Z.pos (digits2_pos pq) - 53)) by lia.
    split; [lia|]. rewrite (Hm2 Ee2).
    destruct (Z_lt_le_dec (2 ^ 53 + 1) (Z.pos pq)) as [Hq2|Hq1].
    + rewrite Hshift in Hround at 1. rewrite HDv in Hround.
      change (2 ^ (54 - 53)) with 2 in Hround.
      assert (2 ^ 52 + 1 <= Z.pos pq / 2)
        by (apply Z.div_le_lower_bound; lia).
      lia.
    + assert (Epq : Z.pos pq = 2 ^ 53 + 1) by lia.
      assert (Hrne : r <> 0) by (rewrite Epq in Hdm; lia).
      destruct (new_location_inexact (Z.pos my) r Hrne) as [c Hc].
      rewrite (Hn1' ltac:(lia)), Hc.
      rewrite P53 in Epq. injection Epq as ->.
      destruct c; cbn; lia.
  - (* next binade: the quotient has 53 bits *)
    assert (Em' : m' = Z.pos mx * 2 ^ (ex - ey) * 2 ^ 52).
    { unfold m'. rewrite <- Z.mul_assoc, <- Z.pow_add_r by lia.
      f_equal. f_equal. unfold s. lia. }
    assert (Hm'lo : (Z.pos my + 1) * 2 ^ 52 <= m').
    { rewrite Em'. apply Z.mul_le_mono_nonneg_r; lia. }
    assert (HDv : Z.pos (digits2_pos pq) = 53) by lia.
    assert (Ee2 : e2 = k - 53 + (Z.pos (digits2_pos pq) - 53)) by lia.
    split; [lia|]. rewrite (Hm2 Ee2).
    rewrite (Hn0 ltac:(lia)), shr_m_of_loc, loc_of_shr_of_loc.
    destruct (Z_lt_le_dec (2 ^ 52) (Z.pos pq)) as [Hq2|Hq1].
    + pose proof (round_nearest_even_bounds (Z.pos pq)
                    (new_location (Z.pos my) r)) as [Hb _]. lia.
    + assert (Epq : Z.pos pq = 2 ^ 52) by lia.
      rewrite new_location_gt; [cbn [round_nearest_even]; lia| |];
        rewrite Epq in Hdm; lia.
Qed.

(** In binary64 arithmetic, [a / b * 100] is above 100 whenever
    [a > b > 0]. *)
Lemma ratio_above_100 (a b : float) :
  (0 <? b)%float = true -> (b <? a)%float = true ->
  (100 <? a / b * 100)%float = true.
Proof.
  rewrite !ltb_spec, mul_spec, div_spec.
  unfold SF64mul, SF64div. rewrite Prim2SF_100.
  change (Prim2SF 0%float) with (S754_zero false).
  pose proof (Prim2SF_valid a) as Va. pose proof (Prim2SF_valid b) as Vb.
  destruct (Prim2SF b) as [sb|sb| |sb my ey]; cbn [SFltb SFcompare];
    try discriminate; destruct sb; try discriminate; intros _.
  - (* b = +Infinity: nothing is above it *)
    destruct (Prim2SF a) as [sa|sa| |sa mx ex]; cbn;
      try discriminate; destruct sa; discriminate.
  - destruct (Prim2SF a) as [sa|sa| |sa mx ex]; cbn [SFltb SFcompare];
      try discriminate; destruct sa; try discriminate.
    + (* a = +Infinity *) intros _. reflexivity.
    + intros Hlt. cbn [valid_binary] in Va, Vb.
      assert (Hgt : ey < ex \/ (ex = ey /\ Z.pos my < Z.pos mx)).
      { destruct (ey ?= ex) eqn:Hc; try discriminate.
        - right. apply Z.compare_eq_iff in Hc. split; [lia|].
          change (Pos.compare_cont Eq my mx = Lt).
          destruct (Pos.compare_cont Eq my mx); congruence.
        - left. apply Z.compare_lt_iff in Hc. exact Hc. }
      destruct (SFdiv_above_one mx my ex ey Va Vb Hgt)
        as [->|(m & e & -> & Hnorm & Habove)]; [reflexivity|].
      apply SFmul_100_above; assumption.
Qed.

Lemma percentage_of_above_100 (bT tB : JS.number) :
  (0 <? tB)%float = true -> (tB <? bT)%float = true ->
  (100 <? percentage_of bT tB)%float = true.
Proof.
  intros H0 H1. rewrite (percentage_of_positive _ _ H0).
  apply ratio_above_100; assumption.
Qed.

(* ===================================================================== *)
(** * Facts about the hooks *)
(* ===================================================================== *)

(** The render re-establishes [refs_mirror], whatever the handler did. *)
Lemma render_mirrors (old new : Receiver.state) :
  refs_mirror (Receiver.render old new).
Proof.
  unfold Receiver.render, refs_mirror.
  destruct (Receiver.deps_changed old new); destruct new; cbn; auto.
Qed.

(** A render after a handler that set nothing changes nothing. *)
Lemma render_same (st : Receiver.state) :
  refs_mirror st -> Receiver.render st st = st.
Proof.
  intros (H1 & H2 & H3). unfold Receiver.render, Receiver.deps_changed,
    Receiver.same_progress.
  assert (Ht : Receiver.same_time (Receiver.transferStartTime st)
                                  (Receiver.transferStartTime st) = true).
  { unfold Receiver.same_time. destruct (Receiver.transferStartTime st); [|reflexivity].
    apply FloatAxioms.Leibniz.eqb_spec. reflexivity. }
  rewrite Ht.
  destruct st as [a b c d e f g h i j k l m n o p q r]; cbn in *. subst.
  destruct h; cbn; rewrite ?Nat.eqb_refl; reflexivity.
Qed.

Section ReceiverFacts.

Variable rt : runtime.

Lemma step_mirrors (st : Receiver.state) (i : Receiver.input) :
  refs_mirror (fst (Receiver.step rt st i)).
Proof.
  unfold Receiver.step. destruct (Receiver.handle rt st i) as [st' eff].
  apply render_mirrors.
Qed.

Lemma run_mirrors (ins : list Receiver.input) (st : Receiver.state) :
  refs_mirror st -> refs_mirror (fst (Receiver.run rt st ins)).
Proof.
  revert st. induction ins as [|i rest IH]; intros st Hst; cbn; [assumption|].
  pose proof (step_mirrors st i) as Hs.
  destruct (Receiver.step rt st i) as [st1 e1]. cbn in Hs.
  specialize (IH st1 Hs).
  destruct (Receiver.run rt st1 rest) as [st2 e2]. exact IH.
Qed.

(** In every state the hook can reach, the refs mirror their cells. *)
Lemma reachable_mirrors (st : Receiver.state) :
  Receiver.reachable rt st -> refs_mirror st.
Proof.
  intros [ins <-]. apply run_mirrors. repeat split.
Qed.

End ReceiverFacts.

(* ===================================================================== *)
(** * The progress percentage *)
(* ===================================================================== *)

(** C5, as the listeners compute it.  For a progress payload of three
    fields, the [transfer-progress] and the [receive-progress] listeners
    store the same snapshot, whose byte counts are the parsed first two
    fields and whose percentage is exactly
    [bytesTransferred / totalBytes * 100] when [totalBytes > 0] and 0 in
    every other case.  The other cases are [totalBytes <= 0] and a
    [totalBytes] that is NaN (a total field that is no number): the
    percentage is then neither NaN nor an infinity.  Nothing clamps the
    quotient: it is above 100 whenever [bytesTransferred > totalBytes > 0]. *)
Theorem progress_percentage
  (rt : runtime)
  (payload p0 p1 p2 : string) (sst : Sender.state) (rst : Receiver.state) :
  three_parts payload = Some (p0, p1, p2) ->
  exists p : TransferProgress,
    Sender.transferProgress
      (fst (Sender.step sst (Sender.Ev_transfer_progress payload))) = Some p /\
    Receiver.transferProgress
      (fst (Receiver.step rt rst (Receiver.Ev_receive_progress payload))) = Some p /\
    bytesTransferred p = JS.parseInt p0 /\
    totalBytes p = JS.parseInt p1 /\
    percentage p = (if (0 <? totalBytes p)%float
                    then (bytesTransferred p / totalBytes p * 100)%float
                    else 0%float) /\
    ((0 <? totalBytes p)%float = false ->
       percentage p = 0%float /\
       PrimFloat.is_nan (percentage p) = false /\
       PrimFloat.is_infinity (percentage p) = false) /\
    ((totalBytes p <=? 0)%float = true -> percentage p = 0%float) /\
    (PrimFloat.is_nan (totalBytes p) = true -> percentage p = 0%float) /\
    ((0 <? totalBytes p)%float = true ->
       percentage p = (bytesTransferred p / totalBytes p * 100)%float /\
       ((totalBytes p <? bytesTransferred p)%float = true ->
          (100 <? percentage p)%float = true)).
Proof.
  intros Hparts. exists (progress_of_parts p0 p1 p2).
  split; [|split].
  - cbn. unfold Sender.on_transfer_progress. rewrite Hparts.
    destruct sst; reflexivity.
  - unfold Receiver.step. cbn. unfold Receiver.on_receive_progress. rewrite Hparts.
    unfold Receiver.render.
    match goal with |- context [if ?b then _ else _] => destruct b end;
      destruct rst; reflexivity.
  - cbn [bytesTransferred totalBytes percentage progress_of_parts].
    split; [reflexivity|]. split; [reflexivity|]. split; [reflexivity|].
    split; [|split; [|split]].
    + intros H. unfold percentage_of. rewrite H. repeat split.
    + intros H. apply percentage_of_not_positive, H.
    + intros H. unfold percentage_of. rewrite (nan_not_positive _ H). reflexivity.
    + intros H. split; [apply percentage_of_positive, H|].
      intros H1. apply percentage_of_above_100; assumption.
Qed.

(** The engine's counters are passed through: 150 of 100 bytes is 150%; a
    total of 0, and a total that is no number, give 0%. *)
Lemma progress_percentage_witness :
  (exists p : TransferProgress,
     Sender.transferProgress
       (fst (Sender.step Sender.init (Sender.Ev_transfer_progress "150:100:2000")))
       = Some p /\
     Receiver.transferProgress
       (fst (Receiver.step example_runtime Receiver.init
               (Receiver.Ev_receive_progress "150:100:2000"))) = Some p /\
     totalBytes p = 100%float /\
     percentage p = 150%float /\
     (100 <? percentage p)%float = true) /\
  (exists p : TransferProgress,
     Sender.transferProgress
       (fst (Sender.step Sender.init (Sender.Ev_transfer_progress "150:0:2000")))
       = Some p /\
     (totalBytes p <=? 0)%float = true /\
     percentage p = 0%float) /\
  (exists p : TransferProgress,
     Receiver.transferProgress
       (fst (Receiver.step example_runtime Receiver.init
               (Receiver.Ev_receive_progress "5:abc:7"))) = Some p /\
     PrimFloat.is_nan (totalBytes p) = true /\
     percentage p = 0%float).
Proof.
  split; [|split].
  - destruct (progress_percentage example_runtime "150:100:2000" "150" "100" "2000"
                Sender.init Receiver.init eq_refl)
      as (p & Hs & Hr & Hb & Ht & _ & _ & _ & _ & Hpos).
    assert (Htot : totalBytes p = 100%float) by (rewrite Ht; reflexivity).
    assert (H0 : (0 <? totalBytes p)%float = true) by (rewrite Htot; reflexivity).
    assert (H1 : (totalBytes p <? bytesTransferred p)%float = true)
      by (rewrite Htot, Hb; reflexivity).
    destruct (Hpos H0) as [Hq Habove].
    exists p. split; [exact Hs|]. split; [exact Hr|]. split; [exact Htot|].
    split; [|exact (Habove H1)].
    rewrite Hq, Hb, Htot. reflexivity.
  - destruct (progress_percentage example_runtime "150:0:2000" "150" "0" "2000"
                Sender.init Receiver.init eq_refl)
      as (p & Hs & _ & _ & Ht & _ & _ & Hle & _ & _).
    assert (H0 : (totalBytes p <=? 0)%float = true) by (rewrite Ht; reflexivity).
    exists p. split; [exact Hs|]. split; [exact H0|exact (Hle H0)].
  - destruct (progress_percentage example_runtime "5:abc:7" "5" "abc" "7"
                Sender.init Receiver.init eq_refl)
      as (p & _ & Hr & _ & Ht & _ & _ & _ & Hnan & _).
    assert (H0 : PrimFloat.is_nan (totalBytes p) = true) by (rewrite Ht; reflexivity).
    exists p. split; [exact Hr|]. split; [exact H0|exact (Hnan H0)].
Defined.

(** A total field that is no number: [totalBytes] is NaN, which is not
    [<= 0]; the quotient [bytesTransferred / totalBytes * 100] is NaN, and
    the listener stores 0. *)
Lemma progress_nan_total :
  three_parts "5:abc:7" = Some ("5", "abc", "7") /\
  Sender.transferProgress
    (fst (Sender.step Sender.init (Sender.Ev_transfer_progress "5:abc:7")))
    = Some (progress_of_parts "5" "abc" "7") /\
  Receiver.transferProgress
    (fst (Receiver.step example_runtime Receiver.init
            (Receiver.Ev_receive_progress "5:abc:7")))
    = Some (progress_of_parts "5" "abc" "7") /\
  (totalBytes (progress_of_parts "5" "abc" "7") <=? 0)%float = false /\
  PrimFloat.is_nan
    (bytesTransferred (progress_of_parts "5" "abc" "7")
     / totalBytes (progress_of_parts "5" "abc" "7") * 100)%float = true /\
  percentage (progress_of_parts "5" "abc" "7") = 0%float /\
  percentage (progress_of_parts "5" "abc" "7")
  <> (bytesTransferred (progress_of_parts "5" "abc" "7")
      / totalBytes (progress_of_parts "5" "abc" "7") * 100)%float.
Proof.
  repeat split; try (vm_compute; reflexivity).
  intros H. apply (f_equal PrimFloat.is_nan) in H. vm_compute in H. discriminate H.
Qed.

Example progress_above_100 :
  percentage (progress_of_parts "150" "100" "2000") = 150%float /\
  speedBps (progress_of_parts "150" "100" "2000") = 2%float.
Proof. vm_compute. split; reflexivity. Qed.

Example progress_zero_total :
  percentage (progress_of_parts "150" "0" "2000") = 0%float /\
  percentage (progress_of_parts "150" "-7" "2000") = 0%float /\
  percentage (progress_of_parts "150" "x" "2000") = 0%float.
Proof. vm_compute. repeat split; reflexivity. Qed.

(* ===================================================================== *)
(** * Progress payloads that do not have three fields *)
(* ===================================================================== *)

Lemma sender_progress_dropped (payload : string) (st : Sender.state) :
  three_parts payload = None ->
  Sender.step st (Sender.Ev_transfer_progress payload) = (st, []).
Proof.
  intros H. cbn. unfold Sender.on_transfer_progress. rewrite H. reflexivity.
Qed.

Lemma receiver_progress_dropped
  (rt : runtime)
  (payload : string) (st : Receiver.state) :
  three_parts payload = None -> refs_mirror st ->
  Receiver.step rt st (Receiver.Ev_receive_progress payload) = (st, []).
Proof.
  intros H Hm. unfold Receiver.step. cbn. unfold Receiver.on_receive_progress.
  rewrite H, (render_same st Hm). reflexivity.
Qed.

(** C6.  A [transfer-progress] or [receive-progress] payload that does not
    split on [':'] into exactly 3 fields changes nothing: the hook's state
    after the listener is the state before it (so the previous
    [TransferProgress] stays), and the listener has no effect. *)
Theorem malformed_progress_dropped
  (rt : runtime)
  (payload : string) (sst : Sender.state) (rst : Receiver.state) :
  List.length (JS.split ":" payload) <> 3%nat ->
  Receiver.reachable rt rst ->
  Sender.step sst (Sender.Ev_transfer_progress payload) = (sst, []) /\
  Receiver.step rt rst (Receiver.Ev_receive_progress payload) = (rst, []).
Proof.
  intros Hlen Hr. apply three_parts_None in Hlen. split.
  - apply sender_progress_dropped, Hlen.
  - apply receiver_progress_dropped; [exact Hlen|].
    apply (reachable_mirrors rt), Hr.
Qed.

Lemma malformed_progress_dropped_witness :
  Sender.step sender_mid_transfer (Sender.Ev_transfer_progress "12:34")
    = (sender_mid_transfer, []) /\
  Receiver.step example_runtime receiver_mid_transfer
                (Receiver.Ev_receive_progress "12:34")
    = (receiver_mid_transfer, []).
Proof.
  apply (malformed_progress_dropped example_runtime "12:34").
  - cbn. lia.
  - eexists. reflexivity.
Defined.

Example mid_transfer_snapshots :
  Sender.transferProgress sender_mid_transfer
    = Some (mkProgress 1000000 2000000 500 50)%float /\
  Receiver.transferProgress receiver_mid_transfer
    = Some (mkProgress 1500000 2000000 750 75)%float.
Proof. vm_compute. split; reflexivity. Qed.

(* ===================================================================== *)
(** * The completion display name *)
(* ===================================================================== *)

Lemma displayName_single_segment (dir seg : string) :
  no_sep "/" seg = true -> seg <> "" ->
  Receiver.displayName [dir ++ "/" ++ seg] = seg.
Proof.
  intros Hno Hne. cbn [Receiver.displayName].
  change (dir ++ "/" ++ seg) with (dir ++ String "/" seg).
  rewrite split_app, (split_no_sep _ _ Hno).
  unfold JS.pop_or. rewrite pop_snoc.
  destruct seg; [congruence|reflexivity].
Qed.

Lemma displayName_single_plain (seg : string) :
  no_sep "/" seg = true -> Receiver.displayName [seg] = seg.
Proof.
  intros Hno. cbn [Receiver.displayName]. rewrite (split_no_sep _ _ Hno).
  destruct seg; reflexivity.
Qed.

Lemma displayName_single_trailing (dir : string) :
  Receiver.displayName [dir ++ "/"] = dir ++ "/".
Proof.
  cbn [Receiver.displayName].
  change (dir ++ "/") with (dir ++ String "/" "").
  rewrite split_app. cbn [JS.split].
  unfold JS.pop_or. rewrite pop_snoc. reflexivity.
Qed.

Lemma displayName_many_folder (seg tail q : string) (rest : list string) :
  no_sep "/" seg = true -> seg <> "" ->
  Receiver.displayName ((seg ++ "/" ++ tail) :: q :: rest) = seg.
Proof.
  intros Hno Hne. cbn [Receiver.displayName].
  change (seg ++ "/" ++ tail) with (seg ++ String "/" tail).
  rewrite split_app, (split_no_sep _ _ Hno).
  pose proof (split_nonempty "/" tail) as Ht.
  destruct (JS.split "/" tail) as [|t ts]; [congruence|].
  cbn. destruct seg; [congruence|reflexivity].
Qed.

Lemma displayName_many_plain (p q : string) (rest : list string) :
  no_sep "/" p = true ->
  Receiver.displayName (p :: q :: rest) = n_files (p :: q :: rest).
Proof.
  intros Hno. cbn [Receiver.displayName]. rewrite (split_no_sep _ _ Hno).
  reflexivity.
Qed.

Lemma displayName_many_rooted (tail q : string) (rest : list string) :
  Receiver.displayName (("/" ++ tail) :: q :: rest)
  = n_files (("/" ++ tail) :: q :: rest).
Proof.
  cbn [Receiver.displayName].
  change ("/" ++ tail) with ("" ++ String "/" tail).
  rewrite split_app. cbn [JS.split app].
  pose proof (split_nonempty "/" tail) as Ht.
  destruct (JS.split "/" tail) as [|t ts]; [congruence|]. reflexivity.
Qed.

(** C2, as the listener computes it.  No file name: the fallback label.
    One path: its last ['/']-segment, and the whole path when that segment
    is empty.  Several paths: only the first path is looked at; when it
    contains a ['/'] and starts with a non-empty segment the name is that
    segment, whatever the other paths are, and otherwise it is
    ["{n} files"]. *)
Theorem displayName_cases :
  Receiver.displayName [] = Receiver.fallback_label /\
  (forall dir seg, no_sep "/" seg = true -> seg <> "" ->
     Receiver.displayName [dir ++ "/" ++ seg] = seg) /\
  (forall seg, no_sep "/" seg = true -> Receiver.displayName [seg] = seg) /\
  (forall dir, Receiver.displayName [dir ++ "/"] = dir ++ "/") /\
  (forall seg tail q rest, no_sep "/" seg = true -> seg <> "" ->
     Receiver.displayName ((seg ++ "/" ++ tail) :: q :: rest) = seg) /\
  (forall p q rest, no_sep "/" p = true ->
     Receiver.displayName (p :: q :: rest) = n_files (p :: q :: rest)) /\
  (forall tail q rest,
     Receiver.displayName (("/" ++ tail) :: q :: rest)
     = n_files (("/" ++ tail) :: q :: rest)).
Proof.
  split; [reflexivity|].
  split; [exact displayName_single_segment|].
  split; [exact displayName_single_plain|].
  split; [exact displayName_single_trailing|].
  split; [exact displayName_many_folder|].
  split; [exact displayName_many_plain|exact displayName_many_rooted].
Qed.

(** Two paths under different folders share no first segment: the
    specification's wording gives ["2 files"], the listener the first
    path's folder. *)
Lemma displayName_differs_from_spec :
  Receiver.displayName ["videos/a.mp4"; "photos/b.jpg"] = "videos" /\
  displayName_spec ["videos/a.mp4"; "photos/b.jpg"] = "2 files" /\
  Receiver.displayName ["videos/a.mp4"; "photos/b.jpg"]
    <> displayName_spec ["videos/a.mp4"; "photos/b.jpg"].
Proof. repeat split; try reflexivity. discriminate. Qed.

(** The four examples of the specification. *)
(** The display name of values that are no array of strings: the length of
    a string counts its UTF-16 units; a number has no [length]; of an object
    the members [length] and [0] are read; [null], and a first element that
    is no string, throw. *)
Example displayName_of_examples :
  Receiver.displayName_of example_runtime (JSON.Str "hello") = Some "5 files" /\
  Receiver.displayName_of example_runtime (JSON.Str "a") = Some "a" /\
  Receiver.displayName_of example_runtime (JSON.Str "") = Some "Downloaded File" /\
  Receiver.displayName_of example_runtime (JSON.Number 7%float)
    = Some "Downloaded File" /\
  Receiver.displayName_of example_runtime
    (JSON.Object [("length", JSON.Number 1%float); ("0", JSON.Str "a/b.txt")])
    = Some "b.txt" /\
  Receiver.displayName_of example_runtime
    (JSON.Object [("length", JSON.Bool true); ("0", JSON.Str "a/b.txt")])
    = Some "a" /\
  Receiver.displayName_of example_runtime
    (JSON.Object [("length", JSON.Null); ("0", JSON.Str "a/b.txt")])
    = Some "Downloaded File" /\
  Receiver.displayName_of example_runtime
    (JSON.Object [("length", JSON.Number 2%float)]) = None /\
  Receiver.displayName_of example_runtime (JSON.Object [("0", JSON.Str "a")])
    = Some "Downloaded File" /\
  Receiver.displayName_of example_runtime JSON.Null = None /\
  Receiver.displayName_of example_runtime
    (JSON.Array [JSON.Number 1%float; JSON.Number 2%float]) = None /\
  Receiver.displayName_of example_runtime
    (JSON.Array [JSON.Str "shared/x.txt"; JSON.Null]) = Some "shared".
Proof. vm_compute. repeat split; reflexivity. Qed.

Example displayName_examples :
  Receiver.displayName [] = "Downloaded File" /\
  Receiver.displayName ["a/b/file.txt"] = "file.txt" /\
  Receiver.displayName ["shared/x.txt"; "shared/y.txt"] = "shared" /\
  Receiver.displayName ["x.txt"; "y.txt"] = "2 files".
Proof. repeat split; reflexivity. Qed.

Example displayName_spec_examples :
  displayName_spec [] = "Downloaded File" /\
  displayName_spec ["a/b/file.txt"] = "file.txt" /\
  displayName_spec ["shared/x.txt"; "shared/y.txt"] = "shared" /\
  displayName_spec ["x.txt"; "y.txt"] = "2 files".
Proof. repeat split; reflexivity. Qed.

(* ===================================================================== *)
(** * The resume indicator and its timers *)
(* ===================================================================== *)

Section ResumeTimers.

Variable rt : runtime.

Local Abbreviation step := (Receiver.step rt).
Local Abbreviation advance := (Receiver.advance rt).
Local Abbreviation deliver := (Receiver.deliver rt).
Local Abbreviation fire_due := (Receiver.fire_due rt).

Lemma render_resumedFrom (old new : Receiver.state) :
  Receiver.resumedFrom (Receiver.render old new) = Receiver.resumedFrom new.
Proof.
  unfold Receiver.render. destruct (Receiver.deps_changed old new);
    destruct new; reflexivity.
Qed.

Lemma resumed_event (st : Receiver.state) (payload : string) :
  Receiver.resumedFrom (fst (step st (Receiver.Ev_receive_resumed payload)))
    = Some (JS.parseInt payload) /\
  snd (step st (Receiver.Ev_receive_resumed payload))
    = [SetTimeout ClearResumedFrom 5000].
Proof.
  unfold Receiver.step. cbn. rewrite render_resumedFrom.
  destruct st; split; reflexivity.
Qed.

Lemma resumed_cleared (st : Receiver.state) :
  Receiver.resumedFrom (fst (step st (Receiver.Timer_fired ClearResumedFrom))) = None.
Proof.
  unfold Receiver.step. cbn. rewrite render_resumedFrom. destruct st; reflexivity.
Qed.

Lemma advance_eq (now : Z) (w : Receiver.world) :
  advance now w
  = Receiver.mkWorld (fst (fire_due now (Receiver.timers w) (Receiver.hook w)))
                     (Z.max (Receiver.clock w) now)
                     (snd (fire_due now (Receiver.timers w) (Receiver.hook w))).
Proof.
  unfold Receiver.advance.
  destruct (Receiver.fire_due rt now (Receiver.timers w) (Receiver.hook w));
    reflexivity.
Qed.

Lemma deliver_eq (now : Z) (i : Receiver.input) (w : Receiver.world) :
  deliver now i w
  = Receiver.mkWorld
      (fst (step (Receiver.hook (advance now w)) i))
      (Receiver.clock (advance now w))
      (Receiver.schedule_all (Receiver.clock (advance now w))
         (snd (step (Receiver.hook (advance now w)) i))
         (Receiver.timers (advance now w))).
Proof.
  unfold Receiver.deliver.
  destruct (Receiver.step rt (Receiver.hook (advance now w)) i); reflexivity.
Qed.

(** The world right after a resume event that met no pending timer. *)
Lemma deliver_resumed_fresh (w : Receiver.world) (t0 : Z) (payload : string) :
  Receiver.timers w = [] -> Receiver.clock w <= t0 ->
  exists st,
    deliver t0 (Receiver.Ev_receive_resumed payload) w
      = Receiver.mkWorld st t0 [(t0 + 5000, ClearResumedFrom)] /\
    Receiver.resumedFrom st = Some (JS.parseInt payload).
Proof.
  intros Ht Hc. rewrite deliver_eq, advance_eq, Ht. cbn [Receiver.fire_due fst snd
    Receiver.hook Receiver.clock Receiver.timers].
  destruct (resumed_event (Receiver.hook w) payload) as [Hr He].
  rewrite He. cbn [Receiver.schedule_all Receiver.schedule].
  rewrite Z.max_r by lia.
  eexists. split; [reflexivity|exact Hr].
Qed.

(** ... and right after a second one that arrives inside the first window:
    both timers are pending. *)
Lemma deliver_resumed_again (st : Receiver.state) (c t0 t1 : Z) (payload : string) :
  c <= t1 -> t0 <= t1 < t0 + 5000 ->
  exists st',
    deliver t1 (Receiver.Ev_receive_resumed payload)
            (Receiver.mkWorld st c [(t0 + 5000, ClearResumedFrom)])
      = Receiver.mkWorld st' t1
          [(t0 + 5000, ClearResumedFrom); (t1 + 5000, ClearResumedFrom)] /\
    Receiver.resumedFrom st' = Some (JS.parseInt payload).
Proof.
  intros Hc Ht. rewrite deliver_eq, advance_eq.
  cbn [Receiver.fire_due fst snd Receiver.hook Receiver.clock Receiver.timers].
  destruct (Z.leb_spec (t0 + 5000) t1) as [Hle|Hgt]; [lia|].
  cbn [fst snd].
  destruct (resumed_event st payload) as [Hr He].
  rewrite He. cbn [Receiver.schedule_all Receiver.schedule].
  destruct (Z.ltb_spec (Z.max c t1 + 5000) (t0 + 5000)) as [Hlt|Hge]; [lia|].
  rewrite Z.max_r by lia.
  eexists. split; [reflexivity|exact Hr].
Qed.

(** C3, as the listener behaves.  A [receive-resumed] event sets the
    indicator and schedules its clearing 5000 ms later; no timer is ever
    cancelled.  After one event at [t0] the indicator is set on
    [[t0, t0+5000)] and cleared from [t0+5000] on.  When a second event
    arrives at [t1] inside that window, its value is shown on
    [[t1, t0+5000)] only: the first event's timer clears it at [t0+5000],
    and it stays cleared. *)
Theorem resume_indicator_windows
  (w : Receiver.world) (t0 t1 : Z) (payload1 payload2 : string) :
  Receiver.timers w = [] ->
  Receiver.clock w <= t0 ->
  t0 <= t1 < t0 + 5000 ->
  let w1 := deliver t0 (Receiver.Ev_receive_resumed payload1) w in
  let w2 := deliver t1 (Receiver.Ev_receive_resumed payload2) w1 in
  (forall t, t0 <= t < t0 + 5000 ->
     indicator_at rt t w1 = Some (JS.parseInt payload1)) /\
  (forall t, t0 + 5000 <= t -> indicator_at rt t w1 = None) /\
  (forall t, t1 <= t < t0 + 5000 ->
     indicator_at rt t w2 = Some (JS.parseInt payload2)) /\
  (forall t, t0 + 5000 <= t -> indicator_at rt t w2 = None).
Proof.
  intros Hts Hc Ht w1 w2.
  destruct (deliver_resumed_fresh w t0 payload1 Hts Hc) as (st1 & Hw1 & Hr1).
  destruct (deliver_resumed_again st1 t0 t0 t1 payload2 (proj1 Ht) Ht)
    as (st2 & Hw2 & Hr2).
  subst w2. subst w1. rewrite Hw1, Hw2. unfold indicator_at.
  repeat split; intros t Hrange; rewrite advance_eq;
    cbn [Receiver.fire_due fst snd Receiver.hook Receiver.clock Receiver.timers].
  - destruct (Z.leb_spec (t0 + 5000) t); [lia|]. exact Hr1.
  - destruct (Z.leb_spec (t0 + 5000) t); [|lia]. cbn. apply resumed_cleared.
  - destruct (Z.leb_spec (t0 + 5000) t); [lia|]. exact Hr2.
  - destruct (Z.leb_spec (t0 + 5000) t); [|lia].
    destruct (Z.leb_spec (t1 + 5000) t); cbn; apply resumed_cleared.
Qed.

End ResumeTimers.

Lemma resume_indicator_windows_witness :
  (forall t, 0 <= t < 0 + 5000 ->
     indicator_at example_runtime t
       (Receiver.deliver example_runtime 0 (Receiver.Ev_receive_resumed "100")
          Receiver.boot) = Some (JS.parseInt "100")) /\
  (forall t, 0 + 5000 <= t ->
     indicator_at example_runtime t
       (Receiver.deliver example_runtime 0 (Receiver.Ev_receive_resumed "100")
          Receiver.boot) = None) /\
  (forall t, 3000 <= t < 0 + 5000 ->
     indicator_at example_runtime t
       (Receiver.deliver example_runtime 3000 (Receiver.Ev_receive_resumed "200")
          (Receiver.deliver example_runtime 0 (Receiver.Ev_receive_resumed "100")
             Receiver.boot)) = Some (JS.parseInt "200")) /\
  (forall t, 0 + 5000 <= t ->
     indicator_at example_runtime t
       (Receiver.deliver example_runtime 3000 (Receiver.Ev_receive_resumed "200")
          (Receiver.deliver example_runtime 0 (Receiver.Ev_receive_resumed "100")
             Receiver.boot)) = None).
Proof.
  apply (resume_indicator_windows example_runtime Receiver.boot 0 3000 "100" "200").
  - reflexivity.
  - cbn. lia.
  - lia.
Defined.

(** The second event arrives at 3000 ms and is shown at 4999 ms; at 6000 ms,
    two seconds before its own window ends, the indicator is gone: the timer
    of the first event has fired at 5000 ms. *)
Lemma resume_window_not_restarted :
  indicator_at example_runtime 4999 two_resumes = Some 200%float /\
  indicator_at example_runtime 6000 two_resumes = None /\
  6000 < 3000 + 5000.
Proof. vm_compute. repeat split; reflexivity. Qed.

(* ===================================================================== *)
(** * The analytics observation *)
(* ===================================================================== *)

Lemma sender_no_analytics (st : Sender.state) (i : Sender.input) :
  filter is_analytics (snd (Sender.step st i)) = [].
Proof.
  destruct i; cbn; try reflexivity.
  - unfold Sender.on_import_progress.
    destruct (three_parts payload) as [[[p0 p1] p2]|]; reflexivity.
  - unfold Sender.on_transfer_progress.
    destruct (three_parts payload) as [[[p0 p1] p2]|]; reflexivity.
  - unfold Sender.on_transfer_completed.
    destruct (Sender.truthy_path (Sender.selectedPath st)); reflexivity.
  - unfold Sender.startSharing.
    destruct (Sender.truthy_path (Sender.selectedPath st)); reflexivity.
  - unfold Sender.copyTicket.
    destruct (Sender.ticket st) as [t|]; [destruct (JS.truthy_str t)|]; reflexivity.
  - destruct cb; reflexivity.
Qed.

Lemma sender_run_no_analytics (ins : list Sender.input) (st : Sender.state) :
  filter is_analytics (snd (Sender.run st ins)) = [].
Proof.
  revert st. induction ins as [|i rest IH]; intros st; cbn; [reflexivity|].
  pose proof (sender_no_analytics st i) as Hi.
  destruct (Sender.step st i) as [st1 e1]. cbn in Hi.
  specialize (IH st1). destruct (Sender.run st1 rest) as [st2 e2]. cbn in *.
  rewrite filter_app, Hi, IH. reflexivity.
Qed.


Section Analytics.

Variable rt : runtime.

(** On the array of strings the file names are declared to be, the display
    name is computed, by the statements as they read. *)
Lemma displayName_of_strings (paths : list string) :
  Receiver.displayName_of rt (JSON.Array (map JSON.Str paths))
  = Some (Receiver.displayName paths).
Proof.
  destruct paths as [|p rest]; [reflexivity|].
  cbn [map Receiver.displayName_of]. do 2 f_equal.
  cbn [map Receiver.path_of]. f_equal.
  rewrite map_map. apply map_id.
Qed.

Lemma receiver_completed_effects
  (st : Receiver.state) (now : JS.number) (gc : goatcounter) :
  snd (Receiver.step rt st (Receiver.Ev_receive_completed now gc))
  = match Receiver.displayName_of rt (Receiver.fileNamesRef st) with
    | Some _ =>
        trackDataTransfer gc (Receiver.fileSize_of (Receiver.transferProgressRef st))
    | None => [Uncaught_in_promise "TypeError"]
    end.
Proof.
  unfold Receiver.step. cbn [Receiver.handle].
  unfold Receiver.on_receive_completed.
  destruct (Receiver.displayName_of rt (Receiver.fileNamesRef st)); reflexivity.
Qed.

Lemma receiver_completed_state
  (st : Receiver.state) (now : JS.number) (gc : goatcounter) :
  let st' := fst (Receiver.step rt st (Receiver.Ev_receive_completed now gc)) in
  Receiver.isCompleted st' = true /\
  Receiver.isTransporting st' = false /\
  Receiver.transferProgress st' = None /\
  Receiver.transferMetadata st'
  = match Receiver.displayName_of rt (Receiver.fileNamesRef st) with
    | Some name => Some (Receiver.metadata_of name now st)
    | None => Receiver.transferMetadata st
    end.
Proof.
  unfold Receiver.step. cbn [Receiver.handle].
  unfold Receiver.on_receive_completed.
  destruct (Receiver.displayName_of rt (Receiver.fileNamesRef st));
    cbn [fst]; unfold Receiver.render;
    match goal with |- context [if ?b then _ else _] => destruct b end;
    destruct st; cbn; repeat split; reflexivity.
Qed.



End Analytics.

(** Scenario A of the specification. *)
Example sender_session_metadata :
  Sender.transferMetadata (fst (Sender.run Sender.init sender_session))
  = Some (mkMetadata "video.mp4" 2000000%float 2000%float 1000%float 3000%float None) /\
  filter is_engine_command (snd (Sender.run Sender.init sender_session))
  = [Invoke_start_sharing "/tmp/video.mp4";
     Invoke_get_file_size
       (mkCompletion "/tmp/video.mp4" (Some 1000%float) 3000%float)].
Proof. vm_compute. split; reflexivity. Qed.


(** A receiver session whose file names arrived as [null]: it is completed,
    without metadata and without an analytics observation. *)
Example completed_without_metadata :
  Receiver.fileNamesRef
    (fst (Receiver.run example_runtime Receiver.init receiver_null_names))
    = JSON.Null /\
  Receiver.isCompleted
    (fst (Receiver.run example_runtime Receiver.init receiver_null_names))
    = true /\
  Receiver.transferMetadata
    (fst (Receiver.run example_runtime Receiver.init receiver_null_names))
    = None /\
  filter is_analytics
    (snd (Receiver.run example_runtime Receiver.init receiver_null_names)) = [] /\
  In (Uncaught_in_promise "TypeError")
    (snd (Receiver.run example_runtime Receiver.init receiver_null_names)).
Proof. vm_compute. repeat split; try reflexivity. auto 10. Qed.

Example receiver_session_analytics :
  filter is_analytics
    (snd (Receiver.run example_runtime Receiver.init receiver_session))
  = [Goatcounter_count "data-transferred" 2000000%float (size_mb 2000000%float)].
Proof. vm_compute. reflexivity. Qed.

(* ===================================================================== *)
(** * Malformed event payloads *)
(* ===================================================================== *)

Lemma sender_import_progress_dropped (payload : string) (st : Sender.state) :
  three_parts payload = None ->
  Sender.step st (Sender.Ev_import_progress payload) = (st, []).
Proof.
  intros H. cbn. unfold Sender.on_import_progress. rewrite H. reflexivity.
Qed.

Lemma sender_event_keeps_alert (st : Sender.state) (i : Sender.input) :
  sender_is_event i = true ->
  Sender.alertDialog (fst (Sender.step st i)) = Sender.alertDialog st.
Proof.
  intros Hi. destruct i; try discriminate Hi; cbn.
  - destruct st; reflexivity.
  - destruct st; reflexivity.
  - unfold Sender.on_import_progress.
    destruct (three_parts payload) as [[[p0 p1] p2]|]; destruct st; reflexivity.
  - destruct st; reflexivity.
  - destruct st; reflexivity.
  - unfold Sender.on_transfer_progress.
    destruct (three_parts payload) as [[[p0 p1] p2]|]; destruct st; reflexivity.
  - unfold Sender.on_transfer_completed.
    destruct (Sender.truthy_path (Sender.selectedPath st)); destruct st; reflexivity.
Qed.

Section Malformed.

Variable rt : runtime.

Lemma render_alertDialog (old new : Receiver.state) :
  Receiver.alertDialog (Receiver.render old new) = Receiver.alertDialog new.
Proof.
  unfold Receiver.render. destruct (Receiver.deps_changed old new);
    destruct new; reflexivity.
Qed.

Lemma receiver_export_progress_dropped (payload : string) (st : Receiver.state) :
  three_parts payload = None -> refs_mirror st ->
  Receiver.step rt st (Receiver.Ev_export_progress payload) = (st, []).
Proof.
  intros H Hm. unfold Receiver.step. cbn. unfold Receiver.on_export_progress.
  rewrite H, (render_same st Hm). reflexivity.
Qed.

Lemma receiver_file_names_dropped (payload : string) (st : Receiver.state) :
  JSON_parse rt payload = None -> refs_mirror st ->
  Receiver.step rt st (Receiver.Ev_receive_file_names payload)
  = (st, [ConsoleError "Failed to parse file names event:" None]).
Proof.
  intros H Hm. unfold Receiver.step. cbn. unfold Receiver.on_receive_file_names.
  rewrite H, (render_same st Hm). reflexivity.
Qed.

Lemma receiver_event_keeps_alert (st : Receiver.state) (i : Receiver.input) :
  receiver_is_event i = true ->
  Receiver.alertDialog (fst (Receiver.step rt st i)) = Receiver.alertDialog st.
Proof.
  intros Hi. unfold Receiver.step.
  destruct (Receiver.handle rt st i) as [st' eff] eqn:Hh.
  cbn [fst]. rewrite render_alertDialog.
  destruct i; try discriminate Hi; cbn in Hh.
  - injection Hh as <- _. destruct st; reflexivity.
  - injection Hh as <- _. destruct st; reflexivity.
  - unfold Receiver.on_receive_progress in Hh.
    destruct (three_parts payload) as [[[p0 p1] p2]|];
      injection Hh as <- _; destruct st; reflexivity.
  - unfold Receiver.on_receive_file_names in Hh.
    destruct (JSON_parse rt payload);
      injection Hh as <- _; destruct st; reflexivity.
  - injection Hh as <- _. destruct st; reflexivity.
  - unfold Receiver.on_export_progress in Hh.
    destruct (three_parts payload) as [[[p0 p1] p2]|];
      injection Hh as <- _; destruct st; reflexivity.
  - injection Hh as <- _. destruct st; reflexivity.
  - unfold Receiver.on_receive_completed in Hh.
    destruct (Receiver.displayName_of rt (Receiver.fileNamesRef st));
      injection Hh as <- _; destruct st; reflexivity.
Qed.

(** C7, as the listeners behave.  A progress payload ([import-progress],
    [transfer-progress], [receive-progress], [export-progress]) that does not
    have exactly 3 [':']-fields is dropped without a log line, and a
    [receive-file-names] payload that [JSON.parse] rejects is logged with
    [console.error] and dropped: the state stays as it was.  No engine event
    touches the alert.  Text in an integer position is not checked:
    [import-file-count] stores [parseInt(payload)], NaN included, as the
    import total. *)
Theorem malformed_events :
  (forall (payload : string) (sst : Sender.state) (rst : Receiver.state),
     List.length (JS.split ":" payload) <> 3%nat -> refs_mirror rst ->
     Sender.step sst (Sender.Ev_import_progress payload) = (sst, []) /\
     Sender.step sst (Sender.Ev_transfer_progress payload) = (sst, []) /\
     Receiver.step rt rst (Receiver.Ev_receive_progress payload) = (rst, []) /\
     Receiver.step rt rst (Receiver.Ev_export_progress payload) = (rst, [])) /\
  (forall (payload : string) (rst : Receiver.state),
     JSON_parse rt payload = None -> refs_mirror rst ->
     Receiver.step rt rst (Receiver.Ev_receive_file_names payload)
     = (rst, [ConsoleError "Failed to parse file names event:" None])) /\
  (forall (sst : Sender.state) (i : Sender.input),
     sender_is_event i = true ->
     Sender.alertDialog (fst (Sender.step sst i)) = Sender.alertDialog sst) /\
  (forall (rst : Receiver.state) (i : Receiver.input),
     receiver_is_event i = true ->
     Receiver.alertDialog (fst (Receiver.step rt rst i))
     = Receiver.alertDialog rst) /\
  (forall (payload : string) (sst : Sender.state),
     Sender.step sst (Sender.Ev_import_file_count payload)
     = (Sender.setImportProgress
          (Some (Sender.mkImport 0%float (JS.parseInt payload) 0%float)) sst, [])).
Proof.
  split; [|split; [|split; [|split]]].
  - intros payload sst rst Hlen Hm. apply three_parts_None in Hlen.
    split; [apply sender_import_progress_dropped, Hlen|].
    split; [apply sender_progress_dropped, Hlen|].
    split; [apply receiver_progress_dropped; assumption|].
    apply receiver_export_progress_dropped; assumption.
  - exact receiver_file_names_dropped.
  - exact sender_event_keeps_alert.
  - exact receiver_event_keeps_alert.
  - reflexivity.
Qed.

End Malformed.

(** [import-file-count] with text that is no number is not dropped: the
    import progress is created, with NaN as its total. *)
Lemma non_numeric_count_mutates :
  Sender.importProgress Sender.init = None /\
  Sender.importProgress
    (fst (Sender.step Sender.init (Sender.Ev_import_file_count "abc")))
    = Some (Sender.mkImport 0%float PrimFloat.nan 0%float) /\
  fst (Sender.step Sender.init (Sender.Ev_import_file_count "abc")) <> Sender.init.
Proof. vm_compute. repeat split; try reflexivity. discriminate. Qed.

(** [parseInt] never throws, so the [catch] of the [export-started] listener
    never runs. *)
Example non_numeric_export_started :
  Receiver.isExporting
    (fst (Receiver.step example_runtime Receiver.init
            (Receiver.Ev_export_started "abc"))) = true /\
  Receiver.exportProgress
    (fst (Receiver.step example_runtime Receiver.init
            (Receiver.Ev_export_started "abc")))
  = Some (Receiver.mkExport 0%float PrimFloat.nan 0%float).
Proof. vm_compute. split; reflexivity. Qed.

Example malformed_events_examples :
  Sender.step sender_mid_transfer (Sender.Ev_import_progress "1:2")
    = (sender_mid_transfer, []) /\
  Receiver.step example_runtime receiver_mid_transfer
                (Receiver.Ev_export_progress "1:2:3:4")
    = (receiver_mid_transfer, []) /\
  Receiver.step example_runtime receiver_mid_transfer
                (Receiver.Ev_receive_file_names "[a.txt")
    = (receiver_mid_transfer, [ConsoleError "Failed to parse file names event:" None]).
Proof.
  assert (Hm : refs_mirror receiver_mid_transfer)
    by (apply (reachable_mirrors example_runtime); eexists; reflexivity).
  split; [|split].
  - apply sender_import_progress_dropped. reflexivity.
  - apply receiver_export_progress_dropped; [reflexivity|exact Hm].
  - apply receiver_file_names_dropped; [reflexivity|exact Hm].
Qed.

(* ===================================================================== *)
(** * [handleReceive] *)
(* ===================================================================== *)

Section HandleReceive.

Variable rt : runtime.










End HandleReceive.



(** A ticket of no-break and ideographic spaces is blank too. *)
Example handleReceive_nbsp_ticket :
  snd (Receiver.step example_runtime
         (fst (Receiver.step example_runtime Receiver.init
                 (Receiver.Call_handleTicketChange (nbsp ++ ideographic_space))))
         Receiver.Call_handleReceive)
  = [ConsoleWarn "No ticket provided for receive" None] /\
  snd (Receiver.step example_runtime
         (fst (Receiver.step example_runtime Receiver.init
                 (Receiver.Call_handleTicketChange (nbsp ++ "T1" ++ nbsp))))
         Receiver.Call_handleReceive)
  = [Invoke_receive_file "T1" ""].
Proof. vm_compute. split; reflexivity. Qed.

Example handleReceive_blank_ticket :
  Receiver.step example_runtime
    (fst (Receiver.step example_runtime Receiver.init
            (Receiver.Call_handleTicketChange "   ")))
    Receiver.Call_handleReceive
  = (fst (Receiver.step example_runtime Receiver.init
            (Receiver.Call_handleTicketChange "   ")),
     [ConsoleWarn "No ticket provided for receive" None]).
Proof. vm_compute. reflexivity. Qed.

(* ===================================================================== *)
(** * The metadata of a completed receive *)
(* ===================================================================== *)

Section ReceiveCompleted.

Variable rt : runtime.

(** What [receive-completed] leaves: the session is completed and the
    progress snapshot is cleared; when the display name of the retained file
    names is computed, the metadata is built from it, from the last
    snapshot's total (0 without one) and from the [savePath] the installed
    listeners hold; when computing it throws, the metadata is left as it
    was. *)
Lemma receive_completed_metadata
  (st : Receiver.state) (now : JS.number) (gc : goatcounter) :
  refs_mirror st ->
  let st' := fst (Receiver.step rt st (Receiver.Ev_receive_completed now gc)) in
  Receiver.isCompleted st' = true /\
  Receiver.isTransporting st' = false /\
  Receiver.transferProgress st' = None /\
  match Receiver.displayName_of rt (Receiver.fileNames st) with
  | Some name =>
      exists m : TransferMetadata,
        Receiver.transferMetadata st' = Some m /\
        fileSize m = match Receiver.transferProgress st with
                     | Some p => JS.or_num (totalBytes p) 0%float
                     | None => 0%float
                     end /\
        fileName m = name /\
        downloadPath m = Some (Receiver.listenerSavePath st)
  | None => Receiver.transferMetadata st' = Receiver.transferMetadata st
  end.
Proof.
  intros (H1 & H2 & H3) st'. subst st'.
  pose proof (receiver_completed_state rt st now gc) as (Hc & Ht & Hp & Hm).
  cbn zeta in *. rewrite H1 in Hm.
  split; [exact Hc|]. split; [exact Ht|]. split; [exact Hp|].
  destruct (Receiver.displayName_of rt (Receiver.fileNames st)) as [name|];
    [|exact Hm].
  eexists. split; [exact Hm|].
  cbn [fileSize fileName downloadPath Receiver.metadata_of].
  unfold Receiver.fileSize_of. rewrite H2. repeat split.
Qed.

(** Arrays of strings: the display name is the one of [displayName], the
    fallback label without any file name. *)
Lemma receive_completed_names
  (st : Receiver.state) (now : JS.number) (gc : goatcounter)
  (paths : list string) :
  refs_mirror st ->
  Receiver.fileNames st = JSON.Array (map JSON.Str paths) ->
  option_map fileName
    (Receiver.transferMetadata
       (fst (Receiver.step rt st (Receiver.Ev_receive_completed now gc))))
  = Some (Receiver.displayName paths).
Proof.
  intros Hm Hn.
  pose proof (receive_completed_metadata st now gc Hm) as (_ & _ & _ & H).
  rewrite Hn, displayName_of_strings in H.
  destruct H as (m & -> & _ & <- & _). reflexivity.
Qed.

(** The listeners hold the current [savePath] after every input that
    changes [transferStartTime] or [transferProgress]. *)
Lemma listeners_refreshed (st : Receiver.state) (i : Receiver.input) :
  Receiver.deps_changed st (fst (Receiver.handle rt st i)) = true ->
  Receiver.listenerSavePath (fst (Receiver.step rt st i))
  = Receiver.savePath (fst (Receiver.step rt st i)).
Proof.
  intros H. unfold Receiver.step.
  destruct (Receiver.handle rt st i) as [st' eff]. cbn [fst] in *.
  unfold Receiver.render. rewrite H. destruct st'; reflexivity.
Qed.

Lemma render_savePath (old new : Receiver.state) :
  Receiver.savePath (Receiver.render old new) = Receiver.savePath new.
Proof.
  unfold Receiver.render. destruct (Receiver.deps_changed old new);
    destruct new; reflexivity.
Qed.

Lemma handle_keeps_savePath (st : Receiver.state) (i : Receiver.input) :
  sets_save_path i = false ->
  Receiver.savePath (fst (Receiver.handle rt st i)) = Receiver.savePath st.
Proof.
  intros Hi. destruct i; try discriminate Hi; cbn.
  - destruct st; reflexivity.
  - destruct st; reflexivity.
  - unfold Receiver.on_receive_progress.
    destruct (three_parts payload) as [[[p0 p1] p2]|]; destruct st; reflexivity.
  - unfold Receiver.on_receive_file_names.
    destruct (JSON_parse rt payload); destruct st; reflexivity.
  - destruct st; reflexivity.
  - unfold Receiver.on_export_progress.
    destruct (three_parts payload) as [[[p0 p1] p2]|]; destruct st; reflexivity.
  - destruct st; reflexivity.
  - unfold Receiver.on_receive_completed.
    destruct (Receiver.displayName_of rt (Receiver.fileNamesRef st));
      destruct st; reflexivity.
  - destruct cb; destruct st; reflexivity.
  - destruct st; reflexivity.
  - reflexivity.
  - destruct st; reflexivity.
  - unfold Receiver.handleReceive.
    destruct (JS.truthy_str (JS.trim (Receiver.ticket st)));
      destruct st; reflexivity.
  - reflexivity.
  - destruct st; reflexivity.
  - destruct st; reflexivity.
  - destruct st; reflexivity.
  - destruct st; reflexivity.
Qed.

(** No handler writes the closure of the installed listeners. *)
Lemma handle_keeps_listeners (st : Receiver.state) (i : Receiver.input) :
  Receiver.listenerSavePath (fst (Receiver.handle rt st i))
  = Receiver.listenerSavePath st.
Proof.
  destruct i; cbn;
    unfold Receiver.on_receive_progress, Receiver.on_export_progress,
      Receiver.on_receive_file_names, Receiver.handleBrowseFolder_resolved,
      Receiver.handleReceive, Receiver.on_timer, Receiver.on_receive_completed;
    repeat match goal with
    | |- context [three_parts ?p] => destruct (three_parts p) as [[[? ?] ?]|]
    | |- context [JSON_parse rt ?p] => destruct (JSON_parse rt p)
    | |- context [Receiver.displayName_of rt ?v] =>
        destruct (Receiver.displayName_of rt v)
    | |- context [JS.truthy_str ?x] => destruct (JS.truthy_str x)
    | |- context [match ?o with Some _ => _ | None => _ end] => destruct o
    | |- context [match ?cb with ClearCopySuccess => _ | ClearResumedFrom => _ end] =>
        destruct cb
    end;
    destruct st; reflexivity.
Qed.

Lemma render_listeners (old new : Receiver.state) :
  Receiver.listenerSavePath (Receiver.render old new)
  = if Receiver.deps_changed old new
    then Receiver.savePath new
    else Receiver.listenerSavePath new.
Proof.
  unfold Receiver.render. destruct (Receiver.deps_changed old new);
    destruct new; reflexivity.
Qed.

(** Listeners that hold the current [savePath] keep holding it until an
    input sets [savePath]. *)
Lemma listeners_stay_current (st : Receiver.state) (i : Receiver.input) :
  sets_save_path i = false ->
  Receiver.listenerSavePath st = Receiver.savePath st ->
  Receiver.listenerSavePath (fst (Receiver.step rt st i))
  = Receiver.savePath (fst (Receiver.step rt st i)).
Proof.
  intros Hi Hcur. unfold Receiver.step.
  pose proof (handle_keeps_savePath st i Hi) as Hk.
  pose proof (handle_keeps_listeners st i) as Hl.
  destruct (Receiver.handle rt st i) as [st' eff]. cbn [fst] in *.
  rewrite render_savePath, render_listeners.
  destruct (Receiver.deps_changed st st'); [reflexivity|congruence].
Qed.

End ReceiveCompleted.

(** C9 at the end of scenario B: completed, progress cleared, the fallback
    label, the last total and the save path in use. *)
Example receiver_session_metadata :
  Receiver.isCompleted
    (fst (Receiver.run example_runtime Receiver.init receiver_session)) = true /\
  Receiver.transferProgress
    (fst (Receiver.run example_runtime Receiver.init receiver_session)) = None /\
  Receiver.transferMetadata
    (fst (Receiver.run example_runtime Receiver.init receiver_session))
  = Some (mkMetadata "Downloaded File" 2000000%float 3000%float 1000%float
                     4000%float (Some "/home/user/Downloads")).
Proof. vm_compute. repeat split; reflexivity. Qed.

(** C9 where it fails.  The folder is changed while the files are exported,
    after the last progress tick; the listeners were installed before that
    and the metadata names the folder they hold, not the configured one. *)
Theorem stale_save_path :
  Receiver.savePath
    (fst (Receiver.run example_runtime Receiver.init receiver_folder_changed))
    = "/mnt/usb" /\
  option_map downloadPath
    (Receiver.transferMetadata
       (fst (Receiver.run example_runtime Receiver.init receiver_folder_changed)))
    = Some (Some "/home/user/Downloads").
Proof. vm_compute. split; reflexivity. Qed.

(* ===================================================================== *)
(** * A sender completion without a selected path *)
(* ===================================================================== *)

(** C10.  When [transfer-completed] arrives while no path is selected, the
    session is completed and the progress snapshot cleared; no other cell
    changes, so [transferMetadata] keeps its value, and the listener has no
    effect: no [get_file_size] is invoked. *)
Theorem completed_without_path (st : Sender.state) (now : JS.number) :
  Sender.selectedPath st = None ->
  Sender.step st (Sender.Ev_transfer_completed now)
    = (st |> Sender.setIsTransporting false |> Sender.setIsCompleted true
          |> Sender.setTransferProgress None, []) /\
  Sender.isCompleted (fst (Sender.step st (Sender.Ev_transfer_completed now))) = true /\
  Sender.isTransporting (fst (Sender.step st (Sender.Ev_transfer_completed now))) = false /\
  Sender.transferProgress (fst (Sender.step st (Sender.Ev_transfer_completed now))) = None /\
  Sender.transferMetadata (fst (Sender.step st (Sender.Ev_transfer_completed now)))
    = Sender.transferMetadata st /\
  filter is_engine_command (snd (Sender.step st (Sender.Ev_transfer_completed now))) = [].
Proof.
  intros Hp. cbn. unfold Sender.on_transfer_completed. rewrite Hp. cbn.
  destruct st; cbn. repeat split; reflexivity.
Qed.

Lemma completed_without_path_witness :
  Sender.transferProgress sender_no_path
    = Some (mkProgress 1000000 2000000 500 50)%float /\
  Sender.transferProgress
    (fst (Sender.step sender_no_path (Sender.Ev_transfer_completed 3000%float))) = None /\
  Sender.transferMetadata
    (fst (Sender.step sender_no_path (Sender.Ev_transfer_completed 3000%float))) = None /\
  snd (Sender.step sender_no_path (Sender.Ev_transfer_completed 3000%float)) = [].
Proof.
  assert (Hp : Sender.selectedPath sender_no_path = None) by reflexivity.
  pose proof (completed_without_path sender_no_path 3000%float Hp)
    as (Hstep & _ & _ & Hprog & Hmeta & _).
  split; [vm_compute; reflexivity|].
  split; [exact Hprog|].
  split; [rewrite Hmeta; reflexivity|].
  rewrite Hstep. reflexivity.
Defined.

(** The empty string is no path either. *)
Example completed_with_empty_path :
  snd (Sender.run Sender.init
         [Sender.Call_handleFileSelect ""; Sender.Ev_transfer_completed 3000%float])
  = [].
Proof. reflexivity. Qed.

(* ===================================================================== *)
(** * Reset *)
(* ===================================================================== *)

Lemma receiver_reset_fields
  (rt : runtime) (st : Receiver.state) :
  receiver_fields_initial
    (fst (Receiver.step rt st Receiver.Call_resetForNewTransfer)) /\
  snd (Receiver.step rt st Receiver.Call_resetForNewTransfer) = [].
Proof.
  unfold Receiver.step. cbn. unfold Receiver.render, receiver_fields_initial.
  match goal with |- context [if ?b then _ else _] => destruct b end;
    destruct st; cbn; repeat split; reflexivity.
Qed.

Lemma sender_stop_resolved_fields (st : Sender.state) :
  sender_fields_initial (fst (Sender.step st Sender.Stop_sharing_resolved)).
Proof. destruct st; cbn. repeat split; reflexivity. Qed.

(** C1, as the hooks behave.  The receiver's [resetForNewTransfer] contacts
    nobody and, from any state, leaves progress, export progress, metadata,
    ticket and file names at their initial values.  The sender's
    [stopSharing] first invokes [stop_sharing] and changes nothing; when the
    command succeeds, progress, import progress, metadata, ticket and
    selected path are back at their initial values; when it fails, the alert
    is opened and every other cell keeps its value. *)
Theorem reset_returns_fields (rt : runtime) :
  (forall rst : Receiver.state,
     receiver_fields_initial
       (fst (Receiver.step rt rst Receiver.Call_resetForNewTransfer)) /\
     snd (Receiver.step rt rst Receiver.Call_resetForNewTransfer) = []) /\
  (forall sst : Sender.state,
     Sender.step sst Sender.Call_stopSharing = (sst, [Invoke_stop_sharing])) /\
  (forall sst : Sender.state,
     sender_fields_initial (fst (Sender.step sst Sender.Stop_sharing_resolved))) /\
  (forall (sst : Sender.state) (error : string),
     fst (Sender.step sst (Sender.Stop_sharing_rejected error))
     = Sender.setAlertDialog
         (mkAlert true "Stop Sharing Failed" ("Failed to stop sharing: " ++ error) "error")
         sst).
Proof.
  split; [apply receiver_reset_fields|].
  split; [reflexivity|].
  split; [apply sender_stop_resolved_fields|reflexivity].
Qed.

(** A sender that is sharing and transporting calls [stopSharing]; the
    command fails: ticket, selected path and progress are all still there. *)
Lemma failed_stop_keeps_fields :
  Sender.reachable (fst (Sender.run Sender.init sender_failed_stop)) /\
  Sender.ticket (fst (Sender.run Sender.init sender_failed_stop)) = Some "T1" /\
  Sender.selectedPath (fst (Sender.run Sender.init sender_failed_stop))
    = Some "/tmp/video.mp4" /\
  Sender.transferProgress (fst (Sender.run Sender.init sender_failed_stop))
    = Some (mkProgress 1000000 2000000 500 50)%float /\
  ~ sender_fields_initial (fst (Sender.run Sender.init sender_failed_stop)).
Proof.
  split; [eexists; reflexivity|].
  split; [reflexivity|]. split; [reflexivity|].
  split; [vm_compute; reflexivity|].
  intros (_ & _ & _ & Ht & _). vm_compute in Ht. discriminate.
Qed.

Example reset_after_sessions :
  sender_fields_initial
    (fst (Sender.run Sender.init
            (sender_session ++ [Sender.Call_stopSharing; Sender.Stop_sharing_resolved]))) /\
  receiver_fields_initial
    (fst (Receiver.run example_runtime Receiver.init
            (receiver_session ++ [Receiver.Call_resetForNewTransfer]))).
Proof. vm_compute. repeat split; reflexivity. Qed.

(* ===================================================================== *)
(** * The wire format of the progress events *)
(* ===================================================================== *)

Lemma unsplit_split (sep : ascii) (s : string) :
  unsplit sep (JS.split sep s) = s.
Proof.
  induction s as [|c s IH]; [reflexivity|]. cbn [JS.split].
  destruct (Ascii.eqb_spec c sep) as [->|Hne].
  - pose proof (split_nonempty sep s) as Hn.
    cbn [unsplit]. destruct (JS.split sep s) eqn:E; [congruence|].
    cbn. rewrite <- IH. reflexivity.
  - pose proof (split_nonempty sep s) as Hn.
    destruct (JS.split sep s) as [|hd tl] eqn:E; [congruence|].
    rewrite <- IH. destruct tl; reflexivity.
Qed.

Lemma split_parts_no_sep (sep : ascii) (s : string) :
  Forall (fun p => no_sep sep p = true) (JS.split sep s).
Proof.
  induction s as [|c s IH]; cbn [JS.split].
  - constructor; [reflexivity|constructor].
  - destruct (Ascii.eqb c sep) eqn:Ec.
    + constructor; [reflexivity|exact IH].
    + destruct (JS.split sep s) as [|hd tl]; [repeat constructor; cbn; now rewrite Ec|].
      inversion IH as [|? ? Hhd Htl]; subst.
      constructor; [cbn; rewrite Ec, Hhd; reflexivity|exact Htl].
Qed.

Lemma three_parts_colon3 (a b c : string) :
  no_sep ":" a = true -> no_sep ":" b = true -> no_sep ":" c = true ->
  three_parts (colon3 a b c) = Some (a, b, c).
Proof.
  intros Ha Hb Hc. unfold three_parts, colon3.
  change (a ++ ":" ++ b ++ ":" ++ c) with (a ++ String ":" (b ++ String ":" c)).
  rewrite !split_app, (split_no_sep _ _ Ha), (split_no_sep _ _ Hb),
    (split_no_sep _ _ Hc). reflexivity.
Qed.

Lemma three_parts_shape (payload a b c : string) :
  three_parts payload = Some (a, b, c) ->
  payload = colon3 a b c /\
  no_sep ":" a = true /\ no_sep ":" b = true /\ no_sep ":" c = true.
Proof.
  unfold three_parts. intros H.
  pose proof (unsplit_split ":" payload) as Hu.
  pose proof (split_parts_no_sep ":" payload) as Hf.
  destruct (JS.split ":" payload) as [|x [|y [|z [|w l]]]]; try discriminate.
  injection H as -> -> ->.
  pose proof (Forall_inv Hf) as Ha.
  pose proof (Forall_inv (Forall_inv_tail Hf)) as Hb.
  pose proof (Forall_inv (Forall_inv_tail (Forall_inv_tail Hf))) as Hc.
  cbn beta in Ha, Hb, Hc.
  split; [symmetry; exact Hu|]. auto.
Qed.

(** X1.  The four progress listeners accept exactly the payloads [a:b:c]
    whose three fields contain no [':'] (empty fields included), and then
    hand [a], [b] and [c] to [parseInt]: a payload that changes the state or
    has any effect has this shape, and a payload of this shape stores the
    parsed fields. *)
Theorem progress_wire_format (rt : runtime) :
  (forall (payload : string) (sst : Sender.state) (rst : Receiver.state),
     refs_mirror rst ->
     (Sender.step sst (Sender.Ev_import_progress payload) <> (sst, []) \/
      Sender.step sst (Sender.Ev_transfer_progress payload) <> (sst, []) \/
      Receiver.step rt rst (Receiver.Ev_receive_progress payload) <> (rst, []) \/
      Receiver.step rt rst (Receiver.Ev_export_progress payload) <> (rst, [])) ->
     exists a b c,
       payload = colon3 a b c /\
       no_sep ":" a = true /\ no_sep ":" b = true /\ no_sep ":" c = true) /\
  (forall (a b c : string) (sst : Sender.state) (rst : Receiver.state),
     no_sep ":" a = true -> no_sep ":" b = true -> no_sep ":" c = true ->
     Sender.importProgress
       (fst (Sender.step sst (Sender.Ev_import_progress (colon3 a b c))))
       = Some (Sender.mkImport (JS.parseInt a) (JS.parseInt b) (JS.parseInt c)) /\
     Sender.transferProgress
       (fst (Sender.step sst (Sender.Ev_transfer_progress (colon3 a b c))))
       = Some (mkProgress (JS.parseInt a) (JS.parseInt b)
                 (JS.parseInt c / 1000)%float
                 (percentage_of (JS.parseInt a) (JS.parseInt b))) /\
     Receiver.transferProgress
       (fst (Receiver.step rt rst
               (Receiver.Ev_receive_progress (colon3 a b c))))
       = Some (mkProgress (JS.parseInt a) (JS.parseInt b)
                 (JS.parseInt c / 1000)%float
                 (percentage_of (JS.parseInt a) (JS.parseInt b))) /\
     Receiver.exportProgress
       (fst (Receiver.step rt rst
               (Receiver.Ev_export_progress (colon3 a b c))))
       = Some (Receiver.mkExport (JS.parseInt a) (JS.parseInt b) (JS.parseInt c))).
Proof.
  split.
  - intros payload sst rst Hm Hchg.
    destruct (three_parts payload) as [[[a b] c]|] eqn:Hp.
    + exists a, b, c. apply three_parts_shape, Hp.
    + exfalso. destruct Hchg as [H|[H|[H|H]]]; apply H.
      * apply sender_import_progress_dropped, Hp.
      * apply sender_progress_dropped, Hp.
      * apply receiver_progress_dropped; assumption.
      * apply receiver_export_progress_dropped; assumption.
  - intros a b c sst rst Ha Hb Hc.
    pose proof (three_parts_colon3 a b c Ha Hb Hc) as Hp.
    repeat split.
    + cbn. unfold Sender.on_import_progress. rewrite Hp. destruct sst; reflexivity.
    + cbn. unfold Sender.on_transfer_progress. rewrite Hp. destruct sst; reflexivity.
    + unfold Receiver.step. cbn. unfold Receiver.on_receive_progress. rewrite Hp.
      unfold Receiver.render.
      match goal with |- context [if ?b then _ else _] => destruct b end;
        destruct rst; reflexivity.
    + unfold Receiver.step. cbn. unfold Receiver.on_export_progress. rewrite Hp.
      unfold Receiver.render.
      match goal with |- context [if ?b then _ else _] => destruct b end;
        destruct rst; reflexivity.
Qed.

(* ===================================================================== *)
(** * Decimal numerals *)
(* ===================================================================== *)

Lemma digits_string_of_uint (d : Decimal.uint) (acc : Z) (k : nat) :
  0 <= acc ->
  JS.digits (NilEmpty.string_of_uint d) acc k
  = (Z.of_nat (Nat.of_uint_acc d (Z.to_nat acc)), (k + Decimal.nb_digits d)%nat).
Proof.
  revert acc k.
  induction d as [|d IH|d IH|d IH|d IH|d IH|d IH|d IH|d IH|d IH|d IH];
    intros acc k Hacc;
    [cbn; rewrite Z2Nat.id by lia; f_equal; lia| ..];
    cbn [NilEmpty.string_of_uint JS.digits];
    match goal with
    | |- context [JS.is_digit ?c] =>
        change (JS.is_digit c) with true; cbn iota;
        let v := eval vm_compute in (JS.digit_val c) in
        change (JS.digit_val c) with v
    end;
    rewrite IH by lia; cbn [Nat.of_uint_acc Decimal.nb_digits];
    rewrite Nat.tail_mul_spec; (f_equal; [f_equal; f_equal; lia|lia]).
Qed.

Lemma to_uint_not_nil (n : nat) : Nat.to_uint n <> Decimal.Nil.
Proof.
  rewrite <- (DecimalNat.Unsigned.of_to n) at 1.
  rewrite DecimalNat.Unsigned.to_of. unfold Decimal.unorm.
  destruct (Decimal.nzhead (Nat.to_uint n)); discriminate.
Qed.

Lemma no_colon_string_of_uint (d : Decimal.uint) :
  no_sep ":" (NilEmpty.string_of_uint d) = true.
Proof. induction d; cbn; auto. Qed.

Lemma skip_space_digit (c : ascii) (rest : string) :
  JS.is_digit c = true -> JS.skip_space (String c rest) = None.
Proof.
  intros Hc. destruct c as [[] [] [] [] [] [] [] []]; try discriminate Hc;
    destruct rest as [|c2 [|c3 r]]; reflexivity.
Qed.

Lemma trimStart_skip (s : string) :
  JS.trimStart s
  = match JS.skip_space s with Some r => JS.trimStart r | None => s end.
Proof.
  destruct s as [|c1 [|c2 [|c3 r]]]; cbn [JS.trimStart JS.skip_space];
    try reflexivity.
  - destruct (JS.is_space1 c1); reflexivity.
  - destruct (JS.is_space1 c1); [reflexivity|].
    destruct (JS.is_space2 c1 c2); reflexivity.
  - destruct (JS.is_space1 c1); [reflexivity|].
    destruct (JS.is_space2 c1 c2); [reflexivity|].
    destruct (JS.is_space3 c1 c2 c3); reflexivity.
Qed.

Lemma parseInt_digits (s : string) :
  (exists c rest, s = String c rest /\ JS.is_digit c = true) ->
  JS.parseInt s
  = match JS.digits s 0 0 with
    | (_, O) => PrimFloat.nan
    | (v, S _) => JS.of_Z false v
    end.
Proof.
  intros (c & rest & -> & Hc). unfold JS.parseInt.
  rewrite trimStart_skip, (skip_space_digit c rest Hc).
  assert (Hm : c <> "-"%char /\ c <> "+"%char).
  { split; intros ->; discriminate Hc. }
  destruct Hm as [Hm Hp].
  destruct c as [[] [] [] [] [] [] [] []]; try reflexivity; congruence.
Qed.

Lemma string_of_uint_head (d : Decimal.uint) :
  d <> Decimal.Nil ->
  exists c rest, NilEmpty.string_of_uint d = String c rest /\ JS.is_digit c = true.
Proof.
  intros Hd. destruct d; try congruence; eexists; eexists; split; reflexivity.
Qed.

Lemma parseInt_string_of_nat (n : nat) :
  JS.parseInt (JS.string_of_nat n) = number_of_nat n.
Proof.
  unfold JS.string_of_nat, number_of_nat.
  pose proof (to_uint_not_nil n) as Hn.
  rewrite parseInt_digits by (apply string_of_uint_head, Hn).
  rewrite digits_string_of_uint by lia. cbn [Z.to_nat Nat.add].
  pose proof (DecimalNat.Unsigned.of_to n) as Hv. unfold Nat.of_uint in Hv.
  rewrite Hv.
  destruct (Decimal.nb_digits (Nat.to_uint n)) eqn:E; [|reflexivity].
  destruct (Nat.to_uint n); try congruence; discriminate E.
Qed.

Lemma iter_xO (m k : positive) :
  Z.pos (Pos.iter xO m k) = Z.pos m * 2 ^ Z.pos k.
Proof.
  induction k as [|k IH] using Pos.peano_ind.
  - cbn. lia.
  - rewrite Pos.iter_succ, Pos2Z.inj_xO, IH, Pos2Z.inj_succ, Z.pow_succ_r by lia.
    lia.
Qed.

(** A mantissa of exactly 53 bits with an exponent in range is rounded to
    itself. *)
Lemma binary_round_aux_53 (mz : positive) (ez : Z) :
  Z.pos (digits2_pos mz) = 53 -> -1074 <= ez <= 971 ->
  binary_round_aux prec emax false (Z.pos mz) ez loc_Exact
  = S754_finite false mz ez.
Proof.
  intros Hd He.
  assert (HD : 53 <= Z.pos (digits2_pos mz)) by lia.
  assert (Hmin : -1074 <= Z.pos (digits2_pos mz) + ez - 53) by lia.
  destruct (shr_fexp_wide mz ez loc_Exact HD Hmin) as (Hs & _ & H0 & _).
  rewrite Hd in Hs, H0. specialize (H0 eq_refl).
  unfold binary_round_aux.
  destruct (shr_fexp prec emax (Z.pos mz) ez loc_Exact) as [mrs e'] eqn:E.
  cbn [fst snd] in Hs, H0. subst mrs. replace e' with ez by lia.
  cbn [shr_record_of_loc shr_m loc_of_shr_record round_nearest_even].
  rewrite E. cbn [shr_m].
  replace e' with ez by lia.
  destruct (Z.leb_spec ez (emax - prec)) as [_|H]; [reflexivity|].
  unfold emax, prec in H. lia.
Qed.

(** The number nearest to a positive integer below [2^53] is that integer,
    with a mantissa of 53 bits. *)
Lemma of_Z_small (m : positive) :
  Z.pos m < 2 ^ 53 ->
  exists mz ez,
    Prim2SF (JS.of_Z false (Z.pos m)) = S754_finite false mz ez /\
    -52 <= ez <= 0 /\ Z.pos mz = Z.pos m * 2 ^ (- ez).
Proof.
  intros Hm. pose proof (digits2_pos_bounds m) as [Blo Bhi].
  set (d := Z.pos (digits2_pos m)) in *.
  assert (Hd1 : 1 <= d) by (unfold d; lia).
  assert (Hd : d <= 53).
  { destruct (Z_le_gt_dec d 53) as [H|H]; [exact H|exfalso].
    assert (2 ^ 53 <= 2 ^ (d - 1)) by (apply Z.pow_le_mono_r; lia). lia. }
  unfold JS.of_Z. cbn [binary_normalize]. unfold binary_round.
  fold d. rewrite Z.add_0_r, fexp_normal by lia.
  unfold shl_align. rewrite Z.sub_0_r.
  destruct (d - 53) as [|p|k] eqn:Ek; try lia.
  - assert (E53 : Z.pos (digits2_pos m) = 53) by (fold d; lia).
    rewrite binary_round_aux_53 by (cbn; lia).
    exists m, 0. rewrite Prim2SF_SF2Prim.
    + split; [reflexivity|]. split; [lia|]. cbn. lia.
    + cbn. unfold bounded, canonical_mantissa. rewrite E53. reflexivity.
  - assert (Hk : Z.pos k = 53 - d) by lia.
    assert (Hz : Z.pos (Pos.iter xO m k) = Z.pos m * 2 ^ Z.pos k)
      by apply iter_xO.
    assert (Hp : 2 ^ d * 2 ^ Z.pos k = 2 ^ 53).
    { rewrite <- Z.pow_add_r by lia. f_equal. lia. }
    assert (Hq : 2 ^ (d - 1) * 2 ^ Z.pos k = 2 ^ 52).
    { rewrite <- Z.pow_add_r by lia. f_equal. lia. }
    assert (H2k : 0 < 2 ^ Z.pos k) by (apply Z.pow_pos_nonneg; lia).
    assert (E53 : Z.pos (digits2_pos (Pos.iter xO m k)) = 53).
    { apply digits2_pos_unique. rewrite Hz. change (53 - 1) with 52.
      rewrite <- Hp, <- Hq. split; [apply Z.mul_le_mono_nonneg_r; lia|].
      apply Z.mul_lt_mono_pos_r; lia. }
    rewrite binary_round_aux_53 by (try exact E53; lia).
    exists (Pos.iter xO m k), (Z.neg k). rewrite Prim2SF_SF2Prim.
    + split; [reflexivity|]. split; [lia|]. rewrite Hz. reflexivity.
    + cbn [valid_binary]. unfold bounded, canonical_mantissa. rewrite E53.
      rewrite fexp_normal by lia.
      apply andb_true_iff. split; [apply Z.eqb_eq; lia|].
      apply Z.leb_le. unfold emax, prec. lia.
Qed.

Lemma integer_value_of_Z (z : Z) :
  0 <= z < 2 ^ 53 -> integer_value (JS.of_Z false z) = Some z.
Proof.
  intros Hz. destruct z as [|m|m]; try lia.
  - reflexivity.
  - destruct (of_Z_small m) as (mz & ez & E & He & Hm); [lia|].
    unfold integer_value. rewrite E.
    destruct (Z.leb_spec 0 ez) as [H0|H0].
    + assert (ez = 0) by lia. subst ez. cbn in Hm. cbn. f_equal. lia.
    + assert (H2 : 0 < 2 ^ (- ez)) by (apply Z.pow_pos_nonneg; lia).
      rewrite Hm, Z.mod_mul, Z.eqb_refl, Z.div_mul by lia. reflexivity.
Qed.

Lemma of_Z_positive (z : Z) :
  0 < z < 2 ^ 53 -> (0 <? JS.of_Z false z)%float = true.
Proof.
  intros Hz. destruct z as [|m|m]; try lia.
  destruct (of_Z_small m) as (mz & ez & E & _); [lia|].
  rewrite ltb_spec, E. reflexivity.
Qed.

Lemma no_colon_string_of_nat (n : nat) : no_sep ":" (JS.string_of_nat n) = true.
Proof. apply no_colon_string_of_uint. Qed.

(** X2.  Decimal byte counts are decoded without loss.  For a progress
    payload [a:b:c] of decimal numerals with [a] and [b] below [2^53], both
    hooks store a snapshot whose [bytesTransferred] and [totalBytes] are
    exactly the integers [a] and [b]; its percentage is [0] when [b] is [0]
    and the quotient times 100 otherwise. *)
Theorem numeral_progress_exact
  (rt : runtime) (a b c : nat)
  (sst : Sender.state) (rst : Receiver.state) :
  Z.of_nat a < 2 ^ 53 -> Z.of_nat b < 2 ^ 53 ->
  let payload :=
    colon3 (JS.string_of_nat a) (JS.string_of_nat b) (JS.string_of_nat c) in
  exists p : TransferProgress,
    Sender.transferProgress
      (fst (Sender.step sst (Sender.Ev_transfer_progress payload))) = Some p /\
    Receiver.transferProgress
      (fst (Receiver.step rt rst (Receiver.Ev_receive_progress payload)))
      = Some p /\
    integer_value (bytesTransferred p) = Some (Z.of_nat a) /\
    integer_value (totalBytes p) = Some (Z.of_nat b) /\
    speedBps p = (JS.parseInt (JS.string_of_nat c) / 1000)%float /\
    (b = 0%nat -> percentage p = 0%float) /\
    (b <> 0%nat ->
     percentage p = (bytesTransferred p / totalBytes p * 100)%float).
Proof.
  intros Ha Hb payload.
  pose proof (three_parts_colon3 _ _ _ (no_colon_string_of_nat a)
                (no_colon_string_of_nat b) (no_colon_string_of_nat c)) as Hp.
  fold payload in Hp.
  exists (progress_of_parts (JS.string_of_nat a) (JS.string_of_nat b)
            (JS.string_of_nat c)).
  split.
  { cbn. unfold Sender.on_transfer_progress. rewrite Hp. destruct sst; reflexivity. }
  split.
  { unfold Receiver.step. cbn. unfold Receiver.on_receive_progress. rewrite Hp.
    unfold Receiver.render.
    match goal with |- context [if ?b then _ else _] => destruct b end;
      destruct rst; reflexivity. }
  unfold progress_of_parts.
  cbn [bytesTransferred totalBytes speedBps percentage].
  rewrite !parseInt_string_of_nat. unfold number_of_nat.
  split; [apply integer_value_of_Z; lia|].
  split; [apply integer_value_of_Z; lia|].
  split; [reflexivity|]. split.
  - intros ->. reflexivity.
  - intros Hne. unfold percentage_of.
    rewrite of_Z_positive by lia. reflexivity.
Qed.

Lemma numeral_progress_exact_witness :
  exists p : TransferProgress,
    Receiver.transferProgress
      (fst (Receiver.step example_runtime Receiver.init
              (Receiver.Ev_receive_progress "3:4:5"))) = Some p /\
    integer_value (totalBytes p) = Some 4.
Proof.
  assert (Ha : Z.of_nat 3 < 2 ^ 53) by (vm_compute; reflexivity).
  assert (Hb : Z.of_nat 4 < 2 ^ 53) by (vm_compute; reflexivity).
  destruct (numeral_progress_exact example_runtime 3%nat 4%nat 5%nat
              Sender.init Receiver.init Ha Hb)
    as (p & _ & Hr & _ & Ht & _).
  exists p. split; [exact Hr|exact Ht].
Defined.

(* ===================================================================== *)
(** * Invariants of the two hooks *)
(* ===================================================================== *)

Lemma sender_step_consistent (st : Sender.state) (i : Sender.input) :
  sender_consistent st -> sender_consistent (fst (Sender.step st i)).
Proof.
  unfold sender_consistent. intros (Hs & Ht & Hb).
  destruct i; cbn;
    unfold Sender.on_import_progress, Sender.on_transfer_progress,
      Sender.on_transfer_completed, Sender.startSharing, Sender.copyTicket,
      Sender.on_timer;
    repeat match goal with
    | |- context [three_parts ?p] => destruct (three_parts p) as [[[? ?] ?]|]
    | |- context [Sender.truthy_path ?p] => destruct (Sender.truthy_path p)
    | |- context [match Sender.ticket ?s with Some _ => _ | None => _ end] =>
        destruct (Sender.ticket s) eqn:?
    | |- context [JS.truthy_str ?x] => destruct (JS.truthy_str x)
    | |- context [match ?cb with ClearCopySuccess => _ | ClearResumedFrom => _ end] =>
        destruct cb
    end;
    destruct st; cbn in *;
    (split; [intuition congruence|];
     split; [first [exact Ht|reflexivity]|first [exact Hb|congruence]]).
Qed.

Lemma sender_run_consistent (ins : list Sender.input) (st : Sender.state) :
  sender_consistent st -> sender_consistent (fst (Sender.run st ins)).
Proof.
  revert st. induction ins as [|i rest IH]; intros st Hst; cbn; [assumption|].
  pose proof (sender_step_consistent st i Hst) as Hs.
  destruct (Sender.step st i) as [st1 e1]. cbn in Hs.
  specialize (IH st1 Hs).
  destruct (Sender.run st1 rest) as [st2 e2]. exact IH.
Qed.

(** X3.  In every state the sender can reach, [isSharing] is set exactly
    when a ticket is held, [isTransporting] and [isCompleted] are never set
    together, and a transfer under way has its start time. *)
Theorem sender_invariant (st : Sender.state) :
  Sender.reachable st -> sender_consistent st.
Proof.
  intros [ins <-]. apply sender_run_consistent.
  split; [split; [discriminate|intros H; now contradiction H]|].
  split; [reflexivity|discriminate].
Qed.

Lemma sender_invariant_witness :
  sender_consistent (fst (Sender.run Sender.init sender_session)).
Proof.
  apply sender_invariant. exists sender_session. reflexivity.
Defined.

Lemma render_flags (old new : Receiver.state) :
  Receiver.isTransporting (Receiver.render old new) = Receiver.isTransporting new /\
  Receiver.isCompleted (Receiver.render old new) = Receiver.isCompleted new /\
  Receiver.isReceiving (Receiver.render old new) = Receiver.isReceiving new /\
  Receiver.isExporting (Receiver.render old new) = Receiver.isExporting new /\
  Receiver.transferMetadata (Receiver.render old new) = Receiver.transferMetadata new /\
  Receiver.transferProgress (Receiver.render old new) = Receiver.transferProgress new /\
  Receiver.exportProgress (Receiver.render old new) = Receiver.exportProgress new /\
  Receiver.ticket (Receiver.render old new) = Receiver.ticket new /\
  Receiver.fileNames (Receiver.render old new) = Receiver.fileNames new /\
  Receiver.transferStartTime (Receiver.render old new) = Receiver.transferStartTime new.
Proof.
  unfold Receiver.render. destruct (Receiver.deps_changed old new);
    destruct new; cbn; repeat split.
Qed.

(** Splits a receiver handler into its branches. *)
Ltac receiver_cases rt :=
  unfold Receiver.on_receive_progress, Receiver.on_export_progress,
    Receiver.on_receive_file_names, Receiver.handleBrowseFolder_resolved,
    Receiver.handleReceive, Receiver.on_timer, Receiver.on_receive_completed;
  repeat match goal with
  | |- context [three_parts ?p] => destruct (three_parts p) as [[[? ?] ?]|]
  | |- context [JSON_parse rt ?p] => destruct (JSON_parse rt p)
  | |- context [Receiver.displayName_of rt ?v] =>
      destruct (Receiver.displayName_of rt v)
  | |- context [JS.truthy_str ?x] => destruct (JS.truthy_str x)
  | |- context [match ?o with Some _ => _ | None => _ end] => destruct o
  | |- context [match ?cb with ClearCopySuccess => _ | ClearResumedFrom => _ end] =>
      destruct cb
  end.

Section ReceiverInvariant.

Variable rt : runtime.

Lemma receiver_handle_consistent (st : Receiver.state) (i : Receiver.input) :
  (Receiver.isTransporting st && Receiver.isCompleted st = false) ->
  (Receiver.isTransporting st = true -> Receiver.transferStartTime st <> None) ->
  (Receiver.isExporting st = true -> Receiver.exportProgress st <> None) ->
  (Receiver.isTransporting (fst (Receiver.handle rt st i))
   && Receiver.isCompleted (fst (Receiver.handle rt st i)) = false) /\
  (Receiver.isTransporting (fst (Receiver.handle rt st i)) = true ->
   Receiver.transferStartTime (fst (Receiver.handle rt st i)) <> None) /\
  (Receiver.isExporting (fst (Receiver.handle rt st i)) = true ->
   Receiver.exportProgress (fst (Receiver.handle rt st i)) <> None).
Proof.
  intros Ht Hb He. destruct i; cbn; receiver_cases rt;
    destruct st; cbn in *;
    (split; [first [exact Ht|reflexivity]|];
     split; [first [exact Hb|congruence]|first [exact He|congruence]]).
Qed.

Lemma receiver_step_consistent (st : Receiver.state) (i : Receiver.input) :
  receiver_consistent st ->
  receiver_consistent (fst (Receiver.step rt st i)).
Proof.
  intros (Ht & Hb & He & _).
  pose proof (receiver_handle_consistent st i Ht Hb He) as (Ht' & Hb' & He').
  pose proof (step_mirrors rt st i) as Hr.
  unfold Receiver.step in *.
  destruct (Receiver.handle rt st i) as [st' eff]. cbn [fst] in *.
  destruct (render_flags st st') as (E1 & E2 & _ & E4 & E5 & _ & E7 & _ & _ & E10).
  unfold receiver_consistent. rewrite E1, E2, E4, E7, E10. auto.
Qed.

Lemma receiver_run_consistent (ins : list Receiver.input) (st : Receiver.state) :
  receiver_consistent st ->
  receiver_consistent (fst (Receiver.run rt st ins)).
Proof.
  revert st. induction ins as [|i rest IH]; intros st Hst; cbn; [assumption|].
  pose proof (receiver_step_consistent st i Hst) as Hs.
  destruct (Receiver.step rt st i) as [st1 e1]. cbn in Hs.
  specialize (IH st1 Hs).
  destruct (Receiver.run rt st1 rest) as [st2 e2]. exact IH.
Qed.

(** X4.  In every state the receiver can reach, [isTransporting] and
    [isCompleted] are never set together, a transfer under way has its start
    time, an export under way has its progress, and each ref holds what its
    state cell holds.  (A completed session can be without metadata: see
    [completed_without_metadata].) *)
Theorem receiver_invariant (st : Receiver.state) :
  Receiver.reachable rt st -> receiver_consistent st.
Proof.
  intros [ins <-]. apply receiver_run_consistent.
  split; [reflexivity|]. repeat (split; [discriminate|]). repeat split.
Qed.

End ReceiverInvariant.

Lemma receiver_invariant_witness :
  receiver_consistent
    (fst (Receiver.run example_runtime Receiver.init receiver_session)).
Proof.
  apply (receiver_invariant example_runtime). exists receiver_session. reflexivity.
Defined.

(* ===================================================================== *)
(** * What the engine events leave alone *)
(* ===================================================================== *)

(** Splits a sender handler into its branches. *)
Ltac sender_cases :=
  unfold Sender.on_import_progress, Sender.on_transfer_progress,
    Sender.on_transfer_completed, Sender.startSharing, Sender.copyTicket,
    Sender.on_timer;
  repeat match goal with
  | |- context [three_parts ?p] => destruct (three_parts p) as [[[? ?] ?]|]
  | |- context [Sender.truthy_path ?p] => destruct (Sender.truthy_path p)
  | |- context [JS.truthy_str ?x] => destruct (JS.truthy_str x)
  | |- context [match ?o with Some _ => _ | None => _ end] => destruct o
  | |- context [match ?cb with ClearCopySuccess => _ | ClearResumedFrom => _ end] =>
      destruct cb
  end.

(** X5.  No engine event of the sender changes the ticket, the selected
    path, [isSharing], [isLoading] or [copySuccess]: only the callbacks and
    the commands they await do. *)
Theorem sender_events_frame (st : Sender.state) (i : Sender.input) :
  sender_is_event i = true ->
  Sender.ticket (fst (Sender.step st i)) = Sender.ticket st /\
  Sender.selectedPath (fst (Sender.step st i)) = Sender.selectedPath st /\
  Sender.isSharing (fst (Sender.step st i)) = Sender.isSharing st /\
  Sender.isLoading (fst (Sender.step st i)) = Sender.isLoading st /\
  Sender.copySuccess (fst (Sender.step st i)) = Sender.copySuccess st.
Proof.
  intros Hi. destruct i; try discriminate Hi; cbn.
  1-7: destruct st as [a b c d tk sp g h i0 j k l m]; cbn.
  all: sender_cases; cbn; repeat split.
Qed.

Lemma sender_events_frame_witness :
  Sender.ticket
    (fst (Sender.step (fst (Sender.run Sender.init sender_failed_stop))
            (Sender.Ev_transfer_completed 3000%float))) = Some "T1".
Proof.
  rewrite (proj1 (sender_events_frame _ (Sender.Ev_transfer_completed 3000%float)
                    eq_refl)).
  reflexivity.
Defined.

Section ReceiverFrames.

Variable rt : runtime.

(** X6.  No engine event of the receiver changes the ticket, the save path
    or [isReceiving]; in particular [receive-completed] leaves
    [isReceiving] set. *)
Theorem receiver_events_frame (st : Receiver.state) (i : Receiver.input) :
  receiver_is_event i = true ->
  Receiver.ticket (fst (Receiver.step rt st i)) = Receiver.ticket st /\
  Receiver.savePath (fst (Receiver.step rt st i)) = Receiver.savePath st /\
  Receiver.isReceiving (fst (Receiver.step rt st i)) = Receiver.isReceiving st.
Proof.
  intros Hi. unfold Receiver.step.
  destruct (Receiver.handle rt st i) as [st' eff] eqn:Hh. cbn [fst].
  destruct (render_flags st st') as (_ & _ & E3 & _ & _ & _ & _ & E8 & _).
  rewrite E3, E8, render_savePath.
  assert (Hst : st' = fst (Receiver.handle rt st i)) by (rewrite Hh; reflexivity).
  rewrite Hst. clear Hh Hst E3 E8.
  destruct i; try discriminate Hi; cbn; receiver_cases rt;
    destruct st; cbn; repeat split.
Qed.

(** X7.  The retained file names change only when a [receive-file-names]
    event is handled or the session is reset: every other input, a new
    [handleReceive] and [receive-completed] included, keeps them, so they
    survive any sequence of such inputs. *)
Theorem file_names_retained (ins : list Receiver.input) (st : Receiver.state) :
  Forall (fun i => sets_file_names i = false) ins ->
  Receiver.fileNames (fst (Receiver.run rt st ins)) = Receiver.fileNames st.
Proof.
  revert st. induction ins as [|i rest IH]; intros st Hall; [reflexivity|].
  pose proof (Forall_inv Hall) as Hi. cbn beta in Hi.
  pose proof (Forall_inv_tail Hall) as Hrest.
  cbn [Receiver.run].
  assert (Hstep : Receiver.fileNames (fst (Receiver.step rt st i))
                  = Receiver.fileNames st).
  { unfold Receiver.step.
    destruct (Receiver.handle rt st i) as [st' eff] eqn:Hh. cbn [fst].
    destruct (render_flags st st') as (_ & _ & _ & _ & _ & _ & _ & _ & E9 & _).
    rewrite E9.
    assert (Hst : st' = fst (Receiver.handle rt st i)) by (rewrite Hh; reflexivity).
    rewrite Hst. clear Hh Hst E9.
    destruct i; try discriminate Hi; cbn; receiver_cases rt;
      destruct st; reflexivity. }
  destruct (Receiver.step rt st i) as [st1 e1]. cbn [fst] in Hstep.
  specialize (IH st1 Hrest).
  destruct (Receiver.run rt st1 rest) as [st2 e2]. cbn [fst] in *.
  congruence.
Qed.

End ReceiverFrames.

Lemma receiver_events_frame_witness :
  Receiver.isReceiving
    (fst (Receiver.step example_runtime receiver_mid_transfer
            (Receiver.Ev_receive_completed 4000%float GcAbsent))) = true.
Proof.
  rewrite (proj2 (proj2 (receiver_events_frame example_runtime
                           receiver_mid_transfer
                           (Receiver.Ev_receive_completed 4000%float GcAbsent)
                           eq_refl))).
  reflexivity.
Defined.

Lemma file_names_retained_witness :
  Receiver.fileNames
    (fst (Receiver.run example_runtime receiver_mid_transfer
            [Receiver.Ev_receive_completed 4000%float GcAbsent;
             Receiver.Call_handleReceive])) = JSON.Array [].
Proof.
  rewrite file_names_retained; [reflexivity|].
  repeat constructor.
Defined.

(** X8.  The two timelines of a hook do not write each other's cells.  On
    the sender the import events leave the transfer cells alone and the
    transfer inputs leave the import cells alone (a transfer that starts
    keeps the import progress); on the receiver the export events leave the
    transport cells alone and the transport events leave the export cells
    alone. *)
Theorem timelines_independent (rt : runtime) :
  (forall (st : Sender.state) (i : Sender.input),
     sender_is_import_event i = true ->
     let st' := fst (Sender.step st i) in
     Sender.isTransporting st' = Sender.isTransporting st /\
     Sender.isCompleted st' = Sender.isCompleted st /\
     Sender.transferProgress st' = Sender.transferProgress st /\
     Sender.transferStartTime st' = Sender.transferStartTime st /\
     Sender.transferMetadata st' = Sender.transferMetadata st) /\
  (forall (st : Sender.state) (i : Sender.input),
     sender_is_transfer_input i = true ->
     let st' := fst (Sender.step st i) in
     Sender.isImporting st' = Sender.isImporting st /\
     Sender.importProgress st' = Sender.importProgress st) /\
  (forall (st : Receiver.state) (i : Receiver.input),
     receiver_is_export_event i = true ->
     let st' := fst (Receiver.step rt st i) in
     Receiver.isTransporting st' = Receiver.isTransporting st /\
     Receiver.isCompleted st' = Receiver.isCompleted st /\
     Receiver.transferProgress st' = Receiver.transferProgress st /\
     Receiver.transferStartTime st' = Receiver.transferStartTime st /\
     Receiver.transferMetadata st' = Receiver.transferMetadata st) /\
  (forall (st : Receiver.state) (i : Receiver.input),
     receiver_is_transport_event i = true ->
     let st' := fst (Receiver.step rt st i) in
     Receiver.isExporting st' = Receiver.isExporting st /\
     Receiver.exportProgress st' = Receiver.exportProgress st).
Proof.
  split; [|split; [|split]].
  - intros st i Hi st'. subst st'.
    destruct i; try discriminate Hi; cbn; sender_cases;
      destruct st; cbn; repeat split.
  - intros st i Hi st'. subst st'.
    destruct i; try discriminate Hi; cbn.
    1-3: destruct st as [a b c d tk sp g h i0 j k0 l m]; cbn.
    all: sender_cases; try (destruct st); cbn; repeat split.
  - intros st i Hi st'. subst st'. unfold Receiver.step.
    destruct (Receiver.handle rt st i) as [st1 eff] eqn:Hh. cbn [fst].
    destruct (render_flags st st1) as (E1 & E2 & _ & _ & E5 & E6 & _ & _ & _ & E10).
    rewrite E1, E2, E5, E6, E10.
    assert (Hst : st1 = fst (Receiver.handle rt st i)) by (rewrite Hh; reflexivity).
    rewrite Hst. clear Hh Hst E1 E2 E5 E6 E10.
    destruct i; try discriminate Hi; cbn; receiver_cases rt;
      destruct st; cbn; repeat split.
  - intros st i Hi st'. subst st'. unfold Receiver.step.
    destruct (Receiver.handle rt st i) as [st1 eff] eqn:Hh. cbn [fst].
    destruct (render_flags st st1) as (_ & _ & _ & E4 & _ & _ & E7 & _).
    rewrite E4, E7.
    assert (Hst : st1 = fst (Receiver.handle rt st i)) by (rewrite Hh; reflexivity).
    rewrite Hst. clear Hh Hst E4 E7.
    destruct i; try discriminate Hi; cbn; receiver_cases rt;
      destruct st; cbn; repeat split.
Qed.

(* ===================================================================== *)
(** * The callbacks of the sender *)
(* ===================================================================== *)

Lemma truthy_path_None (p : option string) :
  Sender.truthy_path p = None <-> (p = None \/ p = Some "").
Proof.
  destruct p as [[|c s]|]; cbn; split; intros H; auto; try discriminate.
  - destruct H as [H|H]; discriminate.
Qed.

Lemma truthy_path_Some (p : option string) (path : string) :
  Sender.truthy_path p = Some path <-> (p = Some path /\ path <> "").
Proof.
  destruct p as [[|c s]|]; cbn; split; intros H; try discriminate.
  - destruct H as [H Hn]. injection H as <-. congruence.
  - injection H as <-. split; [reflexivity|discriminate].
  - destruct H as [H _]. exact H.
  - destruct H as [H _]. discriminate.
Qed.

(** X9.  [startSharing].  Without a selected path ([null] or the empty
    string) it only warns: the state is unchanged and no command is sent.
    With one it sets [isLoading] and invokes [start_sharing] with that path,
    whatever the other flags hold.  When the command resolves, the result
    becomes the ticket and [isSharing] is set; when it is rejected, ticket
    and [isSharing] are kept and the error alert is opened; [isLoading] is
    false after either. *)
Theorem startSharing_contract (st : Sender.state) :
  (Sender.selectedPath st = None \/ Sender.selectedPath st = Some "" ->
   Sender.step st Sender.Call_startSharing
   = (st, [ConsoleWarn "No file selected for sharing" None])) /\
  (forall path : string,
     Sender.selectedPath st = Some path -> path <> "" ->
     Sender.step st Sender.Call_startSharing
     = (Sender.setIsLoading true st, [Invoke_start_sharing path])) /\
  (forall result : string,
     let st' := fst (Sender.step st (Sender.Start_sharing_resolved result)) in
     snd (Sender.step st (Sender.Start_sharing_resolved result)) = [] /\
     Sender.ticket st' = Some result /\ Sender.isSharing st' = true /\
     Sender.isLoading st' = false /\
     Sender.selectedPath st' = Sender.selectedPath st /\
     Sender.alertDialog st' = Sender.alertDialog st) /\
  (forall error : string,
     let st' := fst (Sender.step st (Sender.Start_sharing_rejected error)) in
     filter is_engine_command
       (snd (Sender.step st (Sender.Start_sharing_rejected error))) = [] /\
     Sender.ticket st' = Sender.ticket st /\
     Sender.isSharing st' = Sender.isSharing st /\
     Sender.isLoading st' = false /\
     Sender.selectedPath st' = Sender.selectedPath st /\
     Sender.alertDialog st'
     = mkAlert true "Sharing Failed" ("Failed to start sharing: " ++ error) "error").
Proof.
  split; [|split; [|split]].
  - intros H. apply truthy_path_None in H. cbn. unfold Sender.startSharing.
    rewrite H. reflexivity.
  - intros path Hp Hne. cbn. unfold Sender.startSharing.
    rewrite (proj2 (truthy_path_Some _ _) (conj Hp Hne)). reflexivity.
  - intros result st'. subst st'. destruct st; cbn. repeat split.
  - intros error st'. subst st'. destruct st; cbn. repeat split.
Qed.

(** X10.  [copyTicket].  Without a ticket ([null] or the empty string) it
    only warns.  With one it writes exactly that ticket to the clipboard;
    when the write resolves [copySuccess] is set and one timer of 2000 ms is
    started, whose firing clears [copySuccess] again and nothing else, so
    that the three steps together change nothing but [copySuccess]; when the
    write is rejected [copySuccess] is kept and the error alert is opened. *)
Theorem copyTicket_contract (st : Sender.state) :
  (Sender.ticket st = None \/ Sender.ticket st = Some "" ->
   Sender.step st Sender.Call_copyTicket
   = (st, [ConsoleWarn "No ticket available to copy" None])) /\
  (forall t : string,
     Sender.ticket st = Some t -> t <> "" ->
     Sender.step st Sender.Call_copyTicket = (st, [Clipboard_writeText t])) /\
  Sender.step st Sender.WriteText_resolved
  = (Sender.setCopySuccess true st, [SetTimeout ClearCopySuccess 2000]) /\
  Sender.run st [Sender.WriteText_resolved; Sender.Timer_fired ClearCopySuccess]
  = (Sender.setCopySuccess false st, [SetTimeout ClearCopySuccess 2000]) /\
  (forall error : string,
     let st' := fst (Sender.step st (Sender.WriteText_rejected error)) in
     Sender.copySuccess st' = Sender.copySuccess st /\
     Sender.ticket st' = Sender.ticket st /\
     Sender.alertDialog st'
     = mkAlert true "Copy Failed" ("Failed to copy ticket: " ++ error) "error").
Proof.
  split; [|split; [|split; [|split]]].
  - intros [H|H]; cbn; unfold Sender.copyTicket; rewrite H; reflexivity.
  - intros t Ht Hne. cbn. unfold Sender.copyTicket. rewrite Ht.
    destruct t; [congruence|reflexivity].
  - reflexivity.
  - destruct st; reflexivity.
  - intros error st'. subst st'. destruct st; cbn. repeat split.
Qed.

(* ===================================================================== *)
(** * The save folder of the receiver *)
(* ===================================================================== *)

Section SaveFolder.

Variable rt : runtime.

Lemma render_setSavePath (st : Receiver.state) (dir : string) :
  refs_mirror st ->
  Receiver.render st (Receiver.setSavePath dir st) = Receiver.setSavePath dir st.
Proof.
  intros (H1 & H2 & H3). unfold Receiver.render, Receiver.deps_changed,
    Receiver.same_progress.
  assert (Ht : Receiver.same_time (Receiver.transferStartTime st)
                 (Receiver.transferStartTime (Receiver.setSavePath dir st)) = true).
  { destruct st; cbn. unfold Receiver.same_time.
    destruct transferStartTime; [|reflexivity].
    apply FloatAxioms.Leibniz.eqb_spec. reflexivity. }
  rewrite Ht.
  destruct st as [a b c d e f g h i j k l m n o p q r]; cbn in *. subst.
  destruct h; cbn; rewrite ?Nat.eqb_refl; reflexivity.
Qed.

(** X11.  [handleBrowseFolder] opens the folder dialog and changes nothing
    by itself.  A cancelled dialog ([null], or an empty selection) leaves
    the state as it is; a chosen folder becomes [savePath] and nothing else
    changes: the installed listeners keep the folder they hold.  When the
    dialog fails, [savePath] is kept and the error alert is opened. *)
Theorem handleBrowseFolder_contract (st : Receiver.state) :
  refs_mirror st ->
  Receiver.step rt st Receiver.Call_handleBrowseFolder
  = (st, [Call_open_dialog]) /\
  (forall selected : option string,
     selected = None \/ selected = Some "" ->
     Receiver.step rt st (Receiver.Open_resolved selected) = (st, [])) /\
  (forall dir : string,
     dir <> "" ->
     Receiver.step rt st (Receiver.Open_resolved (Some dir))
     = (Receiver.setSavePath dir st, []) /\
     Receiver.savePath (Receiver.setSavePath dir st) = dir /\
     Receiver.listenerSavePath (Receiver.setSavePath dir st)
     = Receiver.listenerSavePath st) /\
  (forall error : string,
     let st' := fst (Receiver.step rt st (Receiver.Open_rejected error)) in
     Receiver.savePath st' = Receiver.savePath st /\
     Receiver.alertDialog st'
     = mkAlert true "Folder Dialog Failed"
         ("Failed to open folder dialog: " ++ error) "error" /\
     snd (Receiver.step rt st (Receiver.Open_rejected error))
     = [ConsoleError "Failed to open folder dialog:" (Some error)]).
Proof.
  intros Hm. split; [|split; [|split]].
  - unfold Receiver.step. cbn. rewrite render_same by exact Hm. reflexivity.
  - intros selected [->| ->]; unfold Receiver.step; cbn;
      rewrite render_same by exact Hm; reflexivity.
  - intros dir Hne. split; [|split].
    + unfold Receiver.step. cbn. destruct dir as [|c s]; [congruence|]. cbn.
      rewrite render_setSavePath by exact Hm. reflexivity.
    + destruct st; reflexivity.
    + destruct st; reflexivity.
  - intros error st'. subst st'. unfold Receiver.step. cbn.
    rewrite render_savePath, render_alertDialog. destruct st; cbn. repeat split.
Qed.

Lemma step_keeps_savePath (st : Receiver.state) (i : Receiver.input) :
  sets_save_path i = false ->
  Receiver.savePath (fst (Receiver.step rt st i)) = Receiver.savePath st.
Proof.
  intros Hi. pose proof (handle_keeps_savePath rt st i Hi) as Hk.
  unfold Receiver.step.
  destruct (Receiver.handle rt st i) as [st' eff]. cbn [fst] in *.
  rewrite render_savePath. exact Hk.
Qed.

Lemma run_keeps_current (ins : list Receiver.input) (st : Receiver.state) :
  Forall (fun i => sets_save_path i = false) ins ->
  Receiver.listenerSavePath st = Receiver.savePath st ->
  Receiver.listenerSavePath (fst (Receiver.run rt st ins))
  = Receiver.savePath st /\
  Receiver.savePath (fst (Receiver.run rt st ins)) = Receiver.savePath st.
Proof.
  revert st. induction ins as [|i rest IH]; intros st Hall Hcur; [auto|].
  pose proof (Forall_inv Hall) as Hi. cbn beta in Hi.
  pose proof (Forall_inv_tail Hall) as Hrest.
  pose proof (listeners_stay_current rt st i Hi Hcur) as H1.
  pose proof (step_keeps_savePath st i Hi) as H2.
  cbn [Receiver.run].
  destruct (Receiver.step rt st i) as [st1 e1]. cbn [fst] in H1, H2.
  destruct (IH st1 Hrest H1) as [H3 H4].
  destruct (Receiver.run rt st1 rest) as [st2 e2]. cbn [fst] in *.
  split; congruence.
Qed.

(** X12.  The download path of a transfer whose folder is not changed on
    the way.  A [receive-started] event whose time differs from the start
    time held re-installs the listeners; when no later input sets
    [savePath], the metadata that [receive-completed] builds, when it builds
    one, names the [savePath] of the session.  It builds one when the
    display name of the retained file names is computed; when that throws,
    the metadata is left as it was. *)
Theorem download_path_current
  (st : Receiver.state) (now endTime : JS.number) (gc : goatcounter)
  (ins : list Receiver.input) :
  Receiver.transferStartTime st <> Some now ->
  Forall (fun i => sets_save_path i = false) ins ->
  let st1 := fst (Receiver.run rt st (Receiver.Ev_receive_started now :: ins)) in
  let st2 := fst (Receiver.step rt st1 (Receiver.Ev_receive_completed endTime gc)) in
  Receiver.savePath st1 = Receiver.savePath st /\
  match Receiver.displayName_of rt (Receiver.fileNamesRef st1) with
  | Some name =>
      exists m : TransferMetadata,
        Receiver.transferMetadata st2 = Some m /\
        fileName m = name /\
        downloadPath m = Some (Receiver.savePath st)
  | None => Receiver.transferMetadata st2 = Receiver.transferMetadata st1
  end.
Proof.
  intros Hne Hall st1 st2.
  assert (Hd : Receiver.deps_changed st
                 (fst (Receiver.handle rt st (Receiver.Ev_receive_started now)))
               = true).
  { cbn. unfold Receiver.deps_changed.
    assert (Hs : Receiver.same_time (Receiver.transferStartTime st) (Some now) = false).
    { unfold Receiver.same_time. destruct (Receiver.transferStartTime st) as [t|];
        [|reflexivity].
      destruct (PrimFloat.Leibniz.eqb t now) eqn:E; [|reflexivity].
      apply FloatAxioms.Leibniz.eqb_spec in E. congruence. }
    destruct st; cbn in *. rewrite Hs. reflexivity. }
  pose proof (listeners_refreshed rt st _ Hd) as Hcur.
  pose proof (step_keeps_savePath st (Receiver.Ev_receive_started now) eq_refl) as Hsp.
  subst st2 st1. cbn [Receiver.run].
  destruct (Receiver.step rt st (Receiver.Ev_receive_started now)) as [s0 e0].
  cbn [fst] in Hcur, Hsp.
  destruct (run_keeps_current ins s0 Hall Hcur) as [H1 H2].
  destruct (Receiver.run rt s0 ins) as [s1 e1]. cbn [fst] in *.
  split; [congruence|].
  pose proof (receiver_completed_state rt s1 endTime gc) as (_ & _ & _ & Hm).
  destruct (Receiver.displayName_of rt (Receiver.fileNamesRef s1)) as [name|];
    [|exact Hm].
  eexists. split; [exact Hm|].
  cbn [fileName downloadPath Receiver.metadata_of]. split; congruence.
Qed.

End SaveFolder.

Lemma handleBrowseFolder_contract_witness :
  Receiver.step example_runtime receiver_mid_transfer
    (Receiver.Open_resolved None) = (receiver_mid_transfer, []).
Proof.
  apply (handleBrowseFolder_contract example_runtime receiver_mid_transfer).
  - repeat split.
  - left. reflexivity.
Defined.

Lemma download_path_current_witness :
  exists m : TransferMetadata,
    Receiver.transferMetadata
      (fst (Receiver.step example_runtime
              (fst (Receiver.run example_runtime receiver_with_ticket
                      [Receiver.Ev_receive_started 1000%float;
                       Receiver.Ev_receive_progress "3:4:5"]))
              (Receiver.Ev_receive_completed 4000%float GcAbsent)))
    = Some m /\
    fileName m = "Downloaded File" /\
    downloadPath m = Some "/home/user/Downloads".
Proof.
  assert (Hne : Receiver.transferStartTime receiver_with_ticket <> Some 1000%float)
    by discriminate.
  assert (Hall : Forall (fun i => sets_save_path i = false)
                   [Receiver.Ev_receive_progress "3:4:5"])
    by (repeat constructor).
  exact (proj2 (download_path_current example_runtime receiver_with_ticket
                  1000%float 4000%float GcAbsent
                  [Receiver.Ev_receive_progress "3:4:5"] Hne Hall)).
Defined.

(* ===================================================================== *)
(** * The metadata of a completed transfer *)
(* ===================================================================== *)

Lemma pop_last (l : list string) : l <> [] -> JS.pop l = Some (last l "").
Proof.
  intros Hl. destruct (exists_last Hl) as (l' & x & ->).
  rewrite pop_snoc, last_last. reflexivity.
Qed.

Lemma pop_or_split (path dflt : string) :
  JS.pop_or (JS.split "/" path) dflt = JS.or_str (last_segment path) dflt.
Proof.
  unfold JS.pop_or, last_segment.
  rewrite pop_last by apply split_nonempty. reflexivity.
Qed.

Lemma last_segment_no_slash (path : string) :
  no_sep "/" (last_segment path) = true.
Proof.
  unfold last_segment. pose proof (split_parts_no_sep "/" path) as Hf.
  pose proof (split_nonempty "/" path) as Hn.
  destruct (exists_last Hn) as (l' & x & E). rewrite E in Hf |- *.
  rewrite last_last. apply Forall_app in Hf as [_ Hx].
  exact (Forall_inv Hx).
Qed.

Lemma last_segment_app (dir seg : string) :
  no_sep "/" seg = true -> last_segment (dir ++ String "/" seg) = seg.
Proof.
  intros Hs. unfold last_segment. rewrite split_app, (split_no_sep _ _ Hs).
  apply last_last.
Qed.

(** X13.  The metadata of a sender transfer that completes with a selected
    path.  The [transfer-completed] listener asks for the size of that path;
    when the answer arrives, whatever the state is by then, the metadata
    holds the answered size (0 when the command failed), the completion
    time, no download path, and as file name the part of the path after its
    last ['/'], or ['Unknown'] when the path ends with ['/']: a name that is
    never empty and never contains a ['/'].  The duration is counted from
    the start time the listener held, and is 0 without one. *)
Theorem sender_completion_metadata
  (st st1 : Sender.state) (path : string) (now : JS.number) :
  Sender.selectedPath st = Some path -> path <> "" ->
  let k := mkCompletion path (Sender.transferStartTime st) now in
  let name := JS.or_str (last_segment path) "Unknown" in
  let meta := fun size =>
    mkMetadata name size
      (Sender.duration_of (Sender.transferStartTime st) now)
      (Sender.startTime_of (Sender.transferStartTime st) now) now None in
  snd (Sender.step st (Sender.Ev_transfer_completed now)) = [Invoke_get_file_size k] /\
  (forall size : JS.number,
     Sender.transferMetadata (fst (Sender.step st1 (Sender.Get_file_size_resolved k size)))
     = Some (meta size)) /\
  (forall error : string,
     Sender.transferMetadata (fst (Sender.step st1 (Sender.Get_file_size_rejected k error)))
     = Some (meta 0%float)) /\
  name <> "" /\ no_sep "/" name = true /\
  (forall dir seg : string,
     path = dir ++ String "/" seg -> no_sep "/" seg = true -> seg <> "" ->
     name = seg) /\
  (forall dir : string, path = dir ++ "/" -> name = "Unknown") /\
  (Sender.transferStartTime st = None ->
   duration (meta 0%float) = 0%float /\ startTime (meta 0%float) = now) /\
  (forall t0 : JS.number,
     Sender.transferStartTime st = Some t0 -> JS.truthy t0 = true ->
     duration (meta 0%float) = (now - t0)%float /\ startTime (meta 0%float) = t0).
Proof.
  intros Hp Hne k name meta.
  assert (Ht : Sender.truthy_path (Sender.selectedPath st) = Some path).
  { rewrite Hp. destruct path; [congruence|reflexivity]. }
  split; [cbn; unfold Sender.on_transfer_completed; rewrite Ht; reflexivity|].
  split.
  { intros size. cbn. unfold Sender.metadata_of. subst k. cbn [c_path c_startTime c_endTime].
    rewrite pop_or_split. destruct st1; reflexivity. }
  split.
  { intros error. cbn. unfold Sender.metadata_of. subst k. cbn [c_path c_startTime c_endTime].
    rewrite pop_or_split. destruct st1; reflexivity. }
  split.
  { subst name. unfold JS.or_str. destruct (last_segment path); discriminate. }
  split.
  { subst name. unfold JS.or_str. pose proof (last_segment_no_slash path) as Hl.
    destruct (last_segment path); [reflexivity|exact Hl]. }
  split.
  { intros dir seg -> Hs Hseg. subst name. rewrite last_segment_app by exact Hs.
    destruct seg; [congruence|reflexivity]. }
  split.
  { intros dir ->. subst name.
    change (dir ++ "/") with (dir ++ String "/" "").
    rewrite last_segment_app by reflexivity. reflexivity. }
  split.
  { intros H. subst meta. cbn. rewrite H. split; reflexivity. }
  intros t0 H Htr. subst meta. cbn. rewrite H. cbn. unfold JS.or_num.
  rewrite Htr. split; reflexivity.
Qed.

Lemma sender_completion_metadata_witness :
  Sender.transferMetadata
    (fst (Sender.step sender_mid_transfer
            (Sender.Get_file_size_rejected
               (mkCompletion "/tmp/video.mp4" (Some 1000%float) 3000%float)
               "no such file")))
  = Some (mkMetadata "video.mp4" 0%float 2000%float 1000%float 3000%float None).
Proof.
  assert (Hne : "/tmp/video.mp4" <> "") by discriminate.
  exact (proj1 (proj2 (proj2
           (sender_completion_metadata sender_mid_transfer sender_mid_transfer
              "/tmp/video.mp4" 3000%float eq_refl Hne))) "no such file").
Defined.

(** X14.  The size in the receiver's metadata is always a number.  Whatever
    the last snapshot holds (a [NaN] total from a non-numeric field, or no
    snapshot at all), the [fileSize] that [receive-completed] stores when it
    builds the metadata is not [NaN]: a [NaN] or zero total counts as [0].
    Every observation handed to analytics carries that size, next to stored
    metadata; when the display name cannot be computed nothing is stored and
    nothing is handed to analytics. *)
Theorem receiver_file_size_is_number
  (rt : runtime)
  (st : Receiver.state) (now : JS.number) (gc : goatcounter) :
  let st' := fst (Receiver.step rt st (Receiver.Ev_receive_completed now gc)) in
  let effects := snd (Receiver.step rt st (Receiver.Ev_receive_completed now gc)) in
  let size := Receiver.fileSize_of (Receiver.transferProgressRef st) in
  PrimFloat.is_nan size = false /\
  (forall p : TransferProgress,
     Receiver.transferProgressRef st = Some p ->
     JS.truthy (totalBytes p) = false -> size = 0%float) /\
  (forall name : string,
     Receiver.displayName_of rt (Receiver.fileNamesRef st) = Some name ->
     option_map fileSize (Receiver.transferMetadata st') = Some size) /\
  (forall (ev : string) (b mb : JS.number),
     In (Goatcounter_count ev b mb) effects ->
     b = size /\
     option_map fileSize (Receiver.transferMetadata st') = Some size) /\
  (Receiver.displayName_of rt (Receiver.fileNamesRef st) = None ->
   Receiver.transferMetadata st' = Receiver.transferMetadata st /\
   effects = [Uncaught_in_promise "TypeError"]).
Proof.
  intros st' effects size.
  pose proof (receiver_completed_state rt st now gc) as (_ & _ & _ & Hm).
  pose proof (receiver_completed_effects rt st now gc) as He.
  fold st' in Hm. fold effects in He.
  split; [|split; [|split; [|split]]].
  - subst size. unfold Receiver.fileSize_of.
    destruct (Receiver.transferProgressRef st) as [p|]; [|reflexivity].
    unfold JS.or_num. destruct (JS.truthy (totalBytes p)) eqn:E; [|reflexivity].
    unfold JS.truthy in E. apply negb_true_iff, orb_false_iff in E. apply E.
  - intros p Hp Hf. subst size. rewrite Hp. cbn. unfold JS.or_num.
    rewrite Hf. reflexivity.
  - intros name Hn. rewrite Hm, Hn. reflexivity.
  - intros ev b mb Hin. rewrite He in Hin. rewrite Hm.
    destruct (Receiver.displayName_of rt (Receiver.fileNamesRef st)) as [name|].
    + split; [|reflexivity].
      destruct gc; cbn in Hin; try contradiction.
      * destruct Hin as [H|[]]. injection H as _ <- _. reflexivity.
      * destruct Hin as [H|[]]. discriminate H.
    + destruct Hin as [H|[]]. discriminate H.
  - intros Hn. rewrite Hm, He, Hn. split; reflexivity.
Qed.

(* ===================================================================== *)
(** * A reset does not detach the hook from the engine *)
(* ===================================================================== *)

(** X15.  A [receive-completed] event that arrives after
    [resetForNewTransfer] is handled like any other: the reset session
    becomes completed (with [isReceiving] false and an empty ticket), its
    metadata is the placeholder built from the cleared cells (the fallback
    label, size 0, duration 0, start and end at the event), and
    [trackDataTransfer] is called with 0 bytes. *)
Theorem completion_after_reset
  (rt : runtime)
  (st : Receiver.state) (now : JS.number) (gc : goatcounter) :
  let st1 := fst (Receiver.step rt st Receiver.Call_resetForNewTransfer) in
  let st2 := fst (Receiver.step rt st1 (Receiver.Ev_receive_completed now gc)) in
  receiver_idle st1 /\
  Receiver.isCompleted st2 = true /\
  Receiver.isReceiving st2 = false /\
  Receiver.ticket st2 = "" /\
  Receiver.transferMetadata st2
  = Some (mkMetadata "Downloaded File" 0%float 0%float now now
            (Some (Receiver.listenerSavePath st1))) /\
  snd (Receiver.step rt st1 (Receiver.Ev_receive_completed now gc))
  = trackDataTransfer gc 0%float.
Proof.
  intros st1 st2. subst st2. subst st1. unfold Receiver.step. cbn.
  unfold Receiver.render, receiver_idle.
  repeat match goal with |- context [if ?b then _ else _] => destruct b end;
    destruct st; cbn; repeat split.
Qed.

(* ===================================================================== *)
(** * The alert dialog *)
(* ===================================================================== *)

Lemma sender_alert_frame (st : Sender.state) (i : Sender.input) :
  sender_is_alert_input i = false ->
  Sender.alertDialog (fst (Sender.step st i)) = Sender.alertDialog st.
Proof.
  intros Hi. destruct i; try discriminate Hi; cbn; sender_cases;
    try (destruct st); reflexivity.
Qed.

Lemma sender_alert_stays (st : Sender.state) (i : Sender.input) :
  sender_is_closeAlert i = false ->
  isOpen (Sender.alertDialog st) = true ->
  isOpen (Sender.alertDialog (fst (Sender.step st i))) = true.
Proof.
  intros Hi Ho. destruct (sender_is_alert_input i) eqn:Ha.
  - destruct i; try discriminate Ha; try discriminate Hi; destruct st; reflexivity.
  - rewrite sender_alert_frame by exact Ha. exact Ho.
Qed.

Section ReceiverAlert.

Variable rt : runtime.

Lemma receiver_alert_frame (st : Receiver.state) (i : Receiver.input) :
  receiver_is_alert_input i = false ->
  Receiver.alertDialog (fst (Receiver.step rt st i)) = Receiver.alertDialog st.
Proof.
  intros Hi. unfold Receiver.step.
  destruct (Receiver.handle rt st i) as [st1 eff] eqn:Hh. cbn [fst].
  rewrite render_alertDialog.
  assert (Hst : st1 = fst (Receiver.handle rt st i)) by (rewrite Hh; reflexivity).
  rewrite Hst. clear Hh Hst.
  destruct i; try discriminate Hi; cbn; receiver_cases rt;
    try (destruct st); reflexivity.
Qed.

Lemma receiver_alert_stays (st : Receiver.state) (i : Receiver.input) :
  receiver_is_closeAlert i = false ->
  isOpen (Receiver.alertDialog st) = true ->
  isOpen (Receiver.alertDialog (fst (Receiver.step rt st i))) = true.
Proof.
  intros Hi Ho. destruct (receiver_is_alert_input i) eqn:Ha.
  - unfold Receiver.step.
    destruct (Receiver.handle rt st i) as [st1 eff] eqn:Hh. cbn [fst].
    rewrite render_alertDialog.
    assert (Hst : st1 = fst (Receiver.handle rt st i)) by (rewrite Hh; reflexivity).
    rewrite Hst. clear Hh Hst.
    destruct i; try discriminate Ha; try discriminate Hi; destruct st; reflexivity.
  - rewrite receiver_alert_frame by exact Ha. exact Ho.
Qed.

(** X16.  The alert dialog is changed only by [showAlert], [closeAlert] and
    the rejection of a command or dialog the hook awaits: every other input
    (events, timers, resolved promises, the other callbacks, a reset
    included) leaves it as it is.  An open alert stays open until
    [closeAlert] is called, through any sequence of other inputs. *)
Theorem alert_dialog_lifetime :
  (forall (st : Sender.state) (i : Sender.input),
     sender_is_alert_input i = false ->
     Sender.alertDialog (fst (Sender.step st i)) = Sender.alertDialog st) /\
  (forall (st : Receiver.state) (i : Receiver.input),
     receiver_is_alert_input i = false ->
     Receiver.alertDialog (fst (Receiver.step rt st i))
     = Receiver.alertDialog st) /\
  (forall (ins : list Sender.input) (st : Sender.state),
     isOpen (Sender.alertDialog st) = true ->
     forallb (fun i => negb (sender_is_closeAlert i)) ins = true ->
     isOpen (Sender.alertDialog (fst (Sender.run st ins))) = true) /\
  (forall (ins : list Receiver.input) (st : Receiver.state),
     isOpen (Receiver.alertDialog st) = true ->
     forallb (fun i => negb (receiver_is_closeAlert i)) ins = true ->
     isOpen (Receiver.alertDialog (fst (Receiver.run rt st ins))) = true).
Proof.
  split; [exact sender_alert_frame|]. split; [exact receiver_alert_frame|]. split.
  - induction ins as [|i rest IH]; intros st Ho Hall; [exact Ho|].
    cbn in Hall. apply andb_true_iff in Hall as [Hi Hrest].
    apply negb_true_iff in Hi.
    pose proof (sender_alert_stays st i Hi Ho) as H1.
    cbn [Sender.run]. destruct (Sender.step st i) as [st1 e1]. cbn [fst] in H1.
    specialize (IH st1 H1 Hrest).
    destruct (Sender.run st1 rest) as [st2 e2]. exact IH.
  - induction ins as [|i rest IH]; intros st Ho Hall; [exact Ho|].
    cbn in Hall. apply andb_true_iff in Hall as [Hi Hrest].
    apply negb_true_iff in Hi.
    pose proof (receiver_alert_stays st i Hi Ho) as H1.
    cbn [Receiver.run]. destruct (Receiver.step rt st i) as [st1 e1].
    cbn [fst] in H1. specialize (IH st1 H1 Hrest).
    destruct (Receiver.run rt st1 rest) as [st2 e2]. exact IH.
Qed.

End ReceiverAlert.

(* ===================================================================== *)
(** * When the display name is empty *)
(* ===================================================================== *)




(* ===================================================================== *)
(** * The commands sent to the engine *)
(* ===================================================================== *)

Lemma skip_space_shorter (s r : string) :
  JS.skip_space s = Some r -> (String.length r < String.length s)%nat.
Proof.
  destruct s as [|c1 [|c2 [|c3 r3]]]; cbn [JS.skip_space]; try discriminate.
  - destruct (JS.is_space1 c1); [|discriminate]. intros H. injection H as <-. cbn. lia.
  - destruct (JS.is_space1 c1); [intros H; injection H as <-; cbn; lia|].
    destruct (JS.is_space2 c1 c2); [|discriminate].
    intros H. injection H as <-. cbn. lia.
  - destruct (JS.is_space1 c1); [intros H; injection H as <-; cbn; lia|].
    destruct (JS.is_space2 c1 c2); [intros H; injection H as <-; cbn; lia|].
    destruct (JS.is_space3 c1 c2 c3); [|discriminate].
    intros H. injection H as <-. cbn. lia.
Qed.

Lemma skip_space_app (p r w : string) :
  JS.skip_space p = Some r -> JS.skip_space (p ++ w) = Some (r ++ w).
Proof.
  destruct p as [|c1 [|c2 [|c3 r3]]]; cbn [JS.skip_space append]; try discriminate.
  - destruct (JS.is_space1 c1); [|discriminate]. intros H. injection H as <-. reflexivity.
  - destruct (JS.is_space1 c1); [intros H; injection H as <-; reflexivity|].
    destruct (JS.is_space2 c1 c2); [|discriminate].
    intros H. injection H as <-. reflexivity.
  - destruct (JS.is_space1 c1); [intros H; injection H as <-; reflexivity|].
    destruct (JS.is_space2 c1 c2); [intros H; injection H as <-; reflexivity|].
    destruct (JS.is_space3 c1 c2 c3); [|discriminate].
    intros H. injection H as <-. reflexivity.
Qed.

Lemma trimStart_starts (s : string) : starts_with_space (JS.trimStart s) = false.
Proof.
  unfold starts_with_space.
  assert (H : forall n s, (String.length s <= n)%nat ->
                          JS.skip_space (JS.trimStart s) = None).
  { induction n as [|n IH]; intros t Hn.
    - destruct t; [reflexivity|cbn in Hn; lia].
    - rewrite trimStart_skip. destruct (JS.skip_space t) as [r|] eqn:E; [|exact E].
      apply IH. apply skip_space_shorter in E. lia. }
  rewrite (H (String.length s) s (le_n _)). reflexivity.
Qed.

(** What [trimEnd] drops is white space only. *)
Lemma trimEnd_decomp (s : string) :
  exists w, s = JS.trimEnd s ++ w /\ JS.trimStart w = "".
Proof.
  induction s as [|c s (w & E & Hw)].
  - exists "". split; reflexivity.
  - cbn [JS.trimEnd]. destruct (JS.trimStart (String c s)) as [|c' r'] eqn:Et.
    + exists (String c s). split; [reflexivity|exact Et].
    + exists w. split; [cbn; rewrite <- E; reflexivity|exact Hw].
Qed.

Lemma trimEnd_starts (s : string) :
  starts_with_space s = false -> starts_with_space (JS.trimEnd s) = false.
Proof.
  unfold starts_with_space. intros Hs.
  destruct (JS.skip_space (JS.trimEnd s)) as [r|] eqn:E; [|reflexivity].
  destruct (trimEnd_decomp s) as (w & Ed & _).
  apply (skip_space_app _ _ w) in E. rewrite <- Ed in E. rewrite E in Hs.
  discriminate Hs.
Qed.

Lemma trimEnd_ends (s : string) : ends_with_space (JS.trimEnd s) = false.
Proof.
  induction s as [|c s IH]; [reflexivity|]. cbn [JS.trimEnd].
  destruct (JS.trimStart (String c s)) as [|c' r'] eqn:Et; [reflexivity|].
  cbn [ends_with_space].
  destruct (JS.skip_space (String c (JS.trimEnd s))) as [[|c2 r2]|] eqn:E;
    try exact IH.
  exfalso. destruct (trimEnd_decomp s) as (w & Ed & Hw).
  apply (skip_space_app _ _ w) in E. cbn [append] in E. rewrite <- Ed in E.
  rewrite trimStart_skip, E, Hw in Et. discriminate Et.
Qed.

Lemma trim_ends (s : string) :
  starts_with_space (JS.trim s) = false /\ ends_with_space (JS.trim s) = false.
Proof.
  unfold JS.trim. split; [apply trimEnd_starts, trimStart_starts|apply trimEnd_ends].
Qed.

Lemma receiver_commands
  (rt : runtime)
  (st : Receiver.state) (i : Receiver.input) :
  filter is_engine_command (snd (Receiver.step rt st i))
  = match i with
    | Receiver.Call_handleReceive =>
        if JS.truthy_str (JS.trim (Receiver.ticket st))
        then [Invoke_receive_file (JS.trim (Receiver.ticket st)) (Receiver.savePath st)]
        else []
    | _ => []
    end.
Proof.
  unfold Receiver.step.
  destruct (Receiver.handle rt st i) as [st1 eff] eqn:Hh. cbn [snd].
  assert (He : eff = snd (Receiver.handle rt st i)) by (rewrite Hh; reflexivity).
  rewrite He. clear Hh He.
  destruct i; cbn [Receiver.handle]; try reflexivity.
  - unfold Receiver.on_receive_progress.
    destruct (three_parts payload) as [[[p0 p1] p2]|]; reflexivity.
  - unfold Receiver.on_receive_file_names.
    destruct (JSON_parse rt payload); reflexivity.
  - unfold Receiver.on_export_progress.
    destruct (three_parts payload) as [[[p0 p1] p2]|]; reflexivity.
  - unfold Receiver.on_receive_completed.
    destruct (Receiver.displayName_of rt (Receiver.fileNamesRef st));
      destruct gc; reflexivity.
  - destruct cb; reflexivity.
  - unfold Receiver.handleBrowseFolder_resolved.
    destruct selected as [d|]; [destruct (JS.truthy_str d)|]; reflexivity.
  - unfold Receiver.handleReceive.
    destruct (JS.truthy_str (JS.trim (Receiver.ticket st))); reflexivity.
Qed.

(** X18.  The ticket handed to the engine.  [receive_file] is invoked by
    [handleReceive] only, never by an event, a timer or a settled promise;
    it is given the current [savePath] and the trimmed ticket, which is
    never empty and has no white space at either end. *)
Theorem receive_file_ticket
  (rt : runtime)
  (st : Receiver.state) (i : Receiver.input) (t out : string) :
  In (Invoke_receive_file t out) (snd (Receiver.step rt st i)) ->
  i = Receiver.Call_handleReceive /\
  t = JS.trim (Receiver.ticket st) /\ out = Receiver.savePath st /\
  t <> "" /\ starts_with_space t = false /\ ends_with_space t = false.
Proof.
  intros Hin.
  assert (Hf : In (Invoke_receive_file t out)
                 (filter is_engine_command (snd (Receiver.step rt st i))))
    by (apply filter_In; split; [exact Hin|reflexivity]).
  rewrite receiver_commands in Hf.
  destruct i; try contradiction Hf.
  destruct (JS.truthy_str (JS.trim (Receiver.ticket st))) eqn:E;
    [|contradiction Hf].
  destruct Hf as [H|[]]. injection H as <- <-.
  destruct (trim_ends (Receiver.ticket st)) as [H1 H2].
  repeat split; try assumption.
  intros H. rewrite H in E. discriminate E.
Qed.

Lemma receive_file_ticket_witness :
  JS.trim (Receiver.ticket receiver_with_ticket) = "T1".
Proof.
  symmetry.
  apply (receive_file_ticket example_runtime receiver_with_ticket
           Receiver.Call_handleReceive "T1" "/home/user/Downloads").
  left. reflexivity.
Defined.

(** X19.  The commands of the sender.  [start_sharing] is sent by
    [startSharing] only and [stop_sharing] by [stopSharing] (or
    [resetForNewTransfer]) only; the one command a listener sends is
    [get_file_size], from [transfer-completed].  The path given to
    [start_sharing] and to [get_file_size] is the selected path, and is
    never empty. *)
Theorem sender_commands_origin
  (st : Sender.state) (i : Sender.input) (e : effect) :
  In e (snd (Sender.step st i)) -> is_engine_command e = true ->
  (i = Sender.Call_startSharing /\
   exists path, e = Invoke_start_sharing path /\
                Sender.selectedPath st = Some path /\ path <> "") \/
  (i = Sender.Call_stopSharing /\ e = Invoke_stop_sharing) \/
  (exists now path,
     i = Sender.Ev_transfer_completed now /\
     e = Invoke_get_file_size
           (mkCompletion path (Sender.transferStartTime st) now) /\
     Sender.selectedPath st = Some path /\ path <> "").
Proof.
  destruct i; cbn [Sender.step].
  - intros [].
  - intros [].
  - unfold Sender.on_import_progress.
    destruct (three_parts payload) as [[[p0 p1] p2]|]; intros [].
  - intros [].
  - intros [].
  - unfold Sender.on_transfer_progress.
    destruct (three_parts payload) as [[[p0 p1] p2]|]; intros [].
  - unfold Sender.on_transfer_completed.
    destruct (Sender.truthy_path (Sender.selectedPath st)) as [path|] eqn:E;
      cbn [snd]; [|intros []].
    intros [<-|[]] _. right. right. exists now, path.
    apply truthy_path_Some in E. destruct E as [E1 E2]. auto.
  - intros [].
  - intros [<-|[]] He. discriminate He.
  - intros [].
  - unfold Sender.startSharing.
    destruct (Sender.truthy_path (Sender.selectedPath st)) as [path|] eqn:E;
      cbn [snd].
    + intros [<-|[]] _. left. split; [reflexivity|]. exists path.
      apply truthy_path_Some in E. destruct E as [E1 E2]. auto.
    + intros [<-|[]] He. discriminate He.
  - intros [].
  - intros [<-|[]] He. discriminate He.
  - intros [<-|[]] _. right. left. split; reflexivity.
  - intros [].
  - intros [<-|[]] He. discriminate He.
  - unfold Sender.copyTicket.
    destruct (Sender.ticket st) as [t|]; [destruct (JS.truthy_str t)|];
      intros [<-|[]] He; discriminate He.
  - intros [<-|[]] He. discriminate He.
  - intros [<-|[]] He. discriminate He.
  - destruct cb; intros [].
  - intros [].
  - intros [].
Qed.

Lemma sender_commands_origin_witness :
  exists path : string,
    Sender.selectedPath sender_mid_transfer = Some path /\ path <> "".
Proof.
  destruct (sender_commands_origin sender_mid_transfer Sender.Call_startSharing
              (Invoke_start_sharing "/tmp/video.mp4"))
    as [(_ & path & _ & H)|[(H & _)|(now & path & H & _)]].
  - left. reflexivity.
  - reflexivity.
  - exists path. exact H.
  - discriminate H.
  - discriminate H.
Defined.

(* ===================================================================== *)
(** * The copy mark and its timers *)
(* ===================================================================== *)

Lemma sender_advance_eq (now : Z) (w : sender_world) :
  sender_advance now w
  = mkSenderWorld (fst (sender_fire_due now (s_timers w) (s_hook w)))
      (Z.max (s_clock w) now)
      (snd (sender_fire_due now (s_timers w) (s_hook w))).
Proof.
  unfold sender_advance.
  destruct (sender_fire_due now (s_timers w) (s_hook w)); reflexivity.
Qed.

Lemma copy_cleared (st : Sender.state) :
  Sender.copySuccess (fst (Sender.step st (Sender.Timer_fired ClearCopySuccess)))
  = false.
Proof. destruct st; reflexivity. Qed.

(** X20.  The copy mark.  A clipboard write that succeeds sets
    [copySuccess] and schedules its clearing 2000 ms later; no timer is ever
    cancelled.  After one copy at [t0] the mark is set on [[t0, t0+2000)]
    and cleared from [t0+2000] on.  When a second copy succeeds at [t1]
    inside that window, the mark is set on [[t1, t0+2000)] only: the timer
    of the first copy clears it at [t0+2000], and it stays cleared. *)
Theorem copy_mark_windows (w : sender_world) (t0 t1 : Z) :
  s_timers w = [] -> s_clock w <= t0 -> t0 <= t1 < t0 + 2000 ->
  let w1 := sender_deliver t0 Sender.WriteText_resolved w in
  let w2 := sender_deliver t1 Sender.WriteText_resolved w1 in
  (forall t, t0 <= t < t0 + 2000 -> copied_at t w1 = true) /\
  (forall t, t0 + 2000 <= t -> copied_at t w1 = false) /\
  (forall t, t1 <= t < t0 + 2000 -> copied_at t w2 = true) /\
  (forall t, t0 + 2000 <= t -> copied_at t w2 = false).
Proof.
  intros Hts Hc Ht w1 w2.
  assert (Hw1 : w1 = mkSenderWorld (Sender.setCopySuccess true (s_hook w)) t0
                       [(t0 + 2000, ClearCopySuccess)]).
  { subst w1. unfold sender_deliver. rewrite sender_advance_eq, Hts.
    cbn [sender_fire_due fst snd s_hook s_clock s_timers Sender.step
         Sender.copyTicket_resolved Receiver.schedule_all Receiver.schedule].
    rewrite Z.max_r by lia. reflexivity. }
  assert (Hw2 : w2 = mkSenderWorld
                       (Sender.setCopySuccess true
                          (Sender.setCopySuccess true (s_hook w))) t1
                       [(t0 + 2000, ClearCopySuccess); (t1 + 2000, ClearCopySuccess)]).
  { subst w2. rewrite Hw1. unfold sender_deliver. rewrite sender_advance_eq.
    cbn [sender_fire_due fst snd s_hook s_clock s_timers].
    destruct (Z.leb_spec (t0 + 2000) t1) as [Hle|Hgt]; [lia|].
    cbn [fst snd Sender.step Sender.copyTicket_resolved
         Receiver.schedule_all Receiver.schedule].
    rewrite Z.max_r by lia.
    destruct (Z.ltb_spec (t1 + 2000) (t0 + 2000)) as [Hlt|Hge]; [lia|].
    reflexivity. }
  rewrite Hw1, Hw2. unfold copied_at.
  repeat split; intros t Hrange; rewrite sender_advance_eq;
    cbn [sender_fire_due fst snd s_hook s_clock s_timers].
  - destruct (Z.leb_spec (t0 + 2000) t); [lia|]. destruct (s_hook w); reflexivity.
  - destruct (Z.leb_spec (t0 + 2000) t); [|lia]. cbn [fst]. apply copy_cleared.
  - destruct (Z.leb_spec (t0 + 2000) t); [lia|]. destruct (s_hook w); reflexivity.
  - destruct (Z.leb_spec (t0 + 2000) t); [|lia].
    destruct (Z.leb_spec (t1 + 2000) t); cbn [fst]; apply copy_cleared.
Qed.

Lemma copy_mark_windows_witness :
  copied_at 1999
    (sender_deliver 1500 Sender.WriteText_resolved
       (sender_deliver 0 Sender.WriteText_resolved
          (mkSenderWorld Sender.init 0 []))) = true /\
  copied_at 2000
    (sender_deliver 1500 Sender.WriteText_resolved
       (sender_deliver 0 Sender.WriteText_resolved
          (mkSenderWorld Sender.init 0 []))) = false.
Proof.
  destruct (copy_mark_windows (mkSenderWorld Sender.init 0 []) 0 1500)
    as (_ & _ & H3 & H4); [reflexivity|cbn; lia|lia|].
  split; [apply H3; lia|apply H4; lia].
Defined.

(* ===================================================================== *)
(** * What the receiving card draws *)
(* ===================================================================== *)

Lemma render_exportProgress
  (rt : runtime)
  (st : Receiver.state) (cur tot pct : string) :
  no_sep ":" cur = true -> no_sep ":" tot = true -> no_sep ":" pct = true ->
  Receiver.exportProgress
    (fst (Receiver.step rt st
            (Receiver.Ev_export_progress (colon3 cur tot pct))))
  = Some (Receiver.mkExport (JS.parseInt cur) (JS.parseInt tot) (JS.parseInt pct)).
Proof.
  intros Ha Hb Hc. pose proof (three_parts_colon3 cur tot pct Ha Hb Hc) as Hp.
  unfold Receiver.step. cbn [Receiver.handle]. unfold Receiver.on_export_progress.
  rewrite Hp. cbn [fst]. unfold Receiver.render.
  match goal with |- context [if ?b then _ else _] => destruct b end;
    destruct st; reflexivity.
Qed.

Lemma bars_of_percent (p : nat) :
  (p <= 100)%nat ->
  let b := ReceivingActiveCard.bars (number_of_nat p) in
  let k := (3 * p / 10)%nat in
  firstn k b = repeat 100%float k /\
  skipn (S k) b = repeat 0%float (29 - k) /\
  (p = 0%nat -> nth_error b k = Some 0%float) /\
  ((0 < p < 100)%nat ->
   exists x : JS.number,
     nth_error b k = Some x /\
     (0 <? x)%float = true /\ (x <? 100)%float = true).
Proof.
  intros Hp.
  do 101 (destruct p as [|p];
          [vm_compute; split; [reflexivity|]; split; [reflexivity|];
           split; [first [intros _; reflexivity|discriminate]|];
           first [intros [H _]; exfalso; inversion H; fail
                 |intros [_ H]; exfalso; repeat apply le_S_n in H; inversion H; fail
                 |intros _; eexists; split; [reflexivity|split; reflexivity]]|]).
  exfalso. lia.
Qed.

(** X21.  The 30 export bars.  For an [export-progress] payload whose
    percentage field is the numeral of [p], [0 <= p <= 100], the card draws
    bar [index] as follows, with [k] the integer part of [3p/10]: the bars
    before [k] are full and the bars after [k] are empty; bar [k] is empty
    at [p = 0] and has a height strictly between 0 and 100 for every
    [0 < p < 100], the multiples of 10 included, where [3p/10] is a whole
    number: the remainder of [p] by the binary64 value of [100/30] is then
    just below that value and not zero.  At [p = 100] all 30 bars are
    full. *)
Theorem export_bars
  (rt : runtime)
  (st : Receiver.state) (cur tot : string) (p : nat) :
  no_sep ":" cur = true -> no_sep ":" tot = true -> (p <= 100)%nat ->
  exists ep : Receiver.ExportProgress,
    Receiver.exportProgress
      (fst (Receiver.step rt st
              (Receiver.Ev_export_progress (colon3 cur tot (JS.string_of_nat p)))))
    = Some ep /\
    let b := ReceivingActiveCard.bars (Receiver.epercentage ep) in
    let k := (3 * p / 10)%nat in
    List.length b = 30%nat /\
    firstn k b = repeat 100%float k /\
    skipn (S k) b = repeat 0%float (29 - k) /\
    (p = 0%nat -> nth_error b k = Some 0%float) /\
    ((0 < p < 100)%nat ->
     exists x : JS.number,
       nth_error b k = Some x /\
       (0 <? x)%float = true /\ (x <? 100)%float = true).
Proof.
  intros Ha Hb Hp. eexists. split.
  - apply render_exportProgress; try assumption. apply no_colon_string_of_nat.
  - cbn [Receiver.epercentage]. rewrite parseInt_string_of_nat.
    split; [reflexivity|]. apply bars_of_percent, Hp.
Qed.

Lemma export_bars_witness :
  exists ep : Receiver.ExportProgress,
    Receiver.exportProgress
      (fst (Receiver.step example_runtime Receiver.init
              (Receiver.Ev_export_progress "1:3:50"))) = Some ep /\
    exists x : JS.number,
      nth_error (ReceivingActiveCard.bars (Receiver.epercentage ep)) 15 = Some x /\
      (0 <? x)%float = true /\ (x <? 100)%float = true.
Proof.
  assert (Hp : (50 <= 100)%nat) by (vm_compute; repeat constructor).
  destruct (export_bars example_runtime Receiver.init "1" "3" 50%nat
              eq_refl eq_refl Hp) as (ep & He & _ & _ & _ & _ & Hx).
  exists ep. split; [exact He|]. apply Hx. split.
  - apply Nat.ltb_lt. reflexivity.
  - apply Nat.ltb_lt. reflexivity.
Defined.

Section CardOfHook.

Variable rt : runtime.

(** X22.  The slot of the resume notice.  After a [receive-resumed] event
    the card draws the notice exactly when the parsed payload is above 0.
    For a payload that parses to [0] or to [NaN] (the numeral [0], or a
    payload without a leading number) the condition
    [resumedFrom && resumedFrom > 0 && ...] evaluates to that number, which
    React draws as text in place of the notice; for a negative number
    nothing is drawn.  Once the timer has cleared the indicator nothing is
    drawn. *)
Theorem resume_notice_slot (st : Receiver.state) (payload : string) :
  let x := JS.parseInt payload in
  let st1 := fst (Receiver.step rt st (Receiver.Ev_receive_resumed payload)) in
  let st2 := fst (Receiver.step rt st1 (Receiver.Timer_fired ClearResumedFrom)) in
  ((0 <? x)%float = true ->
   ReceivingActiveCard.resume_child (Receiver.resumedFrom st1)
   = ReceivingActiveCard.ResumeNotice x) /\
  (PrimFloat.is_nan x = true \/ PrimFloat.is_zero x = true ->
   ReceivingActiveCard.resume_child (Receiver.resumedFrom st1)
   = ReceivingActiveCard.NumberText x) /\
  ((x <? 0)%float = true ->
   ReceivingActiveCard.resume_child (Receiver.resumedFrom st1)
   = ReceivingActiveCard.Nothing) /\
  (forall n : nat,
     payload = JS.string_of_nat n -> (0 < n)%nat -> Z.of_nat n < 2 ^ 53 ->
     ReceivingActiveCard.resume_child (Receiver.resumedFrom st1)
     = ReceivingActiveCard.ResumeNotice x) /\
  (payload = "0" ->
   ReceivingActiveCard.resume_child (Receiver.resumedFrom st1)
   = ReceivingActiveCard.NumberText 0%float) /\
  ReceivingActiveCard.resume_child (Receiver.resumedFrom st2)
  = ReceivingActiveCard.Nothing.
Proof.
  intros x st1 st2.
  assert (H1 : Receiver.resumedFrom st1 = Some x)
    by apply (resumed_event rt st payload).
  assert (H2 : Receiver.resumedFrom st2 = None)
    by apply (resumed_cleared rt st1).
  rewrite H1, H2. cbn [ReceivingActiveCard.resume_child].
  assert (Hpos : (0 <? x)%float = true ->
                 (if JS.truthy x
                  then if (0 <? x)%float then ReceivingActiveCard.ResumeNotice x
                       else ReceivingActiveCard.Nothing
                  else ReceivingActiveCard.NumberText x)
                 = ReceivingActiveCard.ResumeNotice x).
  { intros Hx. rewrite Hx.
    assert (Ht : JS.truthy x = true).
    { unfold JS.truthy, PrimFloat.is_nan, PrimFloat.is_zero.
      rewrite ltb_spec in Hx. rewrite !eqb_spec.
      change (Prim2SF 0%float) with (S754_zero false) in *.
      destruct (Prim2SF x) as [s|s| |s m e]; try discriminate Hx;
        destruct s; try discriminate Hx; cbn;
        try rewrite Z.compare_refl, Pos.compare_cont_refl; reflexivity. }
    rewrite Ht. reflexivity. }
  split; [exact Hpos|]. split; [|split; [|split; [|split]]].
  - intros Hz. unfold JS.truthy.
    destruct Hz as [-> | ->]; rewrite ?orb_true_r; reflexivity.
  - intros Hneg.
    assert (Ht : JS.truthy x = true /\ (0 <? x)%float = false).
    { unfold JS.truthy, PrimFloat.is_nan, PrimFloat.is_zero.
      rewrite ltb_spec in Hneg. rewrite ltb_spec, !eqb_spec.
      change (Prim2SF 0%float) with (S754_zero false) in *.
      destruct (Prim2SF x) as [s|s| |s m e]; try discriminate Hneg;
        destruct s; try discriminate Hneg; cbn;
        try rewrite Z.compare_refl, Pos.compare_cont_refl; split; reflexivity. }
    destruct Ht as [-> ->]. reflexivity.
  - intros n Hn Hpos' Hlt. apply Hpos. subst x. rewrite Hn, parseInt_string_of_nat.
    apply of_Z_positive. lia.
  - intros Hp. subst x. rewrite Hp. reflexivity.
  - reflexivity.
Qed.

(** X23.  In every state the receiver can reach, the card draws the export
    section exactly when [isExporting] is set: the guard
    [isExporting && exportProgress] never hides an export under way. *)
Theorem export_section_shown (st : Receiver.state) :
  Receiver.reachable rt st ->
  ReceivingActiveCard.export_shown (Receiver.isExporting st)
    (Receiver.exportProgress st) = Receiver.isExporting st.
Proof.
  intros [ins <-].
  assert (Hc : receiver_consistent (fst (Receiver.run rt Receiver.init ins))).
  { apply receiver_run_consistent.
    split; [reflexivity|]. repeat (split; [discriminate|]). repeat split. }
  destruct Hc as (_ & _ & He & _).
  unfold ReceivingActiveCard.export_shown.
  destruct (Receiver.isExporting _); [|reflexivity].
  destruct (Receiver.exportProgress _); [reflexivity|].
  exfalso. apply He; reflexivity.
Qed.

End CardOfHook.

Lemma export_section_shown_witness :
  ReceivingActiveCard.export_shown
    (Receiver.isExporting
       (fst (Receiver.run example_runtime Receiver.init receiver_exporting)))
    (Receiver.exportProgress
       (fst (Receiver.run example_runtime Receiver.init receiver_exporting)))
  = true.
Proof.
  rewrite (export_section_shown example_runtime); [reflexivity|].
  exists receiver_exporting. reflexivity.
Defined.

(* ===================================================================== *)
(** * What the drop zone draws *)
(* ===================================================================== *)

(** X24.  The drop zone.  Its styles depend on [isDragActive] only: the
    branch for a selected path that is not loading returns the base styles
    unchanged.  While loading, the status line, the sub text and the icon
    show the loading state whatever the other props are (the styles still
    follow the drag).  Otherwise the check mark is drawn exactly when the
    path line is, that is when a non-empty path is selected, also during a
    drag, when the status line invites to drop. *)
Theorem dropzone_view (p : Dropzone.props) :
  Dropzone.getDropzoneStyles p
  = (if Dropzone.isDragActive p
     then Dropzone.mkStyles "var(--app-accent)" "rgba(45, 120, 220, 0.1)"
     else Dropzone.baseStyles) /\
  (Dropzone.isLoading p = true ->
   Dropzone.getStatusText p = "Preparing for transport..." /\
   Dropzone.getSubText p
   = Dropzone.Sentence "Please wait while we process your files for sharing..." /\
   Dropzone.icon_drawn p = Dropzone.Loader2) /\
  (Dropzone.isLoading p = false ->
   (Dropzone.icon_drawn p = Dropzone.CheckCircle <->
    exists path, Dropzone.selectedPath p = Some path /\ path <> "") /\
   (forall path : string,
      Dropzone.getSubText p = Dropzone.PathLine path <->
      Dropzone.selectedPath p = Some path /\ path <> "") /\
   (Dropzone.isDragActive p = true ->
    Dropzone.getStatusText p = "Drop files or folders here")).
Proof.
  destruct p as [drag sel ty load]. split; [|split].
  - unfold Dropzone.getDropzoneStyles. cbn.
    destruct drag; [reflexivity|].
    destruct (Dropzone.selected _ && negb load); reflexivity.
  - cbn. intros ->. repeat split.
  - cbn. intros ->. split; [|split].
    + unfold Dropzone.icon_drawn, Dropzone.selected. cbn.
      destruct sel as [[|c s]|]; cbn; split.
      * discriminate.
      * intros (path & H & Hne). injection H as <-. congruence.
      * intros _. eexists. split; [reflexivity|discriminate].
      * reflexivity.
      * discriminate.
      * intros (path & H & _). discriminate H.
    + intros path. unfold Dropzone.getSubText. cbn.
      destruct sel as [[|c s]|]; cbn; split.
      * discriminate.
      * intros [H Hne]. injection H as <-. congruence.
      * intros H. injection H as <-. split; [reflexivity|discriminate].
      * intros [H _]. injection H as <-. reflexivity.
      * discriminate.
      * intros [H _]. discriminate H.
    + intros ->. reflexivity.
Qed.

(* ===================================================================== *)
(** * Every indicator set by a timer-backed event expires *)
(* ===================================================================== *)

Lemma ascending_weaken (lo lo' : Z) (ts : list (Z * timer)) :
  lo' <= lo -> ascending lo ts -> ascending lo' ts.
Proof. destruct ts as [|[d c] rest]; cbn; [auto|]. intros H [H1 H2]. split; [lia|exact H2]. Qed.

Lemma ascending_max (lo1 lo2 : Z) (ts : list (Z * timer)) :
  ascending lo1 ts -> ascending lo2 ts -> ascending (Z.max lo1 lo2) ts.
Proof. destruct ts as [|[d c] rest]; cbn; [auto|]. intros [H1 H2] [H3 _]. split; [lia|exact H2]. Qed.

Lemma ascending_suffix (lo : Z) (fired ts : list (Z * timer)) :
  ascending lo (fired ++ ts) -> ascending lo ts.
Proof.
  revert lo. induction fired as [|[d c] rest IH]; intros lo; cbn; [auto|].
  intros [H1 H2]. apply (ascending_weaken d); [exact H1|]. apply IH, H2.
Qed.

Lemma schedule_ascending (lo due : Z) (cb : timer) (ts : list (Z * timer)) :
  lo <= due -> ascending lo ts -> ascending lo (Receiver.schedule due cb ts).
Proof.
  revert lo. induction ts as [|[d c] rest IH]; intros lo Hlo Ha; cbn.
  - auto.
  - destruct Ha as [H1 H2]. destruct (Z.ltb_spec due d) as [Hlt|Hge]; cbn.
    + repeat split; try lia. exact H2.
    + split; [exact H1|]. apply IH; [lia|exact H2].
Qed.

Lemma schedule_Forall (P : Z * timer -> Prop) (due : Z) (cb : timer)
      (ts : list (Z * timer)) :
  P (due, cb) -> Forall P ts -> Forall P (Receiver.schedule due cb ts).
Proof.
  intros Hp Hf. induction ts as [|[d c] rest IH]; cbn.
  - constructor; [exact Hp|constructor].
  - destruct (due <? d).
    + constructor; [exact Hp|exact Hf].
    + constructor; [exact (Forall_inv Hf)|]. apply IH, (Forall_inv_tail Hf).
Qed.

Lemma schedule_not_nil (due : Z) (cb : timer) (ts : list (Z * timer)) :
  Receiver.schedule due cb ts <> [].
Proof. destruct ts as [|[d c] rest]; cbn; [discriminate|]. destruct (due <? d); discriminate. Qed.

Section ResumeExpires.

Variable rt : runtime.

Lemma timer_clears (st : Receiver.state) (cb : timer) :
  cb = ClearResumedFrom ->
  Receiver.resumedFrom (fst (Receiver.step rt st (Receiver.Timer_fired cb)))
  = None.
Proof. intros ->. apply resumed_cleared. Qed.

Lemma fire_due_spec (now lo : Z) (ts : list (Z * timer)) (st : Receiver.state) :
  ascending lo ts -> Forall (fun dc => snd dc = ClearResumedFrom) ts ->
  ascending (now + 1) (snd (Receiver.fire_due rt now ts st)) /\
  (exists fired, ts = (fired ++ snd (Receiver.fire_due rt now ts st))%list) /\
  ((snd (Receiver.fire_due rt now ts st) = ts /\
    fst (Receiver.fire_due rt now ts st) = st) \/
   Receiver.resumedFrom (fst (Receiver.fire_due rt now ts st)) = None).
Proof.
  revert lo st. induction ts as [|[d c] rest IH]; intros lo st Ha Hc.
  - cbn. split; [exact I|]. split; [exists []; reflexivity|]. left. split; reflexivity.
  - cbn [Receiver.fire_due]. destruct Ha as [H1 H2].
    pose proof (Forall_inv Hc) as Hcb. cbn in Hcb.
    pose proof (Forall_inv_tail Hc) as Hrest.
    destruct (Z.leb_spec d now) as [Hle|Hgt].
    + destruct (IH d (fst (Receiver.step rt st (Receiver.Timer_fired c)))
                  H2 Hrest) as (A & (fired & E) & B).
      split; [exact A|]. split.
      * exists ((d, c) :: fired). cbn. rewrite <- E. reflexivity.
      * right. destruct B as [[_ B]|B]; [|exact B].
        rewrite B. apply timer_clears, Hcb.
    + cbn [fst snd]. split; [split; [lia|exact H2]|].
      split; [exists []; reflexivity|]. left. split; reflexivity.
Qed.

Lemma fire_due_all (now : Z) (ts : list (Z * timer)) (st : Receiver.state) :
  Forall (fun dc => fst dc <= now /\ snd dc = ClearResumedFrom) ts ->
  (ts = [] -> Receiver.resumedFrom st = None) ->
  Receiver.resumedFrom (fst (Receiver.fire_due rt now ts st)) = None.
Proof.
  revert st. induction ts as [|[d c] rest IH]; intros st Hf Hn.
  - cbn. apply Hn. reflexivity.
  - cbn [Receiver.fire_due]. destruct (Forall_inv Hf) as [Hd Hc]. cbn in Hd, Hc.
    destruct (Z.leb_spec d now) as [_|Hgt]; [|lia].
    apply IH; [exact (Forall_inv_tail Hf)|]. intros _. apply timer_clears, Hc.
Qed.

Lemma advance_ok (now : Z) (w : Receiver.world) :
  receiver_timers_ok w -> receiver_timers_ok (Receiver.advance rt now w).
Proof.
  intros (Ha & Hf & Hn). rewrite advance_eq.
  assert (Hc : Forall (fun dc : Z * timer => snd dc = ClearResumedFrom) (Receiver.timers w)).
  { eapply Forall_impl; [|exact Hf]. intros dc [_ H]. exact H. }
  destruct (fire_due_spec now _ (Receiver.timers w) (Receiver.hook w) Ha Hc)
    as (A & (fired & E) & B).
  unfold receiver_timers_ok.
  cbn [Receiver.clock Receiver.timers Receiver.hook].
  split; [|split].
  - rewrite <- Z.add_max_distr_r. apply ascending_max; [|exact A].
    apply (ascending_suffix _ fired). rewrite <- E. exact Ha.
  - rewrite E in Hf. apply Forall_app in Hf as [_ Hf].
    eapply Forall_impl; [|exact Hf]. intros dc [H1 H2]. split; [lia|exact H2].
  - intros Hnil. destruct B as [[B1 B2]|B]; [|exact B].
    rewrite B2. apply Hn. rewrite <- B1. exact Hnil.
Qed.

Lemma step_timeouts (st : Receiver.state) (i : Receiver.input) :
  (snd (Receiver.step rt st i) = [SetTimeout ClearResumedFrom 5000]) \/
  ((forall c ts, Receiver.schedule_all c (snd (Receiver.step rt st i)) ts = ts) /\
   (Receiver.resumedFrom (fst (Receiver.step rt st i)) = Receiver.resumedFrom st \/
    Receiver.resumedFrom (fst (Receiver.step rt st i)) = None)).
Proof.
  unfold Receiver.step.
  destruct (Receiver.handle rt st i) as [st1 eff] eqn:Hh. cbn [fst snd].
  rewrite render_resumedFrom.
  assert (He : eff = snd (Receiver.handle rt st i)) by (rewrite Hh; reflexivity).
  assert (Hs : st1 = fst (Receiver.handle rt st i)) by (rewrite Hh; reflexivity).
  rewrite He, Hs. clear Hh He Hs.
  destruct i; cbn [Receiver.handle];
    try (left; reflexivity);
    right.
  - split; [reflexivity|]. left. destruct st; reflexivity.
  - split; [reflexivity|]. left. destruct st; reflexivity.
  - split; [reflexivity|]. left. destruct st; reflexivity.
  - unfold Receiver.on_receive_progress.
    destruct (three_parts payload) as [[[p0 p1] p2]|];
      (split; [reflexivity|]); left; destruct st; reflexivity.
  - unfold Receiver.on_receive_file_names.
    destruct (JSON_parse rt payload);
      (split; [reflexivity|]); left; destruct st; reflexivity.
  - split; [reflexivity|]. left. destruct st; reflexivity.
  - unfold Receiver.on_export_progress.
    destruct (three_parts payload) as [[[p0 p1] p2]|];
      (split; [reflexivity|]); left; destruct st; reflexivity.
  - split; [reflexivity|]. left. destruct st; reflexivity.
  - unfold Receiver.on_receive_completed.
    destruct (Receiver.displayName_of rt (Receiver.fileNamesRef st));
      (split; [destruct gc; reflexivity|]); left; destruct st; reflexivity.
  - destruct cb; (split; [reflexivity|]); [left|right]; destruct st; reflexivity.
  - split; [reflexivity|]. left. destruct st; reflexivity.
  - split; [reflexivity|]. left. reflexivity.
  - unfold Receiver.handleBrowseFolder_resolved.
    destruct selected as [d|]; [destruct (JS.truthy_str d)|];
      (split; [reflexivity|]); left; try (destruct st); reflexivity.
  - split; [reflexivity|]. left. destruct st; reflexivity.
  - unfold Receiver.handleReceive.
    destruct (JS.truthy_str (JS.trim (Receiver.ticket st)));
      (split; [reflexivity|]); [right|left]; try (destruct st); reflexivity.
  - split; [reflexivity|]. left. reflexivity.
  - split; [reflexivity|]. left. destruct st; reflexivity.
  - split; [reflexivity|]. right. destruct st; reflexivity.
  - split; [reflexivity|]. left. destruct st; reflexivity.
  - split; [reflexivity|]. left. destruct st; reflexivity.
Qed.

Lemma deliver_ok (now : Z) (i : Receiver.input) (w : Receiver.world) :
  receiver_timers_ok w -> receiver_timers_ok (Receiver.deliver rt now i w).
Proof.
  intros Hw. pose proof (advance_ok now w Hw) as (Ha & Hf & Hn).
  rewrite deliver_eq.
  set (w1 := Receiver.advance rt now w) in *.
  unfold receiver_timers_ok. cbn [Receiver.clock Receiver.timers Receiver.hook].
  destruct (step_timeouts (Receiver.hook w1) i) as [E|[E1 E2]].
  - rewrite E. cbn [Receiver.schedule_all]. split; [|split].
    + apply schedule_ascending; [lia|exact Ha].
    + apply schedule_Forall; [cbn; split; [lia|reflexivity]|exact Hf].
    + intros H. exfalso. exact (schedule_not_nil _ _ _ H).
  - rewrite E1. split; [exact Ha|]. split; [exact Hf|].
    intros H. destruct E2 as [E2|E2]; [|exact E2]. rewrite E2. apply Hn, H.
Qed.

Lemma play_ok (tl : list (Z * Receiver.input)) (w : Receiver.world) :
  receiver_timers_ok w -> receiver_timers_ok (Receiver.play rt w tl).
Proof.
  revert w. induction tl as [|[t i] rest IH]; intros w Hw; cbn; [exact Hw|].
  apply IH, deliver_ok, Hw.
Qed.

(** X25.  The resume indicator always expires.  After any timeline of
    inputs, whenever the indicator is set a timer that clears it is pending
    and due within 5000 ms of the latest input; from 5000 ms after the
    latest input on, the indicator is cleared. *)
Theorem resume_indicator_expires (tl : list (Z * Receiver.input)) :
  let w := Receiver.play rt Receiver.boot tl in
  (Receiver.resumedFrom (Receiver.hook w) <> None ->
   exists d : Z,
     In (d, ClearResumedFrom) (Receiver.timers w) /\
     Receiver.clock w < d <= Receiver.clock w + 5000) /\
  (forall t : Z,
     Receiver.clock w + 5000 <= t -> indicator_at rt t w = None).
Proof.
  intros w.
  assert (Hw : receiver_timers_ok w).
  { apply play_ok. split; [exact I|]. split; [constructor|reflexivity]. }
  destruct Hw as (Ha & Hf & Hn). split.
  - intros Hset. destruct (Receiver.timers w) as [|[d c] rest] eqn:E.
    + exfalso. apply Hset, Hn. reflexivity.
    + destruct Ha as [Ha _]. destruct (Forall_inv Hf) as [Hd Hc]. cbn in Hd, Hc.
      subst c. exists d. split; [left; reflexivity|lia].
  - intros t Ht. unfold indicator_at. rewrite advance_eq.
    cbn [Receiver.hook]. apply fire_due_all; [|exact Hn].
    eapply Forall_impl; [|exact Hf]. intros dc [H1 H2]. split; [lia|exact H2].
Qed.

End ResumeExpires.

Lemma sender_fire_due_spec (now lo : Z) (ts : list (Z * timer)) (st : Sender.state) :
  ascending lo ts -> Forall (fun dc => snd dc = ClearCopySuccess) ts ->
  ascending (now + 1) (snd (sender_fire_due now ts st)) /\
  (exists fired, ts = (fired ++ snd (sender_fire_due now ts st))%list) /\
  ((snd (sender_fire_due now ts st) = ts /\ fst (sender_fire_due now ts st) = st) \/
   Sender.copySuccess (fst (sender_fire_due now ts st)) = false).
Proof.
  revert lo st. induction ts as [|[d c] rest IH]; intros lo st Ha Hc.
  - cbn. split; [exact I|]. split; [exists []; reflexivity|]. left. split; reflexivity.
  - cbn [sender_fire_due]. destruct Ha as [H1 H2].
    pose proof (Forall_inv Hc) as Hcb. cbn in Hcb.
    pose proof (Forall_inv_tail Hc) as Hrest.
    destruct (Z.leb_spec d now) as [Hle|Hgt].
    + destruct (IH d (fst (Sender.step st (Sender.Timer_fired c))) H2 Hrest)
        as (A & (fired & E) & B).
      split; [exact A|]. split.
      * exists ((d, c) :: fired). rewrite <- app_comm_cons. f_equal. exact E.
      * right. destruct B as [[_ B]|B]; [|exact B].
        rewrite B, Hcb. apply copy_cleared.
    + cbn [fst snd]. split; [split; [lia|exact H2]|].
      split; [exists []; reflexivity|]. left. split; reflexivity.
Qed.

Lemma sender_fire_due_all (now : Z) (ts : list (Z * timer)) (st : Sender.state) :
  Forall (fun dc => fst dc <= now /\ snd dc = ClearCopySuccess) ts ->
  (ts = [] -> Sender.copySuccess st = false) ->
  Sender.copySuccess (fst (sender_fire_due now ts st)) = false.
Proof.
  revert st. induction ts as [|[d c] rest IH]; intros st Hf Hn.
  - cbn. apply Hn. reflexivity.
  - cbn [sender_fire_due]. destruct (Forall_inv Hf) as [Hd Hc]. cbn in Hd, Hc.
    destruct (Z.leb_spec d now) as [_|Hgt]; [|lia].
    apply IH; [exact (Forall_inv_tail Hf)|]. intros _. rewrite Hc. apply copy_cleared.
Qed.

Lemma sender_advance_ok (now : Z) (w : sender_world) :
  sender_timers_ok w -> sender_timers_ok (sender_advance now w).
Proof.
  intros (Ha & Hf & Hn). rewrite sender_advance_eq.
  assert (Hc : Forall (fun dc : Z * timer => snd dc = ClearCopySuccess) (s_timers w)).
  { eapply Forall_impl; [|exact Hf]. intros dc [_ H]. exact H. }
  destruct (sender_fire_due_spec now _ (s_timers w) (s_hook w) Ha Hc)
    as (A & (fired & E) & B).
  unfold sender_timers_ok. cbn [s_clock s_timers s_hook].
  split; [|split].
  - rewrite <- Z.add_max_distr_r. apply ascending_max; [|exact A].
    apply (ascending_suffix _ fired). rewrite <- E. exact Ha.
  - rewrite E in Hf. apply Forall_app in Hf as [_ Hf].
    eapply Forall_impl; [|exact Hf]. intros dc [H1 H2]. split; [lia|exact H2].
  - intros Hnil. destruct B as [[B1 B2]|B]; [|exact B].
    rewrite B2. apply Hn. rewrite <- B1. exact Hnil.
Qed.

Lemma sender_step_timeouts (st : Sender.state) (i : Sender.input) :
  (snd (Sender.step st i) = [SetTimeout ClearCopySuccess 2000]) \/
  ((forall c ts, Receiver.schedule_all c (snd (Sender.step st i)) ts = ts) /\
   (Sender.copySuccess (fst (Sender.step st i)) = Sender.copySuccess st \/
    Sender.copySuccess (fst (Sender.step st i)) = false)).
Proof.
  destruct i; cbn [Sender.step]; try (left; reflexivity); right.
  - split; [reflexivity|]. left. destruct st; reflexivity.
  - split; [reflexivity|]. left. destruct st; reflexivity.
  - unfold Sender.on_import_progress.
    destruct (three_parts payload) as [[[p0 p1] p2]|];
      (split; [reflexivity|]); left; try (destruct st); reflexivity.
  - split; [reflexivity|]. left. destruct st; reflexivity.
  - split; [reflexivity|]. left. destruct st; reflexivity.
  - unfold Sender.on_transfer_progress.
    destruct (three_parts payload) as [[[p0 p1] p2]|];
      (split; [reflexivity|]); left; try (destruct st); reflexivity.
  - unfold Sender.on_transfer_completed.
    destruct (Sender.truthy_path (Sender.selectedPath st));
      (split; [reflexivity|]); left; destruct st; reflexivity.
  - split; [reflexivity|]. left. destruct st; reflexivity.
  - split; [reflexivity|]. left. destruct st; reflexivity.
  - split; [reflexivity|]. left. destruct st; reflexivity.
  - unfold Sender.startSharing.
    destruct (Sender.truthy_path (Sender.selectedPath st));
      (split; [reflexivity|]); left; try (destruct st); reflexivity.
  - split; [reflexivity|]. left. destruct st; reflexivity.
  - split; [reflexivity|]. left. destruct st; reflexivity.
  - split; [reflexivity|]. left. reflexivity.
  - split; [reflexivity|]. left. destruct st; reflexivity.
  - split; [reflexivity|]. left. destruct st; reflexivity.
  - unfold Sender.copyTicket.
    destruct (Sender.ticket st) as [t|]; [destruct (JS.truthy_str t)|];
      (split; [reflexivity|]); left; reflexivity.
  - split; [reflexivity|]. left. destruct st; reflexivity.
  - destruct cb; (split; [reflexivity|]); [right|left]; try (destruct st); reflexivity.
  - split; [reflexivity|]. left. destruct st; reflexivity.
  - split; [reflexivity|]. left. destruct st; reflexivity.
Qed.

Lemma sender_deliver_ok (now : Z) (i : Sender.input) (w : sender_world) :
  sender_timers_ok w -> sender_timers_ok (sender_deliver now i w).
Proof.
  intros Hw. pose proof (sender_advance_ok now w Hw) as (Ha & Hf & Hn).
  unfold sender_deliver.
  set (w1 := sender_advance now w) in *.
  destruct (sender_step_timeouts (s_hook w1) i) as [E|[E1 E2]].
  - destruct (Sender.step (s_hook w1) i) as [st eff]. cbn [snd] in E. subst eff.
    unfold sender_timers_ok. cbn [s_clock s_timers s_hook Receiver.schedule_all].
    split; [|split].
    + apply schedule_ascending; [lia|exact Ha].
    + apply schedule_Forall; [cbn; split; [lia|reflexivity]|exact Hf].
    + intros H. exfalso. exact (schedule_not_nil _ _ _ H).
  - destruct (Sender.step (s_hook w1) i) as [st eff]. cbn [fst snd] in E1, E2.
    unfold sender_timers_ok. cbn [s_clock s_timers s_hook]. rewrite E1.
    split; [exact Ha|]. split; [exact Hf|].
    intros H. destruct E2 as [E2|E2]; [|exact E2]. rewrite E2. apply Hn, H.
Qed.

Lemma sender_play_ok (tl : list (Z * Sender.input)) (w : sender_world) :
  sender_timers_ok w -> sender_timers_ok (sender_play w tl).
Proof.
  revert w. induction tl as [|[t i] rest IH]; intros w Hw; cbn; [exact Hw|].
  apply IH, sender_deliver_ok, Hw.
Qed.

(** X26.  The copy mark always expires.  After any timeline of inputs,
    whenever [copySuccess] is set a timer that clears it is pending and due
    within 2000 ms of the latest input; from 2000 ms after the latest input
    on, [copySuccess] is false. *)
Theorem copy_mark_expires (tl : list (Z * Sender.input)) :
  let w := sender_play sender_boot tl in
  (Sender.copySuccess (s_hook w) = true ->
   exists d : Z,
     In (d, ClearCopySuccess) (s_timers w) /\
     s_clock w < d <= s_clock w + 2000) /\
  (forall t : Z, s_clock w + 2000 <= t -> copied_at t w = false).
Proof.
  intros w.
  assert (Hw : sender_timers_ok w).
  { apply sender_play_ok. split; [exact I|]. split; [constructor|reflexivity]. }
  destruct Hw as (Ha & Hf & Hn). split.
  - intros Hset. destruct (s_timers w) as [|[d c] rest] eqn:E.
    + rewrite Hn in Hset by reflexivity. discriminate Hset.
    + destruct Ha as [Ha _]. destruct (Forall_inv Hf) as [Hd Hc]. cbn in Hd, Hc.
      subst c. exists d. split; [left; reflexivity|lia].
  - intros t Ht. unfold copied_at. rewrite sender_advance_eq.
    cbn [s_hook]. apply sender_fire_due_all; [|exact Hn].
    eapply Forall_impl; [|exact Hf]. intros dc [H1 H2]. split; [lia|exact H2].
Qed.

(* ===================================================================== *)
(** * When the listeners are installed again *)
(* ===================================================================== *)

Lemma same_time_refl (t : option JS.number) : Receiver.same_time t t = true.
Proof.
  destruct t as [x|]; [|reflexivity]. cbn.
  apply FloatAxioms.Leibniz.eqb_spec. reflexivity.
Qed.

Lemma same_time_Some (t : option JS.number) (now : JS.number) :
  Receiver.same_time t (Some now) = true <-> t = Some now.
Proof.
  destruct t as [x|]; cbn; split; intros H; try discriminate.
  - apply FloatAxioms.Leibniz.eqb_spec in H. congruence.
  - injection H as ->. apply FloatAxioms.Leibniz.eqb_spec. reflexivity.
Qed.

Section Reinstall.

Variable rt : runtime.

Lemma keeps_deps_same (st : Receiver.state) (i : Receiver.input) :
  receiver_keeps_deps i = true -> reinstalls rt st i = false.
Proof.
  intros Hi. unfold reinstalls, Receiver.deps_changed, Receiver.same_progress.
  destruct i; try discriminate Hi; cbn [Receiver.handle];
    unfold Receiver.on_receive_file_names, Receiver.on_export_progress,
      Receiver.handleBrowseFolder_resolved, Receiver.on_timer;
    repeat match goal with
    | |- context [three_parts ?p] => destruct (three_parts p) as [[[? ?] ?]|]
    | |- context [JSON_parse rt ?p] => destruct (JSON_parse rt p)
    | |- context [match ?cb with ClearCopySuccess => _ | ClearResumedFrom => _ end] =>
        destruct cb
    end;
    try (destruct selected as [[|c0 s0]|]);
    destruct st; cbn;
    rewrite same_time_refl; destruct transferProgress; cbn;
    rewrite ?Nat.eqb_refl; reflexivity.
Qed.

(** X27.  When the receiver's listeners are installed again.  The listener
    effect depends on [transferStartTime] and [transferProgress]: every
    progress event of three fields stores a new snapshot object and so
    re-installs the eight listeners; [receive-started] does unless it
    carries the start time already held while no snapshot is held;
    [receive-completed] does exactly when a snapshot was held; the resume,
    file-name and export events, the timers, the folder dialog, the ticket
    and the alerts never do.  The listeners hold the current [savePath]
    after an input that re-installs them, and keep the one they held after
    any other. *)
Theorem listeners_reinstalled (st : Receiver.state) :
  (forall a b c : string,
     no_sep ":" a = true -> no_sep ":" b = true -> no_sep ":" c = true ->
     reinstalls rt st (Receiver.Ev_receive_progress (colon3 a b c)) = true) /\
  (forall now : JS.number,
     reinstalls rt st (Receiver.Ev_receive_started now) = false <->
     Receiver.transferStartTime st = Some now /\ Receiver.transferProgress st = None) /\
  (forall (now : JS.number) (gc : goatcounter),
     reinstalls rt st (Receiver.Ev_receive_completed now gc) = false <->
     Receiver.transferProgress st = None) /\
  (forall i : Receiver.input,
     receiver_keeps_deps i = true -> reinstalls rt st i = false) /\
  (forall i : Receiver.input,
     reinstalls rt st i = true ->
     Receiver.listenerSavePath (fst (Receiver.step rt st i))
     = Receiver.savePath (fst (Receiver.step rt st i))) /\
  (forall i : Receiver.input,
     reinstalls rt st i = false ->
     Receiver.listenerSavePath (fst (Receiver.step rt st i))
     = Receiver.listenerSavePath st).
Proof.
  split; [|split; [|split; [|split; [|split]]]].
  - intros a b c Ha Hb Hc. unfold reinstalls. cbn [Receiver.handle].
    unfold Receiver.on_receive_progress.
    rewrite (three_parts_colon3 a b c Ha Hb Hc). cbn [fst].
    unfold Receiver.deps_changed, Receiver.same_progress.
    destruct st as [a0 b0 c0 d e f g h i0 j k l m n o p q r]; cbn.
    destruct h; cbn; rewrite ?andb_false_r; [|reflexivity].
    assert (Hq : Nat.eqb q (S q) = false) by (apply Nat.eqb_neq; lia).
    rewrite Hq, andb_false_r. reflexivity.
  - intros now. unfold reinstalls. cbn [Receiver.handle Receiver.on_receive_started fst].
    unfold Receiver.deps_changed, Receiver.same_progress.
    destruct st as [a0 b0 c0 d e f g h i0 j k l m n o p q r]; cbn.
    rewrite negb_false_iff, andb_true_iff, same_time_Some.
    destruct h; split; intros [H1 H2]; try discriminate; auto.
  - intros now gc. unfold reinstalls.
    cbn [Receiver.handle]. unfold Receiver.on_receive_completed.
    destruct (Receiver.displayName_of rt (Receiver.fileNamesRef st));
    cbn [fst];
    unfold Receiver.deps_changed, Receiver.same_progress;
    destruct st as [a0 b0 c0 d e f g h i0 j k l m n o p q r]; cbn;
    rewrite same_time_refl; destruct h; cbn; split; intros H; try discriminate;
      reflexivity.
  - intros i. apply keeps_deps_same.
  - intros i. apply listeners_refreshed.
  - intros i Hd. unfold reinstalls in Hd. unfold Receiver.step.
    pose proof (handle_keeps_listeners rt st i) as Hk.
    destruct (Receiver.handle rt st i) as [st1 eff]. cbn [fst] in *.
    rewrite render_listeners, Hd. exact Hk.
Qed.

End Reinstall.

(* ===================================================================== *)
(** * The drop zone inside [DragDrop] *)
(* ===================================================================== *)

(** X28.  [DragDrop] shows the browse buttons exactly when no non-empty
    path is selected, which is exactly when the drop zone it renders has no
    selection to show: when not loading, the buttons are shown if and only
    if the drop zone draws the upload arrow and no path line.  The path type
    is looked up for exactly the paths the drop zone can show. *)
Theorem dragdrop_view
  (isDragActive : bool) (pathType selectedPath : option string)
  (isLoading : option bool) :
  let p := DragDrop.dropzone_props isDragActive pathType selectedPath isLoading in
  DragDrop.browse_buttons_shown selectedPath = negb (Dropzone.selected p) /\
  Dropzone.selectedPath p = DragDrop.path_checked selectedPath /\
  (Dropzone.isLoading p = false ->
   (DragDrop.browse_buttons_shown selectedPath = true <->
    exists color, Dropzone.icon_drawn p = Dropzone.Upload color) /\
   (DragDrop.browse_buttons_shown selectedPath = false <->
    exists path, Dropzone.getSubText p = Dropzone.PathLine path)).
Proof.
  intros p. subst p. unfold DragDrop.dropzone_props, DragDrop.browse_buttons_shown,
    DragDrop.path_checked, Dropzone.selected, Dropzone.icon_drawn, Dropzone.getSubText.
  cbn [Dropzone.selectedPath Dropzone.isLoading Dropzone.isDragActive].
  split; [|split].
  - destruct selectedPath as [[|c s]|]; reflexivity.
  - reflexivity.
  - intros ->. destruct selectedPath as [[|c s]|]; cbn; split; split;
      try discriminate; try (intros _; eexists; reflexivity);
      try (intros [x H]; discriminate H).
Qed.

(* ===================================================================== *)
(** * The path named at completion *)
(* ===================================================================== *)

(** X29.  The completion metadata names the path selected when the transfer
    completes, not the path that was shared.  When another path is selected
    after [start_sharing] was invoked, [transfer-completed] asks for the
    size of the newly selected path, and the metadata stored with the
    answer carries that path's last segment as file name. *)
Theorem metadata_names_selected_path
  (st : Sender.state) (shared later ticket : string) (now size : JS.number) :
  shared <> "" -> later <> "" ->
  let k := mkCompletion later (Sender.transferStartTime st) now in
  let r := Sender.run st [Sender.Call_handleFileSelect shared;
                          Sender.Call_startSharing;
                          Sender.Start_sharing_resolved ticket;
                          Sender.Call_handleFileSelect later;
                          Sender.Ev_transfer_completed now;
                          Sender.Get_file_size_resolved k size] in
  filter is_engine_command (snd r)
  = [Invoke_start_sharing shared; Invoke_get_file_size k] /\
  Sender.ticket (fst r) = Some ticket /\
  Sender.isCompleted (fst r) = true /\
  option_map fileName (Sender.transferMetadata (fst r))
  = Some (JS.or_str (last_segment later) "Unknown") /\
  option_map fileSize (Sender.transferMetadata (fst r)) = Some size.
Proof.
  intros Hs Hl k r. subst r. subst k.
  destruct shared as [|c1 s1]; [congruence|].
  destruct later as [|c2 s2]; [congruence|].
  destruct st as [a b c d e f g h i j k0 l m].
  cbn -[JS.split JS.pop_or last_segment]. unfold Sender.metadata_of.
  cbn [c_path c_startTime c_endTime option_map fileName fileSize].
  rewrite pop_or_split. repeat split.
Qed.

Lemma metadata_names_selected_path_witness :
  option_map fileName
    (Sender.transferMetadata
       (fst (Sender.run Sender.init
               [Sender.Call_handleFileSelect "/tmp/video.mp4";
                Sender.Call_startSharing;
                Sender.Start_sharing_resolved "T1";
                Sender.Call_handleFileSelect "/tmp/other.txt";
                Sender.Ev_transfer_completed 3000%float;
                Sender.Get_file_size_resolved
                  (mkCompletion "/tmp/other.txt" None 3000%float) 12%float])))
  = Some "other.txt".
Proof.
  assert (H1 : "/tmp/video.mp4" <> "") by discriminate.
  assert (H2 : "/tmp/other.txt" <> "") by discriminate.
  exact (proj1 (proj2 (proj2 (proj2
           (metadata_names_selected_path Sender.init "/tmp/video.mp4"
              "/tmp/other.txt" "T1" 3000%float 12%float H1 H2))))).
Defined.
